(** * statuspage: status and incident derivation, content diffing, configuration

    A shallow embedding of [statuspage/statuspage.py] and the properties of
    its derivation logic.

    Conventions of the embedding:
    - a Python [str] is a Rocq [string] holding the UTF-8 bytes of the text,
      a lone surrogate (which a [str] may hold and UTF-8 has no code for)
      as the three bytes ED A0..BF 80..BF; so [bytes(c, "utf-8")] is
      [list_byte_of_string] on a text without surrogates and a
      [UnicodeEncodeError] on one with, and the order of [sorted] on names
      is [String.leb];
    - Python [bytes] are [list byte];
    - [None] is the [None] of an [option];
    - an [OrderedDict] (and a Python 3.7+ [dict]) is an association list in
      insertion order;
    - a [datetime] is a [Z] (seconds on some clock);
    - a raised exception is the [Raise] branch of [outcome], an exception
      standing for its class;
    - the module's own test of the interpreter, [PY3], is a parameter of the
      code that depends on it;
    - calls to the GitHub API read a snapshot of the repository ([Repo]) and
      are recorded, with their arguments, in a log of [event]s. *)

From Stdlib Require Import List String Ascii ZArith Bool Lia.
From Stdlib Require Import Strings.Byte.
From Stdlib Require Import Permutation Sorted OrderedTypeEx.
Import ListNotations.

Set Warnings "-register-all".

Local Open Scope string_scope.
Local Open Scope list_scope.

(** ** Exceptions and results *)

Inductive exn : Type :=
| KeyError (key : string)
| TypeError
| AttributeError
| JSONDecodeError
| UnicodeDecodeError
| UnicodeEncodeError
| RuntimeError
| FileNotFoundError (path : string)
| UnknownObjectException
| GithubException (status : Z).

(** [isinstance(e, ValueError)]: the errors of decoding and of encoding
    derive from it. *)
Definition is_ValueError (e : exn) : bool :=
  match e with
  | JSONDecodeError | UnicodeDecodeError | UnicodeEncodeError => true
  | _ => false
  end.

Inductive outcome (A : Type) : Type :=
| Ok (a : A)
| Raise (e : exn).

Arguments Ok {A} a.
Arguments Raise {A} e.

Definition bind {A B : Type} (m : outcome A) (k : A -> outcome B) : outcome B :=
  match m with
  | Ok a => k a
  | Raise e => Raise e
  end.

Declare Scope py_scope.
Delimit Scope py_scope with py.
Notation "x <- m ;; k" := (bind m (fun x => k))
  (at level 61, m at next level, right associativity) : py_scope.

(** ** JSON values, as [json.loads] builds them *)

Inductive json : Type :=
| JNull
| JBool (b : bool)
| JNumber (literal : string)
| JStr (s : string)
| JList (items : list json)
| JObj (members : list (string * json)).

(** [s == v] for a [str] [s]: a string equals only an equal string. *)
Definition py_eq_str (s : string) (v : json) : bool :=
  match v with
  | JStr t => String.eqb s t
  | _ => false
  end.

Fixpoint is_substring (s t : string) : bool :=
  prefix s t ||
  match t with
  | EmptyString => false
  | String _ t' => is_substring s t'
  end.

(** [s in v] for a [str] [s]: key of a dict, element of a list, substring of
    a string; the other values are not containers. *)
Definition py_in (s : string) (v : json) : outcome bool :=
  match v with
  | JObj members => Ok (existsb (String.eqb s) (map fst members))
  | JList items => Ok (existsb (py_eq_str s) items)
  | JStr t => Ok (is_substring s t)
  | JNull | JBool _ | JNumber _ => Raise TypeError
  end.

(** ** Ordered dictionaries *)

Section OrderedDict.
Context {K V : Type}.
Variable eqb : K -> K -> bool.

(** [d[k]], [None] standing for the [KeyError]. *)
Fixpoint od_get (k : K) (d : list (K * V)) : option V :=
  match d with
  | [] => None
  | (k', v) :: rest => if eqb k k' then Some v else od_get k rest
  end.

(** [d[k] = v]: an existing key keeps its place, a new one goes last. *)
Fixpoint od_set (k : K) (v : V) (d : list (K * V)) : list (K * V) :=
  match d with
  | [] => [(k, v)]
  | (k', v') :: rest =>
      if eqb k k' then (k', v) :: rest else (k', v') :: od_set k v rest
  end.
End OrderedDict.

(** Equality of two values that are a [str] or [None]. *)
Definition status_eqb (a b : option string) : bool :=
  match a, b with
  | Some x, Some y => String.eqb x y
  | None, None => true
  | _, _ => false
  end.

(** ** [sorted] *)

Section Sorted.
Context {A : Type}.
Variable leb : A -> A -> bool.

Fixpoint insert_sorted (x : A) (l : list A) : list A :=
  match l with
  | [] => [x]
  | y :: t => if leb x y then x :: y :: t else y :: insert_sorted x t
  end.

(** [sorted(l)]: a stable sort, an element going before the later ones it
    is not greater than. *)
Definition sorted (l : list A) : list A :=
  fold_right insert_sorted [] l.

(** [sorted(l, reverse=True)]: the list is reversed, sorted and reversed
    again, which is how [reverse] keeps the sort stable. *)
Definition sorted_reverse (l : list A) : list A :=
  rev (sorted (rev l)).
End Sorted.

(** ** Data model *)

Record Label : Type := mkLabel {
  label_name : string;
  label_color : string
}.

Record Comment : Type := mkComment {
  comment_user_login : string;
  comment_created_at : Z;
  comment_body : string
}.

Record Issue : Type := mkIssue {
  issue_state : string;
  issue_labels : list Label;        (* issue.get_labels() *)
  issue_user_login : string;
  issue_created_at : Z;
  issue_title : string;
  issue_body : option string;       (* [None] for an issue without description *)
  issue_comments : list Comment     (* issue.get_comments() *)
}.

(** The value [{"status": ...}] kept for a system. *)
Record SystemData : Type := mkSystemData {
  status : option string
}.

Definition Systems : Type := list (string * SystemData).

Record Update : Type := mkUpdate {
  update_created : Z;
  update_body : string
}.

Record Incident : Type := mkIncident {
  incident_created : Z;
  incident_title : string;
  incident_systems : list string;
  incident_severity : option string;
  incident_closed : bool;
  incident_body : string;
  incident_updates : list Update
}.

Definition Panels : Type := list (option string * list string).

(** ** Label classification *)

Fixpoint iter_systems (labels : list Label) (system_color : json) : list string :=
  match labels with
  | [] => []
  | label :: rest =>
      if py_eq_str (label_color label) system_color
      then label_name label :: iter_systems rest system_color
      else iter_systems rest system_color
  end.

Fixpoint get_severity (labels : list Label) (status_labels : json)
  : outcome (option string) :=
  match labels with
  | [] => Ok None
  | label :: rest =>
      (found <- py_in (label_name label) status_labels ;;
       if found then Ok (Some (label_name label))
       else get_severity rest status_labels)%py
  end.

(** ** [get_panels] *)

Definition get_panels_step (panels : Panels) (item : string * SystemData) : Panels :=
  let (system, data) := item in
  if negb (status_eqb (status data) (Some "operational")) then
    match od_get status_eqb (status data) panels with
    | Some systems => od_set status_eqb (status data) (systems ++ [system]) panels
    | None => od_set status_eqb (status data) [system] panels
    end
  else panels.

Definition get_panels (systems : Systems) : Panels :=
  fold_left get_panels_step systems [].

(** ** [get_systems] *)

(** The first loop: every system is marked operational. *)
Definition seed_systems (names : list string) : Systems :=
  fold_left
    (fun systems name => od_set String.eqb name (mkSystemData (Some "operational")) systems)
    names [].

(** The innermost loop: [systems[affected_system]["status"] = severity]. *)
Fixpoint mark_affected (affected_systems : list string) (severity : option string)
    (systems : Systems) : outcome Systems :=
  match affected_systems with
  | [] => Ok systems
  | affected_system :: rest =>
      match od_get String.eqb affected_system systems with
      | None => Raise (KeyError affected_system)
      | Some _ =>
          mark_affected rest severity
            (od_set String.eqb affected_system (mkSystemData severity) systems)
      end
  end.

(** The body of [for issue in issues]. *)
Definition mark_issue (system_color status_labels : json) (issue : Issue)
    (systems : Systems) : outcome Systems :=
  if String.eqb (issue_state issue) "open" then
    (severity <- get_severity (issue_labels issue) status_labels ;;
     mark_affected (iter_systems (issue_labels issue) system_color) severity systems)%py
  else Ok systems.

Fixpoint mark_issues (system_color status_labels : json) (issues : list Issue)
    (systems : Systems) : outcome Systems :=
  match issues with
  | [] => Ok systems
  | issue :: rest =>
      (systems' <- mark_issue system_color status_labels issue systems ;;
       mark_issues system_color status_labels rest systems')%py
  end.

Definition get_systems (repo_labels : list Label) (issues : list Issue)
    (system_color status_labels : json) : outcome Systems :=
  mark_issues system_color status_labels issues
    (seed_systems (sorted String.leb (iter_systems repo_labels system_color))).


(** ** [get_incidents] *)

Definition is_None {A : Type} (o : option A) : bool :=
  match o with None => true | Some _ => false end.

Definition is_empty {A : Type} (l : list A) : bool :=
  match l with [] => true | _ :: _ => false end.

(** [x in l] for a list of strings. *)
Definition str_in_list (x : string) (l : list string) : bool :=
  existsb (String.eqb x) l.

Definition created_leb (a b : Incident) : bool :=
  (incident_created a <=? incident_created b)%Z.

Section Incidents.
(** [markdown2.markdown] on a text. *)
Variable markdown2_markdown : string -> string.

(** [markdown2.markdown(text)]: the converter takes a text, and fails with
    a [TypeError] on [None]. *)
Definition markdown (text : option string) : outcome string :=
  match text with
  | Some t => Ok (markdown2_markdown t)
  | None => Raise TypeError
  end.

(** The loop over [issue.get_comments()]. *)
Fixpoint collect_updates (collaborators : list string) (comments : list Comment)
  : list Update :=
  match comments with
  | [] => []
  | comment :: rest =>
      if str_in_list (comment_user_login comment) collaborators
      then mkUpdate (comment_created_at comment) (markdown2_markdown (comment_body comment))
             :: collect_updates collaborators rest
      else collect_updates collaborators rest
  end.

(** The incident of an issue: the dictionary is built first, the body
    converted in it, and the loop over the comments fills the updates. *)
Definition make_incident (collaborators : list string) (issue : Issue)
    (affected_systems : list string) (severity : option string) : outcome Incident :=
  (body <- markdown (issue_body issue) ;;
   Ok {| incident_created := issue_created_at issue;
         incident_title := issue_title issue;
         incident_systems := affected_systems;
         incident_severity := severity;
         incident_closed := String.eqb (issue_state issue) "closed";
         incident_body := body;
         incident_updates := collect_updates collaborators (issue_comments issue) |})%py.

(** The loop over the issues; [incidents] is the list built so far. *)
Fixpoint collect_incidents (collaborators : list string) (system_color status_labels : json)
    (issues : list Issue) (incidents : list Incident) : outcome (list Incident) :=
  match issues with
  | [] => Ok incidents
  | issue :: rest =>
      let labels := issue_labels issue in
      let affected_systems := sorted String.leb (iter_systems labels system_color) in
      (severity <- get_severity labels status_labels ;;
       if is_empty affected_systems
          || (is_None severity && negb (String.eqb (issue_state issue) "closed"))
       then collect_incidents collaborators system_color status_labels rest incidents
       else if negb (str_in_list (issue_user_login issue) collaborators)
       then collect_incidents collaborators system_color status_labels rest incidents
       else
         incident <- make_incident collaborators issue affected_systems severity ;;
         collect_incidents collaborators system_color status_labels rest
           (incidents ++ [incident]))%py
  end.

Definition get_incidents (repo_collaborators : list string) (issues : list Issue)
    (system_color status_labels : json) : outcome (list Incident) :=
  (incidents <- collect_incidents repo_collaborators system_color status_labels issues [] ;;
   Ok (sorted_reverse created_leb incidents))%py.
End Incidents.

(** ** [is_same_content] *)

(** What is compared: a [str] or [bytes]. *)
Inductive content : Type :=
| Str (s : string)
| Bytes (b : list byte).

Definition ascii_only (b : list byte) : bool :=
  forallb (fun x => (Byte.to_N x <? 128)%N) b.

Definition byte_in (lo hi : N) (b : byte) : bool :=
  ((lo <=? Byte.to_N b) && (Byte.to_N b <=? hi))%N.

(** The bytes hold a surrogate (U+D800..U+DFFF): ED, then A0..BF. *)
Fixpoint has_surrogate (b : list byte) : bool :=
  match b with
  | [] => false
  | b1 :: rest =>
      match rest with
      | b2 :: _ => byte_in 237 237 b1 && byte_in 160 191 b2
      | [] => false
      end
      || has_surrogate rest
  end.

(** [bytes(s, "utf-8")] in Python 3: a surrogate cannot be encoded. *)
Definition encode_utf8 (s : string) : outcome (list byte) :=
  if has_surrogate (list_byte_of_string s) then Raise UnicodeEncodeError
  else Ok (list_byte_of_string s).

Section Hashing.
(** [PY3 = sys.version_info >= (3, 0)] *)
Variable PY3 : bool.
(** [hashlib.sha1(c).hexdigest()] of a byte string. *)
Variable hashlib_sha1_hexdigest : list byte -> string.

(** The inner function [sha1], given as the digest of the bytes it hashes.
    Under Python 3 a [str] is encoded and [bytes] are taken as they are.
    Under Python 2 [c.encode("utf-8")] encodes a [unicode], surrogates
    included, and first decodes a byte string as ASCII. *)
Definition sha1 (c : content) : outcome string :=
  if PY3 then
    match c with
    | Str s => (b <- encode_utf8 s ;; Ok (hashlib_sha1_hexdigest b))%py
    | Bytes b => Ok (hashlib_sha1_hexdigest b)
    end
  else
    match c with
    | Str s => Ok (hashlib_sha1_hexdigest (list_byte_of_string s))
    | Bytes b =>
        if ascii_only b then Ok (hashlib_sha1_hexdigest b) else Raise UnicodeDecodeError
    end.

Definition is_same_content (c1 c2 : content) : outcome bool :=
  (h1 <- sha1 c1 ;;
   h2 <- sha1 c2 ;;
   Ok (String.eqb h1 h2))%py.
End Hashing.

(** ** UTF-8 decoding: [bytes.decode("utf-8")] *)

(** Well-formed UTF-8 byte sequences (no overlong forms, no surrogates,
    nothing above U+10FFFF), which is what the strict decoder accepts. *)
Fixpoint utf8_valid (bs : list byte) : bool :=
  match bs with
  | [] => true
  | b1 :: r1 =>
      if byte_in 0 127 b1 then utf8_valid r1 else
      match r1 with
      | [] => false
      | b2 :: r2 =>
          if byte_in 194 223 b1 && byte_in 128 191 b2 then utf8_valid r2 else
          match r2 with
          | [] => false
          | b3 :: r3 =>
              if (byte_in 224 224 b1 && byte_in 160 191 b2
                  || byte_in 225 236 b1 && byte_in 128 191 b2
                  || byte_in 237 237 b1 && byte_in 128 159 b2
                  || byte_in 238 239 b1 && byte_in 128 191 b2)
                 && byte_in 128 191 b3
              then utf8_valid r3 else
              match r3 with
              | [] => false
              | b4 :: r4 =>
                  if (byte_in 240 240 b1 && byte_in 144 191 b2
                      || byte_in 241 243 b1 && byte_in 128 191 b2
                      || byte_in 244 244 b1 && byte_in 128 143 b2)
                     && byte_in 128 191 b3 && byte_in 128 191 b4
                  then utf8_valid r4 else false
              end
          end
      end
  end.

Definition decode_utf8 (b : list byte) : outcome string :=
  if utf8_valid b then Ok (string_of_list_byte b) else Raise UnicodeDecodeError.

(** ** The program state and the GitHub API *)

(** A Python [dict] with string keys. *)
Definition dict : Type := list (string * json).

(** [d.update(other)]: the keys of [other] are assigned one by one. *)
Definition dict_update (d other : dict) : dict :=
  fold_left (fun acc kv => od_set String.eqb (fst kv) (snd kv) acc) other d.

Definition DEFAULT_CONFIG_initial : dict :=
  [ ("footer", JStr "Status page hosted by GitHub, generated with <a href='https://github.com/jayfk/statuspage'>jayfk/statuspage</a>");
    ("logo", JStr "https://raw.githubusercontent.com/jayfk/statuspage/master/template/logo.png");
    ("title", JStr "Status");
    ("favicon", JStr "https://raw.githubusercontent.com/jayfk/statuspage/master/template/favicon.png");
    ("system-color", JStr "171717");
    ("status-labels",
      JObj [ ("investigating", JStr "1192FC");
             ("degraded performance", JStr "FFA500");
             ("major outage", JStr "FF4D4D") ]);
    ("templates",
      JList [ JStr "template.html"; JStr "style.css"; JStr "statuspage.js";
              JStr "translations.ini" ]) ].

(** The calls that are logged: console output, and the repository calls that
    name a path, a ref or a branch. *)
Inductive event : Type :=
| Echo (message : string)
| GetGitRef (ref : string)
| GetContents (path ref : string)
| UpdateFile (path sha message content branch : string)
| CreateFile (path message content branch : string).

(** The module's mutable global and the log of calls made so far. *)
Record pystate : Type := mkState {
  DEFAULT_CONFIG : dict;
  log : list event
}.

Definition initial_state : pystate := mkState DEFAULT_CONFIG_initial [].

(** A configuration object: the global itself, or a dict of its own. *)
Inductive config_obj : Type :=
| DEFAULT_CONFIG_object
| fresh_object (d : dict).

Definition deref (st : pystate) (c : config_obj) : dict :=
  match c with
  | DEFAULT_CONFIG_object => DEFAULT_CONFIG st
  | fresh_object d => d
  end.

Definition M (A : Type) : Type := pystate -> outcome A * pystate.

Definition ret {A : Type} (a : A) : M A := fun st => (Ok a, st).

Definition raise {A : Type} (e : exn) : M A := fun st => (Raise e, st).

Definition lift {A : Type} (o : outcome A) : M A := fun st => (o, st).

Definition bindM {A B : Type} (m : M A) (k : A -> M B) : M B :=
  fun st =>
    match m st with
    | (Ok a, st') => k a st'
    | (Raise e, st') => (Raise e, st')
    end.

(** [try: m except E: handler], [handles] deciding [isinstance(e, E)]. *)
Definition try_except {A : Type} (m : M A) (handles : exn -> bool) (handler : M A) : M A :=
  fun st =>
    match m st with
    | (Ok a, st') => (Ok a, st')
    | (Raise e, st') => if handles e then handler st' else (Raise e, st')
    end.

Definition emit (ev : event) : M unit :=
  fun st => (Ok tt, mkState (DEFAULT_CONFIG st) (log st ++ [ev])).

Definition read_DEFAULT_CONFIG : M dict :=
  fun st => (Ok (DEFAULT_CONFIG st), st).

Definition write_DEFAULT_CONFIG (d : dict) : M unit :=
  fun st => (Ok tt, mkState d (log st)).

Definition read_config (c : config_obj) : M dict :=
  fun st => (Ok (deref st c), st).

Declare Scope io_scope.
Delimit Scope io_scope with io.
Notation "x <- m ;; k" := (bindM m (fun x => k))
  (at level 61, m at next level, right associativity) : io_scope.
Notation "m ;;; k" := (bindM m (fun _ => k))
  (at level 61, right associativity) : io_scope.

(** [for x in l: body x] *)
Fixpoint for_each {A : Type} (l : list A) (body : A -> M unit) : M unit :=
  match l with
  | [] => ret tt
  | x :: rest => (body x ;;; for_each rest body)%io
  end.

Record ContentFile : Type := mkContentFile {
  cf_path : string;
  cf_sha : string;
  cf_content : string      (* Base64 text *)
}.

(** What [repo.get_contents] answers: a file, or the entries of a directory. *)
Inductive contents : Type :=
| File (f : ContentFile)
| Dir (entries : list ContentFile).

(** A snapshot of the remote repository: the answer of each call. *)
Record Repo : Type := mkRepo {
  repo_labels : list Label;                         (* get_labels() *)
  repo_issues : list Issue;                         (* get_issues(state="all", since=...) *)
  repo_collaborators : list string;                 (* logins of get_collaborators() *)
  repo_git_ref : string -> outcome string;          (* get_git_ref(ref).object.sha *)
  repo_get_contents : string -> string -> outcome contents;   (* get_contents(path, ref) *)
  repo_update_file : string -> string -> string -> string -> string -> outcome unit;
  repo_create_file : string -> string -> string -> string -> outcome unit
}.

(** The client [Github(login_or_token=token, base_url=github_api, verify=ssl_verify)]. *)
Record Github : Type := mkGithub {
  gh_organization_repo : string -> string -> outcome Repo;   (* get_organization(org).get_repo(name) *)
  gh_user_repo : string -> outcome Repo                       (* get_user().get_repo(name) *)
}.

Definition get_git_ref (repo : Repo) (ref : string) : M string :=
  (emit (GetGitRef ref) ;;; lift (repo_git_ref repo ref))%io.

Definition get_contents (repo : Repo) (path ref : string) : M contents :=
  (emit (GetContents path ref) ;;; lift (repo_get_contents repo path ref))%io.

Definition update_file (repo : Repo) (path sha message content branch : string) : M unit :=
  (emit (UpdateFile path sha message content branch) ;;;
   lift (repo_update_file repo path sha message content branch))%io.

Definition create_file (repo : Repo) (path message content branch : string) : M unit :=
  (emit (CreateFile path message content branch) ;;;
   lift (repo_create_file repo path message content branch))%io.

Definition echo (message : string) : M unit := emit (Echo message).

(** An attribute of a [ContentFile]; a directory listing has none. *)
Definition as_file (c : contents) : outcome ContentFile :=
  match c with
  | File f => Ok f
  | Dir _ => Raise AttributeError
  end.

(** [if org:] with [org] a string or [False]. *)
Definition truthy (o : option string) : bool :=
  match o with
  | Some s => negb (String.eqb s "")
  | None => false
  end.

Definition get_repo (gh : Github) (name : string) (org : option string) : M Repo :=
  match org with
  | Some o => if truthy org then lift (gh_organization_repo gh o name)
              else lift (gh_user_repo gh name)
  | None => lift (gh_user_repo gh name)
  end.

Definition get_files (repo : Repo) : M (list string) :=
  (c <- get_contents repo "/" "gh-pages" ;;
   match c with
   | Dir entries => ret (map cf_path entries)
   | File _ => raise TypeError
   end)%io.

(** [d[k]] *)
Definition getitem (d : dict) (k : string) : outcome json :=
  match od_get String.eqb k d with
  | Some v => Ok v
  | None => Raise (KeyError k)
  end.

(** The characters of a string: a continuation byte (10xxxxxx) stays with
    the byte sequence it continues. *)
Fixpoint utf8_chars (s : string) : list string :=
  match s with
  | EmptyString => []
  | String c rest =>
      match utf8_chars rest with
      | [] => [String c EmptyString]
      | next :: more =>
          match next with
          | String c' _ =>
              if ((128 <=? N_of_ascii c') && (N_of_ascii c' <=? 191))%N
              then String c next :: more
              else String c EmptyString :: next :: more
          | EmptyString => String c EmptyString :: more
          end
      end
  end.

(** [for x in v]: the items of a list, the keys of a dict, the characters of
    a string. *)
Definition py_iter (v : json) : outcome (list json) :=
  match v with
  | JList items => Ok items
  | JObj members => Ok (map (fun kv => JStr (fst kv)) members)
  | JStr s => Ok (map JStr (utf8_chars s))
  | JNull | JBool _ | JNumber _ => Raise TypeError
  end.

Definition starts_with_slash (s : string) : bool :=
  match s with
  | String c _ => Ascii.eqb c "/"
  | EmptyString => false
  end.

Fixpoint ends_with_slash (s : string) : bool :=
  match s with
  | EmptyString => false
  | String c EmptyString => Ascii.eqb c "/"
  | String _ rest => ends_with_slash rest
  end.

(** One step of [os.path.join] (POSIX). *)
Definition path_join (path b : string) : string :=
  if starts_with_slash b then b
  else if String.eqb path "" || ends_with_slash path then (path ++ b)%string
  else (path ++ "/" ++ b)%string.

Section Program.
Variable PY3 : bool.
Variable hashlib_sha1_hexdigest : list byte -> string.
Variable base64_b64decode : string -> list byte.
(** [json.loads] on the text of a configuration file: the decoded object,
    or nothing when the text is not JSON. *)
Variable json_loads : string -> option dict.
Variable markdown2_markdown : string -> string.
(** [Template(text).render({"systems": .., "incidents": .., "panels": .., "config": ..})] *)
Variable Template_render : string -> Systems -> list Incident -> Panels -> dict -> string.
(** The local files: the text of the file at a path, if there is one. *)
Variable local_file : string -> option string.
Variable ROOT : string.

Definition loads (text : string) : outcome dict :=
  match json_loads text with
  | Some d => Ok d
  | None => Raise JSONDecodeError
  end.

(** [open(path, "r", encoding='utf-8').read()], as Python 3 runs it. *)
Definition open_read (path : string) : outcome string :=
  match local_file path with
  | Some text => Ok text
  | None => Raise (FileNotFoundError path)
  end.

(** [open(path, "r", encoding='utf-8')] in [run_upgrade]: the [open] of
    Python 2 takes no [encoding] and fails with a [TypeError] before it
    looks for the file. *)
Definition open_template (path : string) : outcome string :=
  if PY3 then open_read path else Raise TypeError.

(** [os.path.isfile] *)
Definition isfile (path : string) : bool :=
  match local_file path with Some _ => true | None => false end.

Definition read_local_config (path : string) : outcome dict :=
  if isfile path then
    (text <- open_read "config.json" ;;
     loads text)%py
  else Raise RuntimeError.   (* a bare [raise] with no exception being handled *)

(** The second statement of [run_create]:
    [config = read_local_config(config_path) if config_path else DEFAULT_CONFIG]. *)
Definition run_create_config (config_path : option string) : M config_obj :=
  match config_path with
  | Some path =>
      if truthy config_path
      then (d <- lift (read_local_config path) ;; ret (fresh_object d))%io
      else ret DEFAULT_CONFIG_object
  | None => ret DEFAULT_CONFIG_object
  end.

(** [ContentFile.decoded_content] *)
Definition decoded_content (f : ContentFile) : list byte :=
  base64_b64decode (cf_content f).

Definition get_config (repo : Repo) (branch_pages : string) : M config_obj :=
  (files <- get_files repo ;;
   (if str_in_list "config.json" files then
      (config_file <- get_contents repo "config.json" branch_pages ;;
       try_except
         (f <- lift (as_file config_file) ;;
          text <- lift (decode_utf8 (decoded_content f)) ;;
          repo_config <- lift (loads text) ;;
          config <- read_DEFAULT_CONFIG ;;
          write_DEFAULT_CONFIG (dict_update config repo_config))
         is_ValueError
         (echo "WARNING: Unable to parse config file. Using defaults."))
    else ret tt) ;;;
   ret DEFAULT_CONFIG_object)%io.

Definition is_UnknownObjectException (e : exn) : bool :=
  match e with UnknownObjectException => true | _ => false end.

Definition run_update (gh : Github) (name : string) (org : option string)
    (branch_pages : string) : M (option bool) :=
  (echo "Generating.." ;;;
   repo <- get_repo gh name org ;;
   let issues := repo_issues repo in
   sha <- get_git_ref repo ("heads/" ++ branch_pages)%string ;;
   template_file <- get_contents repo "/template.html" sha ;;
   config <- get_config repo branch_pages ;;
   cfg <- read_config config ;;
   system_color <- lift (getitem cfg "system-color") ;;
   status_labels <- lift (getitem cfg "status-labels") ;;
   systems <- lift (get_systems (repo_labels repo) issues system_color status_labels) ;;
   incidents <- lift (get_incidents markdown2_markdown (repo_collaborators repo) issues
                        system_color status_labels) ;;
   let panels := get_panels systems in
   tf <- lift (as_file template_file) ;;
   template <- lift (decode_utf8 (decoded_content tf)) ;;
   let content := Template_render template systems incidents panels cfg in
   try_except
     (index <- get_contents repo "/index.html" sha ;;
      idx <- lift (as_file index) ;;
      same <- lift (is_same_content PY3 hashlib_sha1_hexdigest (Str content)
                      (Bytes (base64_b64decode (cf_content idx)))) ;;
      if same then
        (echo "Local status matches remote status, no need to commit." ;;;
         ret (Some false))
      else
        (update_file repo "index.html" (cf_sha idx) "update index" content "gh-pages" ;;;
         ret None))
     is_UnknownObjectException
     (create_file repo "index.html" "initial" content "gh-pages" ;;; ret None))%io.

(** The body of the loop of [run_upgrade]. *)
Definition upgrade_template (repo : Repo) (files : list string)
    (head_sha branch_pages : string) (template : json) : M unit :=
  (t <- lift (match template with JStr t => Ok t | _ => Raise TypeError end) ;;
   content <- lift (open_template (path_join (path_join ROOT "template") t)) ;;
   if str_in_list t files then
     (c <- get_contents repo ("/" ++ t)%string head_sha ;;
      repo_template <- lift (as_file c) ;;
      same <- lift (is_same_content PY3 hashlib_sha1_hexdigest (Str content)
                      (Bytes (base64_b64decode (cf_content repo_template)))) ;;
      if negb same
      then update_file repo t (cf_sha repo_template) "upgrade" content branch_pages
      else ret tt)
   else create_file repo t "upgrade" content branch_pages)%io.

Definition run_upgrade (gh : Github) (name : string) (org : option string)
    (branch_pages : string) : M unit :=
  (echo "Upgrading..." ;;;
   repo <- get_repo gh name org ;;
   files <- get_files repo ;;
   head_sha <- get_git_ref repo ("heads/" ++ branch_pages)%string ;;
   defaults <- read_DEFAULT_CONFIG ;;
   templates <- lift (getitem defaults "templates") ;;
   items <- lift (py_iter templates) ;;
   for_each items (upgrade_template repo files head_sha branch_pages))%io.
End Program.

(** ** Reference definitions for the statements *)

(** The elements of a list, each kept at its first occurrence. *)
Fixpoint uniq_first {A : Type} (eqb : A -> A -> bool) (l : list A) : list A :=
  match l with
  | [] => []
  | x :: rest => x :: filter (fun y => negb (eqb x y)) (uniq_first eqb rest)
  end.

Definition status_of (item : string * SystemData) : option string :=
  status (snd item).

Definition is_operational (st : option string) : bool :=
  status_eqb st (Some "operational").

(** The statuses other than "operational", in the order the systems first
    show them. *)
Definition affected_statuses (systems : Systems) : list (option string) :=
  uniq_first status_eqb
    (filter (fun st => negb (is_operational st)) (map status_of systems)).

(** The names of the systems with a given status, in the order of the
    mapping. *)
Definition systems_with_status (st : option string) (systems : Systems) : list string :=
  map fst (filter (fun item => status_eqb (status_of item) st) systems).

Definition panels_spec (systems : Systems) : Panels :=
  map (fun st => (st, systems_with_status st systems)) (affected_statuses systems).

(** The severity of an issue as the specification words it: the first label
    name that is a key of the status labels. *)
Definition first_severity (status_names : list string) (labels : list Label) : option string :=
  option_map label_name (find (fun l => str_in_list (label_name l) status_names) labels).

Definition has_system_label (system_color : json) (issue : Issue) : bool :=
  existsb (fun l => py_eq_str (label_color l) system_color) (issue_labels issue).

Definition has_severity_label (status_names : list string) (issue : Issue) : bool :=
  existsb (fun l => str_in_list (label_name l) status_names) (issue_labels issue).

(** The issues that become incidents, as the specification words it: some
    system label, a severity label or the state closed, and an author among
    the collaborators. *)
Definition is_incident (collaborators : list string) (system_color : json)
    (status_names : list string) (issue : Issue) : bool :=
  has_system_label system_color issue
  && (has_severity_label status_names issue || String.eqb (issue_state issue) "closed")
  && str_in_list (issue_user_login issue) collaborators.

(** The issue has a description. *)
Definition has_description (issue : Issue) : bool :=
  match issue_body issue with Some _ => true | None => false end.

(** The description of an issue, the empty text standing for none. *)
Definition description (issue : Issue) : string :=
  match issue_body issue with Some text => text | None => EmptyString end.

(** The incident of an issue, as the specification words it: the issue's
    time and title, its systems in ascending order, its severity, whether it
    is closed, its description converted from Markdown, and the comments of
    collaborators. *)
Definition incident_of (markdown : string -> string) (collaborators : list string)
    (system_color : json) (status_names : list string) (issue : Issue) : Incident :=
  {| incident_created := issue_created_at issue;
     incident_title := issue_title issue;
     incident_systems := sorted String.leb (iter_systems (issue_labels issue) system_color);
     incident_severity := first_severity status_names (issue_labels issue);
     incident_closed := String.eqb (issue_state issue) "closed";
     incident_body := markdown (description issue);
     incident_updates := collect_updates markdown collaborators (issue_comments issue) |}.

Definition created_at_is (t : Z) (i : Incident) : bool :=
  (incident_created i =? t)%Z.

(** Newest first. *)
Definition not_older (a b : Incident) : Prop :=
  (incident_created b <= incident_created a)%Z.

(** ** Example inputs *)

Definition system_color_example : json := JStr "171717".

Definition status_labels_example : list (string * json) :=
  [ ("investigating", JStr "1192FC");
    ("degraded performance", JStr "FFA500");
    ("major outage", JStr "FF4D4D") ].

Definition system_label (name : string) : Label := mkLabel name "171717".

Definition major_outage : Label := mkLabel "major outage" "FF4D4D".

Definition repo_labels_example : list Label :=
  [ system_label "Website"; system_label "API"; major_outage;
    mkLabel "investigating" "1192FC" ].

Definition issue_example (state : string) (labels : list Label) (author : string)
    (created_at : Z) (title : string) : Issue :=
  mkIssue state labels author created_at title (Some "text") [].

Definition systems_example : Systems :=
  [ ("A", mkSystemData (Some "major outage"));
    ("B", mkSystemData (Some "operational"));
    ("C", mkSystemData (Some "major outage"));
    ("D", mkSystemData (Some "degraded performance")) ].

(** Six issues: closed without severity, open without severity, open with a
    severity, one by a stranger, one without a system label, and the newest,
    open with a severity. *)
Definition issues_example : list Issue :=
  [ issue_example "closed" [system_label "API"] "alice" 5 "closed, no severity";
    issue_example "open" [system_label "API"] "alice" 6 "open, no severity";
    issue_example "open" [system_label "API"; major_outage] "alice" 5 "open outage";
    issue_example "open" [system_label "API"; major_outage] "mallory" 9 "not a collaborator";
    issue_example "closed" [major_outage] "alice" 7 "no system";
    issue_example "open" [major_outage; system_label "Website"; system_label "API"]
      "alice" 9 "newest" ].

(** An open outage of API, reported by a collaborator, without description. *)
Definition undescribed_outage : Issue :=
  mkIssue "open" [system_label "API"; major_outage] "alice" 7 "no description" None [].

(** The statement on the incidents as the specification words it: an
    incident for each issue with a system label, with a severity label or
    closed, and written by a collaborator; the incidents newest first, those
    of one time in the order of the issues. *)
Definition incidents_as_stated (markdown : string -> string)
    (collaborators : list string) (issues : list Issue) (system_color : json)
    (members : list (string * json)) : Prop :=
  let built :=
    map (incident_of markdown collaborators system_color (map fst members))
      (filter (is_incident collaborators system_color (map fst members)) issues) in
  exists incidents,
    get_incidents markdown collaborators issues system_color (JObj members)
    = Ok incidents
    /\ Permutation incidents built
    /\ StronglySorted not_older incidents
    /\ forall t, filter (created_at_is t) incidents = filter (created_at_is t) built.

(** A text that is one lone surrogate, U+D800. *)
Definition lone_surrogate_example : string :=
  string_of_list_byte ["237"%byte; "160"%byte; "128"%byte].

(** The UTF-8 bytes of an e with an acute accent. *)
Definition accented_bytes_example : list byte := ["195"%byte; "169"%byte].

(** The statement on equal arguments as the specification words it. *)
Definition reflexive_as_stated (PY3 : bool) (hexdigest : list byte -> string) : Prop :=
  forall x, is_same_content PY3 hexdigest x x = Ok true.

(** An open issue carrying the label of system [k]. *)
Definition carries (system_color : json) (k : string) (issue : Issue) : bool :=
  String.eqb (issue_state issue) "open"
  && str_in_list k (iter_systems (issue_labels issue) system_color).

(** The last issue, in the order of iteration, that is open and carries
    the label of system [k]. *)
Fixpoint last_writer (system_color : json) (k : string) (issues : list Issue)
  : option Issue :=
  match issues with
  | [] => None
  | issue :: rest =>
      match last_writer system_color k rest with
      | Some later => Some later
      | None => if carries system_color k issue then Some issue else None
      end
  end.

(** The status the last write leaves for system [k]. *)
Definition final_status (system_color : json) (status_names : list string)
    (issues : list Issue) (k : string) : option string :=
  match last_writer system_color k issues with
  | Some issue => first_severity status_names (issue_labels issue)
  | None => Some "operational"
  end.

Definition operational : SystemData := mkSystemData (Some "operational").

Definition open_without_severity : Issue :=
  issue_example "open" [system_label "API"] "alice" 6 "open, no severity".

Definition open_outage : Issue :=
  issue_example "open" [system_label "API"; major_outage] "alice" 5 "open outage".

Definition open_unknown_system : Issue :=
  issue_example "open" [system_label "Database"; major_outage] "alice" 8 "unknown system".

Definition open_unknown_without_severity : Issue :=
  issue_example "open" [system_label "Database"] "alice" 8 "unknown, no severity".

Definition closed_outage : Issue :=
  issue_example "closed" [system_label "API"; major_outage] "alice" 9 "over".

(** The statement on the status [None] as the specification words it: for
    every open issue with a label of the system colour and no severity
    label, the mapping [get_systems] returns has [None] for each of the
    issue's systems. *)
Definition records_None_as_stated (repo_labels : list Label) (issues : list Issue)
    (system_color status_labels : json) : Prop :=
  forall issue,
    In issue issues ->
    issue_state issue = "open" ->
    iter_systems (issue_labels issue) system_color <> [] ->
    get_severity (issue_labels issue) status_labels = Ok None ->
    exists final,
      get_systems repo_labels issues system_color status_labels = Ok final
      /\ forall s, In s (iter_systems (issue_labels issue) system_color) ->
                   od_get String.eqb s final = Some (mkSystemData None).

(** Local files: a custom configuration next to a [config.json]. *)
Definition local_files_example (path : string) : option string :=
  if String.eqb path "custom.json" then Some "custom text"
  else if String.eqb path "config.json" then Some "default text"
  else None.

(** Local files: a custom configuration and no [config.json]. *)
Definition local_custom_only (path : string) : option string :=
  if String.eqb path "custom.json" then Some "custom text" else None.

(** ** Reasoning about the log *)

(** [m] adds to the log only events that satisfy [P], and a value it returns
    satisfies [Q]. *)
Definition logs_only {A : Type} (P : event -> Prop) (m : M A) (Q : A -> Prop) : Prop :=
  forall st,
    Forall P (log st) ->
    Forall P (log (snd (m st)))
    /\ match fst (m st) with
       | Ok a => Q a
       | Raise _ => True
       end.

(** The calls [run_update] may make on a repository, for the pages branch it
    is given: the references it reads belong to that branch, except for the
    listing, and what it writes is [index.html] on "gh-pages". *)
Definition update_event_ok (repo : Repo) (branch_pages : string) (ev : event) : Prop :=
  match ev with
  | Echo _ => True
  | GetGitRef ref => ref = ("heads/" ++ branch_pages)%string
  | GetContents path ref =>
      (path = "/" /\ ref = "gh-pages")
      \/ (path = "config.json" /\ ref = branch_pages)
      \/ ((path = "/template.html" \/ path = "/index.html")
          /\ repo_git_ref repo ("heads/" ++ branch_pages)%string = Ok ref)
  | UpdateFile path _ _ _ branch => path = "index.html" /\ branch = "gh-pages"
  | CreateFile path _ _ branch => path = "index.html" /\ branch = "gh-pages"
  end.

(** ** Example repositories and libraries *)

(** Stand-ins for the libraries: the digest and the Base64 decoding keep the
    bytes, the Markdown converter keeps the text, the template engine gives
    back the template, and one text is a JSON document. *)
Definition hexdigest_example (b : list byte) : string := string_of_list_byte b.

Definition b64decode_example (s : string) : list byte := list_byte_of_string s.

Definition remote_config_example : dict :=
  [ ("title", JStr "Custom"); ("templates", JList [JStr "custom.html"]) ].

Definition json_loads_example (text : string) : option dict :=
  if String.eqb text "custom config" then Some remote_config_example else None.

Definition markdown_example (text : string) : string := text.

Definition render_example (template : string) (systems : Systems)
    (incidents : list Incident) (panels : Panels) (config : dict) : string :=
  template.

Definition template_file_example : ContentFile :=
  mkContentFile "template.html" "sha-template" "new page".

Definition index_file_example : ContentFile :=
  mkContentFile "index.html" "sha-index" "old page".

Definition config_file_example : ContentFile :=
  mkContentFile "config.json" "sha-config" "custom config".

Definition broken_config_file_example : ContentFile :=
  mkContentFile "config.json" "sha-broken" "not json".

Definition lookup_ref (refs : list (string * string)) (ref : string) : outcome string :=
  match od_get String.eqb ref refs with
  | Some sha => Ok sha
  | None => Raise UnknownObjectException
  end.

Definition lookup_contents (table : list (string * string * contents))
    (path ref : string) : outcome contents :=
  match find (fun e => String.eqb (fst (fst e)) path && String.eqb (snd (fst e)) ref) table with
  | Some e => Ok (snd e)
  | None => Raise UnknownObjectException
  end.

(** A repository with the example labels, one open issue, these branches and
    these files, on which every write succeeds. *)
Definition repo_with (refs : list (string * string))
    (table : list (string * string * contents)) : Repo :=
  mkRepo repo_labels_example [open_outage] ["alice"]
    (lookup_ref refs) (lookup_contents table)
    (fun _ _ _ _ _ => Ok tt) (fun _ _ _ _ => Ok tt).

(** The pages are on the branch "pages", with a [config.json]; an older
    "gh-pages" branch has none. *)
Definition repo_pages_example : Repo :=
  repo_with
    [ ("heads/pages", "sha-pages"); ("heads/gh-pages", "sha-gh-pages") ]
    [ ("/", "gh-pages", Dir [template_file_example; index_file_example]);
      ("/", "pages", Dir [template_file_example; config_file_example; index_file_example]);
      ("config.json", "pages", File config_file_example);
      ("/template.html", "sha-pages", File template_file_example);
      ("/index.html", "sha-pages", File index_file_example) ].

(** The pages are on the branch "pages" and there is no "gh-pages" branch. *)
Definition repo_pages_only_example : Repo :=
  repo_with
    [ ("heads/pages", "sha-pages") ]
    [ ("/", "pages", Dir [template_file_example; config_file_example; index_file_example]);
      ("config.json", "pages", File config_file_example);
      ("/template.html", "sha-pages", File template_file_example);
      ("/index.html", "sha-pages", File index_file_example) ].

(** The pages are on the branch "pages", with a [config.json], and the
    listing of "gh-pages" shows a [config.json] too. *)
Definition repo_listed_example : Repo :=
  repo_with
    [ ("heads/pages", "sha-pages"); ("heads/gh-pages", "sha-gh-pages") ]
    [ ("/", "gh-pages", Dir [template_file_example; config_file_example; index_file_example]);
      ("config.json", "pages", File config_file_example);
      ("/template.html", "sha-pages", File template_file_example);
      ("/index.html", "sha-pages", File index_file_example) ].

(** The default set-up: "gh-pages" with a [config.json]. *)
Definition repo_configured_example : Repo :=
  repo_with
    [ ("heads/gh-pages", "sha-gh-pages") ]
    [ ("/", "gh-pages", Dir [template_file_example; config_file_example]);
      ("config.json", "gh-pages", File config_file_example);
      ("/template.html", "sha-gh-pages", File template_file_example) ].

(** "gh-pages" without a [config.json]. *)
Definition repo_plain_example : Repo :=
  repo_with
    [ ("heads/gh-pages", "sha-gh-pages") ]
    [ ("/", "gh-pages", Dir [template_file_example]);
      ("/template.html", "sha-gh-pages", File template_file_example) ].

(** "gh-pages" with a [config.json] that is not JSON. *)
Definition repo_broken_example : Repo :=
  repo_with
    [ ("heads/gh-pages", "sha-gh-pages") ]
    [ ("/", "gh-pages", Dir [template_file_example; broken_config_file_example]);
      ("config.json", "gh-pages", File broken_config_file_example);
      ("/template.html", "sha-gh-pages", File template_file_example) ].

Definition github_example (repo : Repo) : Github :=
  mkGithub (fun _ _ => Ok repo) (fun _ => Ok repo).

(** The template files of the installed package. *)
Definition package_files_example (path : string) : option string :=
  if String.eqb path "/pkg/template/custom.html" then Some "custom template"
  else if String.eqb path "/pkg/template/template.html" then Some "new page"
  else None.

(** ** The commands [add_system] and [remove_system] *)

(** [isinstance(e, GithubException) and e.status == 422]; an
    [UnknownObjectException] is a [GithubException] of status 404. *)
Definition is_GithubException_422 (e : exn) : bool :=
  match e with
  | GithubException status => (status =? 422)%Z
  | _ => false
  end.

Section Commands.
Variable PY3 : bool.
Variable hashlib_sha1_hexdigest : list byte -> string.
Variable base64_b64decode : string -> list byte.
Variable json_loads : string -> option dict.
Variable markdown2_markdown : string -> string.
Variable Template_render : string -> Systems -> list Incident -> Panels -> dict -> string.
(** [str.strip] *)
Variable str_strip : string -> string.
(** [click.confirm]: the answer of the user. *)
Variable click_confirm : string -> bool.
(** [repo.create_label(name, color)], [repo.get_label(name)] and
    [label.delete()]: the labels are not part of [Repo], so a call that
    changes them answers with the client as it is after the call. *)
Variable create_label : Repo -> string -> json -> outcome Github.
Variable get_label : Repo -> string -> outcome Label.
Variable delete_label : Repo -> Label -> outcome Github.

Definition run_add_system (gh : Github) (name : string) (org : option string)
    (system : string) (prompt : bool) (branch_pages : string) : M unit :=
  (repo <- get_repo gh name org ;;
   config <- get_config base64_b64decode json_loads repo branch_pages ;;
   try_except
     (cfg <- read_config config ;;
      color <- lift (getitem cfg "system-color") ;;
      gh' <- lift (create_label repo (str_strip system) color) ;;
      echo ("Successfully added new system " ++ system)%string ;;;
      if prompt && click_confirm "Run update to re-generate the page?"
      then (_ <- run_update PY3 hashlib_sha1_hexdigest base64_b64decode json_loads
                   markdown2_markdown Template_render gh' name org branch_pages ;;
            ret tt)
      else ret tt)
     is_GithubException_422
     (echo ("Unable to add new system " ++ system ++ ", it already exists.")%string))%io.

Definition run_remove_system (gh : Github) (name : string) (org : option string)
    (system : string) (prompt : bool) (branch_pages : string) : M unit :=
  (repo <- get_repo gh name org ;;
   try_except
     (label <- lift (get_label repo (str_strip system)) ;;
      gh' <- lift (delete_label repo label) ;;
      echo ("Successfully deleted " ++ system)%string ;;;
      if prompt && click_confirm "Run update to re-generate the page?"
      then (_ <- run_update PY3 hashlib_sha1_hexdigest base64_b64decode json_loads
                   markdown2_markdown Template_render gh' name org branch_pages ;;
            ret tt)
      else ret tt)
     is_UnknownObjectException
     (echo ("Unable to remove system " ++ system ++ ", it does not exist.")%string))%io.
End Commands.

(** ** More reference definitions *)

(** A call that writes a file. *)
Definition is_write (ev : event) : bool :=
  match ev with
  | UpdateFile _ _ _ _ _ | CreateFile _ _ _ _ => true
  | _ => false
  end.

(** [m] adds the events [evs] to the log, and [R] relates them to its
    result. *)
Definition emits {A : Type} (m : M A) (R : outcome A -> list event -> Prop) : Prop :=
  forall st, exists evs, log (snd (m st)) = log st ++ evs /\ R (fst (m st)) evs.

(** Events none of which writes a file. *)
Definition no_write (evs : list event) : Prop :=
  forallb (fun ev => negb (is_write ev)) evs = true.

(** [m] writes no file. *)
Definition quiet {A : Type} (m : M A) : Prop :=
  emits m (fun _ evs => no_write evs).

(** The configuration that [get_config] finds to merge, if any: the
    [config.json] that the listing of "gh-pages" shows, fetched on the pages
    branch, decoded and parsed. *)
Definition remote_config (base64_b64decode : string -> list byte)
    (json_loads : string -> option dict) (repo : Repo) (branch_pages : string)
  : option dict :=
  match repo_get_contents repo "/" "gh-pages" with
  | Ok (Dir entries) =>
      if str_in_list "config.json" (map cf_path entries) then
        match repo_get_contents repo "config.json" branch_pages with
        | Ok (File f) =>
            match decode_utf8 (base64_b64decode (cf_content f)) with
            | Ok text => json_loads text
            | Raise _ => None
            end
        | _ => None
        end
      else None
  | _ => None
  end.

(** What [run_update] may leave at the end of the log: nothing, an update of
    [index.html], its creation, or an update followed by the creation, all
    with one content, on "gh-pages". *)
Definition update_writes (writes : list event) : Prop :=
  writes = []
  \/ exists sha content,
       writes = [UpdateFile "index.html" sha "update index" content "gh-pages"]
       \/ writes = [CreateFile "index.html" "initial" content "gh-pages"]
       \/ writes = [UpdateFile "index.html" sha "update index" content "gh-pages";
                    CreateFile "index.html" "initial" content "gh-pages"].

(** The result of [run_update] and the events it adds: reads, then writes;
    no write when it returns [False], a write when it returns [None]. *)
Definition update_shape (o : outcome (option bool)) (evs : list event) : Prop :=
  exists reads writes,
    evs = reads ++ writes
    /\ no_write reads
    /\ update_writes writes
    /\ (o = Ok (Some false) -> writes = [])
    /\ (o = Ok None -> writes <> []).

(** The calls [run_upgrade] may make: it reads the listing of "gh-pages" and
    the listed templates at the head of the pages branch, creates a template
    that is not listed, and updates one whose remote content differs; what it
    writes is the text of the local template, on the pages branch. *)
Definition upgrade_event_ok (PY3 : bool) (hashlib_sha1_hexdigest : list byte -> string)
    (base64_b64decode : string -> list byte) (local_file : string -> option string)
    (ROOT : string) (repo : Repo) (branch_pages : string) (ev : event) : Prop :=
  match ev with
  | Echo _ => True
  | GetGitRef ref => ref = ("heads/" ++ branch_pages)%string
  | GetContents path ref =>
      (path = "/" /\ ref = "gh-pages")
      \/ exists t entries,
           path = ("/" ++ t)%string
           /\ repo_git_ref repo ("heads/" ++ branch_pages)%string = Ok ref
           /\ repo_get_contents repo "/" "gh-pages" = Ok (Dir entries)
           /\ str_in_list t (map cf_path entries) = true
  | UpdateFile path sha message content branch =>
      message = "upgrade" /\ branch = branch_pages
      /\ local_file (path_join (path_join ROOT "template") path) = Some content
      /\ exists head f,
           repo_git_ref repo ("heads/" ++ branch_pages)%string = Ok head
           /\ repo_get_contents repo ("/" ++ path)%string head = Ok (File f)
           /\ sha = cf_sha f
           /\ is_same_content PY3 hashlib_sha1_hexdigest (Str content)
                (Bytes (base64_b64decode (cf_content f))) = Ok false
  | CreateFile path message content branch =>
      message = "upgrade" /\ branch = branch_pages
      /\ local_file (path_join (path_join ROOT "template") path) = Some content
      /\ exists entries,
           repo_get_contents repo "/" "gh-pages" = Ok (Dir entries)
           /\ str_in_list path (map cf_path entries) = false
  end.

(** ** More example inputs *)

(** An issue with three comments, the second by a stranger. *)
Definition commented_issue : Issue :=
  mkIssue "open" [system_label "Website"; system_label "API"; major_outage] "alice" 9
    "commented" (Some "text")
    [ mkComment "alice" 10 "first"; mkComment "mallory" 11 "second";
      mkComment "alice" 12 "third" ].

Definition commented_incident : Incident :=
  mkIncident 9 "commented" ["API"; "Website"] (Some "major outage") false "text"
    [ mkUpdate 10 "first"; mkUpdate 12 "third" ].

(** "gh-pages" whose [index.html] already holds the page. *)
Definition repo_unchanged_example : Repo :=
  repo_with
    [ ("heads/gh-pages", "sha-gh-pages") ]
    [ ("/", "gh-pages", Dir [template_file_example]);
      ("/template.html", "sha-gh-pages", File template_file_example);
      ("/index.html", "sha-gh-pages", File (mkContentFile "index.html" "sha-index" "new page")) ].

(** A repository without any branch. *)
Definition repo_without_branch_example : Repo := repo_with [] [].

(** A repository that refuses the update of a file with status 422. *)
Definition repo_refusing_example : Repo :=
  mkRepo repo_labels_example [open_outage] ["alice"]
    (lookup_ref [ ("heads/gh-pages", "sha-gh-pages") ])
    (lookup_contents
       [ ("/", "gh-pages", Dir [template_file_example]);
         ("/template.html", "sha-gh-pages", File template_file_example);
         ("/index.html", "sha-gh-pages", File index_file_example) ])
    (fun _ _ _ _ _ => Raise (GithubException 422)) (fun _ _ _ _ => Ok tt).

(** A remote template that differs from the local one, on the branch "pages"
    of a repository whose "gh-pages" lists it. *)
Definition repo_outdated_example : Repo :=
  repo_with
    [ ("heads/pages", "sha-pages") ]
    [ ("/", "gh-pages", Dir [mkContentFile "template.html" "sha-old" "old page"]);
      ("/template.html", "sha-pages",
        File (mkContentFile "template.html" "sha-old" "old page")) ].

Definition two_templates_state : pystate :=
  mkState [ ("templates", JList [JStr "template.html"; JStr "custom.html"]) ] [].

Definition strip_example (s : string) : string := s.

Definition confirm_example (question : string) : bool := true.

(** The label API exists already; another label is created. *)
Definition create_label_example (repo : Repo) (name : string) (color : json)
  : outcome Github :=
  if String.eqb name "API" then Raise (GithubException 422)
  else Ok (github_example repo_refusing_example).

Definition get_label_example (repo : Repo) (name : string) : outcome Label :=
  Ok (system_label name).

(** After the label is deleted the client answers for a repository without
    the pages branch. *)
Definition delete_label_example (repo : Repo) (label : Label) : outcome Github :=
  Ok (github_example repo_without_branch_example).

(** * Properties *)

(** ** Ordered dictionaries and first occurrences *)

Lemma status_eqb_eq (a b : option string) : status_eqb a b = true <-> a = b.
Proof.
  destruct a as [x|], b as [y|]; simpl; try (split; congruence).
  rewrite String.eqb_eq. split; congruence.
Qed.

Lemma status_eqb_refl (a : option string) : status_eqb a a = true.
Proof. now apply status_eqb_eq. Qed.

Section KeyedLists.
Context {K : Type}.
Variable eqb : K -> K -> bool.
Hypothesis eqb_eq : forall a b, eqb a b = true <-> a = b.

Lemma eqb_same (a : K) : eqb a a = true.
Proof. now apply eqb_eq. Qed.

Lemma existsb_eqb_In (k : K) (l : list K) : existsb (eqb k) l = true <-> In k l.
Proof.
  rewrite existsb_exists. split.
  - intros (x & Hx & E). apply eqb_eq in E. now subst.
  - intros H. exists k. split; [assumption | apply eqb_same].
Qed.

Lemma uniq_first_snoc (l : list K) (s : K) :
  uniq_first eqb (l ++ [s]) =
  if existsb (eqb s) l then uniq_first eqb l else uniq_first eqb l ++ [s].
Proof.
  induction l as [|x r IH]; simpl.
  - reflexivity.
  - rewrite IH. destruct (eqb s x) eqn:E; simpl.
    + apply eqb_eq in E. subst x.
      destruct (existsb (eqb s) r); [reflexivity|].
      rewrite filter_app. simpl. rewrite eqb_same. simpl.
      now rewrite app_nil_r.
    + destruct (existsb (eqb s) r); [reflexivity|].
      rewrite filter_app. simpl.
      destruct (eqb x s) eqn:E'.
      * apply eqb_eq in E'. subst x. rewrite eqb_same in E. discriminate.
      * reflexivity.
Qed.

Lemma uniq_first_In (l : list K) (k : K) : In k (uniq_first eqb l) <-> In k l.
Proof.
  induction l as [|x r IH]; simpl; [tauto|].
  rewrite filter_In, IH. split.
  - tauto.
  - intros [E | H]; [now left|].
    destruct (eqb x k) eqn:E'.
    + left. now apply eqb_eq.
    + right. split; [assumption | reflexivity].
Qed.

Lemma uniq_first_NoDup (l : list K) : NoDup (uniq_first eqb l).
Proof.
  induction l as [|x r IH]; simpl; constructor.
  - rewrite filter_In. intros [_ H]. now rewrite eqb_same in H.
  - now apply NoDup_filter.
Qed.

Context {V : Type}.

Lemma od_get_tabulate (f : K -> V) (k : K) (ks : list K) :
  od_get eqb k (map (fun x => (x, f x)) ks) =
  if existsb (eqb k) ks then Some (f k) else None.
Proof.
  induction ks as [|x r IH]; simpl; [reflexivity|].
  destruct (eqb k x) eqn:E; simpl; [|exact IH].
  apply eqb_eq in E. now subst.
Qed.

Lemma od_set_tabulate_new (f : K -> V) (k : K) (v : V) (ks : list K) :
  existsb (eqb k) ks = false ->
  od_set eqb k v (map (fun x => (x, f x)) ks) = map (fun x => (x, f x)) ks ++ [(k, v)].
Proof.
  induction ks as [|x r IH]; simpl; [reflexivity|].
  intros H. apply orb_false_iff in H. destruct H as [E H].
  rewrite E. now rewrite IH.
Qed.

Lemma od_set_tabulate_old (f : K -> V) (k : K) (v : V) (ks : list K) :
  NoDup ks -> In k ks ->
  od_set eqb k v (map (fun x => (x, f x)) ks) =
  map (fun x => (x, if eqb k x then v else f x)) ks.
Proof.
  induction 1 as [|x r Hx Hr IH]; simpl; [tauto|].
  intros Hin. destruct (eqb k x) eqn:E.
  - apply eqb_eq in E. subst x. f_equal.
    apply map_ext_in. intros y Hy.
    destruct (eqb k y) eqn:E'; [|reflexivity].
    apply eqb_eq in E'. now subst.
  - f_equal. apply IH. destruct Hin as [->|Hin]; [|assumption].
    rewrite eqb_same in E. discriminate.
Qed.
End KeyedLists.

(** ** [get_panels] *)

Lemma systems_with_status_snoc (st : option string) (l : Systems) (x : string * SystemData) :
  systems_with_status st (l ++ [x]) =
  systems_with_status st l ++ (if status_eqb (status_of x) st then [fst x] else []).
Proof.
  unfold systems_with_status. rewrite filter_app, map_app. simpl.
  now destruct (status_eqb (status_of x) st).
Qed.

Lemma affected_statuses_snoc (l : Systems) (x : string * SystemData) :
  affected_statuses (l ++ [x]) =
  if is_operational (status_of x) then affected_statuses l
  else if existsb (status_eqb (status_of x)) (affected_statuses l)
       then affected_statuses l
       else affected_statuses l ++ [status_of x].
Proof.
  unfold affected_statuses. rewrite map_app, filter_app. simpl.
  destruct (is_operational (status_of x)); simpl.
  - now rewrite app_nil_r.
  - rewrite (uniq_first_snoc status_eqb status_eqb_eq).
    set (sts := filter _ (map status_of l)).
    assert (E : existsb (status_eqb (status_of x)) (uniq_first status_eqb sts)
                = existsb (status_eqb (status_of x)) sts).
    { apply eq_true_iff_eq.
      rewrite !(existsb_eqb_In status_eqb status_eqb_eq).
      apply (uniq_first_In status_eqb status_eqb_eq). }
    now rewrite E.
Qed.

Lemma In_affected_statuses (st : option string) (l : Systems) :
  In st (affected_statuses l) <->
  is_operational st = false /\ In st (map status_of l).
Proof.
  unfold affected_statuses.
  rewrite (uniq_first_In status_eqb status_eqb_eq), filter_In, negb_true_iff.
  tauto.
Qed.

Lemma systems_with_status_absent (st : option string) (l : Systems) :
  is_operational st = false ->
  existsb (status_eqb st) (affected_statuses l) = false ->
  systems_with_status st l = [].
Proof.
  intros Hop Hex.
  assert (Hnot : ~ In st (map status_of l)).
  { intros H. apply not_true_iff_false in Hex. apply Hex.
    apply (existsb_eqb_In status_eqb status_eqb_eq).
    apply In_affected_statuses. now split. }
  clear Hex. unfold systems_with_status.
  induction l as [|y r IH]; simpl; [reflexivity|].
  destruct (status_eqb (status_of y) st) eqn:E.
  - exfalso. apply Hnot. left. now apply status_eqb_eq.
  - apply IH. intros H. apply Hnot. now right.
Qed.

Lemma get_panels_step_spec (l : Systems) (x : string * SystemData) :
  get_panels_step (panels_spec l) x = panels_spec (l ++ [x]).
Proof.
  destruct x as [system data]. unfold get_panels_step, panels_spec.
  rewrite affected_statuses_snoc. unfold status_of at 1 2 3. simpl snd.
  fold (is_operational (status data)).
  destruct (is_operational (status data)) eqn:Hop; simpl negb; cbv iota.
  - apply map_ext_in. intros st Hst.
    rewrite systems_with_status_snoc. unfold status_of. simpl.
    destruct (status_eqb (status data) st) eqn:E; [|now rewrite app_nil_r].
    exfalso. apply status_eqb_eq in E. subst st.
    apply In_affected_statuses in Hst. destruct Hst as [Hst _]. congruence.
  - rewrite (od_get_tabulate status_eqb status_eqb_eq).
    destruct (existsb (status_eqb (status data)) (affected_statuses l)) eqn:Hex.
    + rewrite (od_set_tabulate_old status_eqb status_eqb_eq).
      * apply map_ext. intros st. rewrite systems_with_status_snoc.
        unfold status_of. simpl.
        destruct (status_eqb (status data) st) eqn:E; [|now rewrite app_nil_r].
        apply status_eqb_eq in E. now subst.
      * apply (uniq_first_NoDup status_eqb status_eqb_eq).
      * now apply (existsb_eqb_In status_eqb status_eqb_eq).
    + rewrite (od_set_tabulate_new status_eqb); [|assumption].
      rewrite map_app. simpl. f_equal.
      * apply map_ext_in. intros st Hst. rewrite systems_with_status_snoc.
        unfold status_of. simpl.
        destruct (status_eqb (status data) st) eqn:E; [|now rewrite app_nil_r].
        apply status_eqb_eq in E. subst st.
        apply (existsb_eqb_In status_eqb status_eqb_eq) in Hst. congruence.
      * rewrite systems_with_status_snoc. unfold status_of. simpl.
        rewrite status_eqb_refl.
        now rewrite (systems_with_status_absent _ _ Hop Hex).
Qed.

Lemma get_panels_from (l1 l2 : Systems) :
  fold_left get_panels_step l2 (panels_spec l1) = panels_spec (l1 ++ l2).
Proof.
  revert l1. induction l2 as [|x r IH]; intros l1; simpl.
  - now rewrite app_nil_r.
  - rewrite get_panels_step_spec, IH. now rewrite <- app_assoc.
Qed.

(** ** [sorted] and [sorted(..., reverse=True)] *)

Section SortedFacts.
Context {A : Type}.
Variable leb : A -> A -> bool.
Hypothesis leb_total : forall a b, leb a b = true \/ leb b a = true.
Hypothesis leb_trans : forall a b c, leb a b = true -> leb b c = true -> leb a c = true.

Let le (a b : A) : Prop := leb a b = true.

Lemma insert_sorted_perm (x : A) (l : list A) :
  Permutation (insert_sorted leb x l) (x :: l).
Proof.
  induction l as [|y t IH]; simpl; [reflexivity|].
  destruct (leb x y); [reflexivity|].
  rewrite IH. apply perm_swap.
Qed.

Lemma sorted_perm (l : list A) : Permutation (sorted leb l) l.
Proof.
  induction l as [|x t IH]; simpl; [reflexivity|].
  rewrite insert_sorted_perm. now constructor.
Qed.

Lemma insert_sorted_ordered (x : A) (l : list A) :
  StronglySorted le l -> StronglySorted le (insert_sorted leb x l).
Proof.
  induction 1 as [|y t Ht IH Hy]; simpl.
  - repeat constructor.
  - destruct (leb x y) eqn:Hxy.
    + constructor; [now constructor|].
      constructor; [exact Hxy|].
      rewrite Forall_forall in *. intros z Hz.
      exact (leb_trans _ _ _ Hxy (Hy z Hz)).
    + constructor; [exact IH|].
      rewrite Forall_forall in *. intros z Hz.
      apply (Permutation_in _ (insert_sorted_perm x t)) in Hz.
      destruct Hz as [<-|Hz]; [|now apply Hy].
      destruct (leb_total x y) as [H|H]; [congruence | exact H].
Qed.

Lemma sorted_ordered (l : list A) : StronglySorted le (sorted leb l).
Proof.
  induction l as [|x t IH]; simpl; [constructor|].
  now apply insert_sorted_ordered.
Qed.

(** Stability, for a class [p] of elements none of which is greater than
    another: they keep their order. *)
Section Stable.
Variable p : A -> bool.
Hypothesis p_tied : forall a b, p a = true -> p b = true -> leb a b = true.

Lemma insert_sorted_stable (x : A) (l : list A) :
  filter p (insert_sorted leb x l) = filter p (x :: l).
Proof.
  induction l as [|y r IH]; [reflexivity|].
  cbn [insert_sorted]. destruct (leb x y) eqn:Hxy; [reflexivity|].
  cbn [filter] in *. rewrite IH.
  destruct (p y) eqn:Hy, (p x) eqn:Hx; try reflexivity.
  rewrite (p_tied x y Hx Hy) in Hxy. discriminate.
Qed.

Lemma sorted_stable (l : list A) : filter p (sorted leb l) = filter p l.
Proof.
  induction l as [|x r IH]; [reflexivity|].
  cbn [sorted fold_right]. fold (sorted leb r).
  rewrite insert_sorted_stable. cbn [filter]. now rewrite IH.
Qed.

Lemma sorted_reverse_stable (l : list A) :
  filter p (sorted_reverse leb l) = filter p l.
Proof.
  unfold sorted_reverse.
  now rewrite filter_rev, sorted_stable, filter_rev, rev_involutive.
Qed.
End Stable.

Lemma StronglySorted_snoc (R : A -> A -> Prop) (l : list A) (x : A) :
  StronglySorted R l -> Forall (fun y => R y x) l -> StronglySorted R (l ++ [x]).
Proof.
  induction 1 as [|y t Ht IH Hy]; intros Hx; simpl.
  - repeat constructor.
  - inversion Hx; subst. constructor; [now apply IH|].
    apply Forall_app. split; [assumption | now repeat constructor].
Qed.

Lemma StronglySorted_rev (R : A -> A -> Prop) (l : list A) :
  StronglySorted R l -> StronglySorted (fun a b => R b a) (rev l).
Proof.
  induction 1 as [|y t Ht IH Hy]; simpl; [constructor|].
  apply StronglySorted_snoc; [exact IH|].
  apply Forall_rev. exact Hy.
Qed.

Lemma sorted_reverse_perm (l : list A) : Permutation (sorted_reverse leb l) l.
Proof.
  unfold sorted_reverse.
  rewrite <- Permutation_rev, sorted_perm. symmetry. apply Permutation_rev.
Qed.

Lemma sorted_reverse_ordered (l : list A) :
  StronglySorted (fun a b => le b a) (sorted_reverse leb l).
Proof. apply StronglySorted_rev, sorted_ordered. Qed.
End SortedFacts.

Lemma created_leb_total (a b : Incident) :
  created_leb a b = true \/ created_leb b a = true.
Proof. unfold created_leb. lia. Qed.

Lemma created_leb_trans (a b c : Incident) :
  created_leb a b = true -> created_leb b c = true -> created_leb a c = true.
Proof. unfold created_leb. lia. Qed.

Lemma created_at_is_tied (t : Z) (a b : Incident) :
  created_at_is t a = true -> created_at_is t b = true -> created_leb a b = true.
Proof. unfold created_at_is, created_leb. lia. Qed.

(** The order of strings. *)
Lemma string_leb_iff (a b : string) :
  String.leb a b = true <-> a = b \/ String_as_OT.lt a b.
Proof.
  unfold String.leb. fold (String_as_OT.cmp a b).
  destruct (String_as_OT.cmp a b) eqn:E.
  - apply String_as_OT.cmp_eq in E. tauto.
  - apply String_as_OT.cmp_lt in E. tauto.
  - split; [discriminate|]. intros [H|H].
    + apply String_as_OT.cmp_eq in H. congruence.
    + apply String_as_OT.cmp_lt in H. congruence.
Qed.

Lemma string_leb_trans (a b c : string) :
  String.leb a b = true -> String.leb b c = true -> String.leb a c = true.
Proof.
  rewrite !string_leb_iff. intros [->|H1] [->|H2]; auto.
  right. exact (String_as_OT.lt_trans _ _ _ H1 H2).
Qed.

(** ** [get_severity] and [iter_systems] against their specification *)

Lemma get_severity_dict (labels : list Label) (members : list (string * json)) :
  get_severity labels (JObj members) = Ok (first_severity (map fst members) labels).
Proof.
  unfold first_severity. induction labels as [|l r IH]; simpl; [reflexivity|].
  unfold str_in_list.
  destruct (existsb (String.eqb (label_name l)) (map fst members)); [reflexivity|].
  exact IH.
Qed.

Lemma first_severity_None (names : list string) (labels : list Label) :
  is_None (first_severity names labels)
  = negb (existsb (fun l => str_in_list (label_name l) names) labels).
Proof.
  unfold first_severity. induction labels as [|l r IH]; simpl; [reflexivity|].
  destruct (str_in_list (label_name l) names); simpl; [reflexivity | exact IH].
Qed.

Lemma iter_systems_empty (labels : list Label) (system_color : json) :
  is_empty (iter_systems labels system_color)
  = negb (existsb (fun l => py_eq_str (label_color l) system_color) labels).
Proof.
  induction labels as [|l r IH]; simpl; [reflexivity|].
  destruct (py_eq_str (label_color l) system_color); simpl; [reflexivity | exact IH].
Qed.

Lemma sorted_is_empty {A : Type} (leb : A -> A -> bool) (l : list A) :
  is_empty (sorted leb l) = is_empty l.
Proof.
  destruct l as [|x r]; [reflexivity|]. simpl.
  now destruct (sorted leb r) as [|y t]; simpl; [|destruct (leb x y)].
Qed.

(** ** [get_incidents] *)

Section IncidentFacts.
Variable markdown2_markdown : string -> string.

Lemma make_incident_spec (collaborators : list string) (system_color : json)
    (status_names : list string) (issue : Issue) :
  make_incident markdown2_markdown collaborators issue
    (sorted String.leb (iter_systems (issue_labels issue) system_color))
    (first_severity status_names (issue_labels issue))
  = if has_description issue
    then Ok (incident_of markdown2_markdown collaborators system_color status_names issue)
    else Raise TypeError.
Proof.
  unfold make_incident, incident_of, has_description, description, markdown.
  now destruct (issue_body issue).
Qed.

(** With status labels that are a mapping the loop fails only on an issue
    without description among those it keeps, and otherwise adds their
    incidents in the order of the issues. *)
Lemma collect_incidents_spec (collaborators : list string) (system_color : json)
    (members : list (string * json)) (issues : list Issue) (incidents : list Incident) :
  let kept := filter (is_incident collaborators system_color (map fst members)) issues in
  collect_incidents markdown2_markdown collaborators system_color (JObj members) issues incidents
  = if forallb has_description kept
    then Ok (incidents ++
             map (incident_of markdown2_markdown collaborators system_color (map fst members))
               kept)
    else Raise TypeError.
Proof.
  assert (Hkept : forall incidents rest,
    (forall incidents',
        collect_incidents markdown2_markdown collaborators system_color (JObj members)
          rest incidents'
        = if forallb has_description
               (filter (is_incident collaborators system_color (map fst members)) rest)
          then Ok (incidents' ++
                   map (incident_of markdown2_markdown collaborators system_color
                          (map fst members))
                     (filter (is_incident collaborators system_color (map fst members))
                        rest))
          else Raise TypeError) ->
    forall issue,
      (incident <- make_incident markdown2_markdown collaborators issue
                     (sorted String.leb (iter_systems (issue_labels issue) system_color))
                     (first_severity (map fst members) (issue_labels issue)) ;;
       collect_incidents markdown2_markdown collaborators system_color (JObj members)
         rest (incidents ++ [incident]))%py
      = if forallb has_description
             (issue :: filter (is_incident collaborators system_color (map fst members))
                         rest)
        then Ok (incidents ++
                 map (incident_of markdown2_markdown collaborators system_color
                        (map fst members))
                   (issue :: filter (is_incident collaborators system_color
                                       (map fst members)) rest))
        else Raise TypeError).
  { intros acc rest IH issue. rewrite make_incident_spec. cbn [forallb map].
    destruct (has_description issue); cbn [bind andb]; [|reflexivity].
    rewrite IH. now rewrite <- app_assoc. }
  intros kept. subst kept. revert incidents.
  induction issues as [|issue rest IH]; intros incidents.
  - simpl. now rewrite app_nil_r.
  - cbn [collect_incidents]. rewrite get_severity_dict. cbn [bind].
    rewrite sorted_is_empty, iter_systems_empty, first_severity_None.
    cbn [filter].
    generalize (eq_refl (is_incident collaborators system_color (map fst members) issue)).
    unfold is_incident at 2. unfold has_system_label, has_severity_label.
    destruct (existsb (fun l => py_eq_str (label_color l) system_color) (issue_labels issue));
      cbn [negb orb andb]; [|intros ->; apply IH].
    destruct (existsb (fun l => str_in_list (label_name l) (map fst members)) (issue_labels issue));
      cbn [negb orb andb].
    + destruct (str_in_list (issue_user_login issue) collaborators);
        cbn [negb]; intros ->; [|apply IH].
      now apply Hkept.
    + destruct (String.eqb (issue_state issue) "closed");
        cbn [negb andb]; [|intros ->; apply IH].
      destruct (str_in_list (issue_user_login issue) collaborators);
        cbn [negb]; intros ->; [|apply IH].
      now apply Hkept.
Qed.
End IncidentFacts.

(** ** [get_systems] *)

Lemma od_get_In {V : Type} (k : string) (d : list (string * V)) :
  od_get String.eqb k d <> None <-> In k (map fst d).
Proof.
  induction d as [|[k' v] r IH]; simpl; [tauto|].
  destruct (String.eqb_spec k k') as [->|Hne].
  - split; [now left | discriminate].
  - rewrite IH. split; [now right|]. intros [E|H]; [congruence | assumption].
Qed.

Lemma od_set_keys {V : Type} (k : string) (v : V) (d : list (string * V)) :
  In k (map fst d) -> map fst (od_set String.eqb k v d) = map fst d.
Proof.
  induction d as [|[k' v'] r IH]; simpl; [tauto|].
  intros H. destruct (String.eqb_spec k k') as [->|Hne]; [reflexivity|].
  simpl. f_equal. apply IH. destruct H; [congruence | assumption].
Qed.

Lemma od_get_set {V : Type} (k k' : string) (v : V) (d : list (string * V)) :
  od_get String.eqb k (od_set String.eqb k' v d)
  = if String.eqb k k' then Some v else od_get String.eqb k d.
Proof.
  induction d as [|[k0 v0] r IH]; simpl.
  - now destruct (String.eqb k k').
  - destruct (String.eqb_spec k' k0) as [->|Hne]; simpl.
    + now destruct (String.eqb k k0).
    + rewrite IH. destruct (String.eqb_spec k k0) as [->|Hne'].
      * destruct (String.eqb_spec k0 k'); [congruence | reflexivity].
      * reflexivity.
Qed.

(** What [mark_affected] does: a [KeyError] at the first name that is not a
    key, and otherwise the severity written at each name. *)
Lemma mark_affected_spec (affected : list string) (severity : option string)
    (systems : Systems) :
  match mark_affected affected severity systems with
  | Ok systems' =>
      Forall (fun s => In s (map fst systems)) affected
      /\ map fst systems' = map fst systems
      /\ forall k, od_get String.eqb k systems'
                   = if str_in_list k affected then Some (mkSystemData severity)
                     else od_get String.eqb k systems
  | Raise e =>
      exists s, e = KeyError s /\ In s affected /\ ~ In s (map fst systems)
  end.
Proof.
  revert systems. induction affected as [|a r IH]; intros systems; simpl.
  - repeat split. constructor.
  - destruct (od_get String.eqb a systems) as [data|] eqn:Hget.
    + assert (Ha : In a (map fst systems)).
      { apply od_get_In. congruence. }
      specialize (IH (od_set String.eqb a (mkSystemData severity) systems)).
      rewrite (od_set_keys _ _ _ Ha) in IH.
      destruct (mark_affected r severity _) as [systems'|e].
      * destruct IH as (Hall & Hkeys & Hget').
        split; [now constructor|]. split; [assumption|].
        intros k. rewrite Hget', od_get_set. unfold str_in_list. simpl.
        destruct (existsb (String.eqb k) r); [now rewrite orb_true_r|].
        rewrite orb_false_r. reflexivity.
      * destruct IH as (s & -> & Hin & Hnot). exists s. auto.
    + exists a. repeat split; [now left|].
      intros H. apply od_get_In in H. congruence.
Qed.

Lemma mark_affected_keys (affected : list string) (severity : option string)
    (systems systems' : Systems) :
  mark_affected affected severity systems = Ok systems' ->
  map fst systems' = map fst systems.
Proof.
  intros H. pose proof (mark_affected_spec affected severity systems) as S.
  rewrite H in S. tauto.
Qed.

Lemma mark_issues_keys (system_color status_labels : json) (issues : list Issue)
    (systems final : Systems) :
  mark_issues system_color status_labels issues systems = Ok final ->
  map fst final = map fst systems.
Proof.
  revert systems. induction issues as [|issue rest IH]; intros systems; simpl.
  - intros [= ->]. reflexivity.
  - unfold mark_issue.
    destruct (String.eqb (issue_state issue) "open"); simpl; [|apply IH].
    destruct (get_severity (issue_labels issue) status_labels) as [severity|e];
      simpl; [|discriminate].
    destruct (mark_affected _ severity systems) as [systems'|e] eqn:E;
      simpl; [|discriminate].
    intros H. rewrite (IH _ H). exact (mark_affected_keys _ _ _ _ E).
Qed.

(** The body of the loop, for status labels that are a mapping. *)
Lemma mark_issue_spec (system_color : json) (members : list (string * json))
    (issue : Issue) (systems : Systems) :
  match mark_issue system_color (JObj members) issue systems with
  | Ok systems' =>
      (issue_state issue = "open" ->
       Forall (fun s => In s (map fst systems))
         (iter_systems (issue_labels issue) system_color))
      /\ map fst systems' = map fst systems
      /\ forall k, od_get String.eqb k systems'
                   = if carries system_color k issue
                     then Some (mkSystemData
                                  (first_severity (map fst members) (issue_labels issue)))
                     else od_get String.eqb k systems
  | Raise e =>
      issue_state issue = "open"
      /\ exists s, e = KeyError s
                   /\ In s (iter_systems (issue_labels issue) system_color)
                   /\ ~ In s (map fst systems)
  end.
Proof.
  unfold mark_issue, carries.
  destruct (String.eqb_spec (issue_state issue) "open") as [Hopen|Hclosed]; simpl.
  - rewrite get_severity_dict. simpl.
    pose proof (mark_affected_spec (iter_systems (issue_labels issue) system_color)
                  (first_severity (map fst members) (issue_labels issue)) systems) as S.
    destruct (mark_affected _ _ systems) as [systems'|e].
    + destruct S as (Hall & Hkeys & Hget). auto.
    + split; [assumption|]. destruct S as (s & -> & Hin & Hnot). exists s. auto.
  - split; [congruence|]. split; reflexivity.
Qed.

(** The loop over the issues: the last write wins. *)
Lemma mark_issues_spec (system_color : json) (members : list (string * json))
    (issues : list Issue) (systems : Systems) :
  match mark_issues system_color (JObj members) issues systems with
  | Ok final =>
      (forall issue, In issue issues -> issue_state issue = "open" ->
         Forall (fun s => In s (map fst systems))
           (iter_systems (issue_labels issue) system_color))
      /\ map fst final = map fst systems
      /\ forall k, od_get String.eqb k final
                   = match last_writer system_color k issues with
                     | Some issue =>
                         Some (mkSystemData
                                 (first_severity (map fst members) (issue_labels issue)))
                     | None => od_get String.eqb k systems
                     end
  | Raise e =>
      exists issue s,
        In issue issues /\ issue_state issue = "open"
        /\ In s (iter_systems (issue_labels issue) system_color)
        /\ ~ In s (map fst systems) /\ e = KeyError s
  end.
Proof.
  revert systems. induction issues as [|issue rest IH]; intros systems.
  - simpl. repeat split. intros ? [].
  - cbn [mark_issues].
    pose proof (mark_issue_spec system_color members issue systems) as S.
    destruct (mark_issue system_color (JObj members) issue systems) as [systems'|e];
      cbn [bind].
    + destruct S as (Hall & Hkeys & Hget).
      specialize (IH systems'). rewrite Hkeys in IH.
      destruct (mark_issues system_color (JObj members) rest systems') as [final|e].
      * destruct IH as (Hall' & Hkeys' & Hget'). split; [|split].
        -- intros i [<-|Hi]; [exact Hall | now apply Hall'].
        -- exact Hkeys'.
        -- intros k. rewrite Hget'. cbn [last_writer].
           destruct (last_writer system_color k rest); [reflexivity|].
           rewrite Hget. now destruct (carries system_color k issue).
      * destruct IH as (i & s & Hi & Hopen & Hs & Hnot & ->).
        exists i, s. repeat split; auto. now right.
    + destruct S as (Hopen & s & -> & Hs & Hnot).
      exists issue, s. repeat split; auto. now left.
Qed.

(** The seeding: one operational entry per name, in the order of the names. *)
Lemma seed_systems_from (done names : list string) :
  fold_left (fun systems name => od_set String.eqb name operational systems) names
    (map (fun n => (n, operational)) (uniq_first String.eqb done))
  = map (fun n => (n, operational)) (uniq_first String.eqb (done ++ names)).
Proof.
  revert done. induction names as [|n r IH]; intros done; simpl.
  - now rewrite app_nil_r.
  - replace (done ++ n :: r) with ((done ++ [n]) ++ r) by now rewrite <- app_assoc.
    rewrite <- IH. f_equal.
    rewrite (uniq_first_snoc String.eqb String.eqb_eq).
    destruct (existsb (String.eqb n) done) eqn:E.
    + rewrite (od_set_tabulate_old String.eqb String.eqb_eq).
      * apply map_ext. intros x.
        match goal with |- context [if ?b then _ else _] => now destruct b end.
      * apply (uniq_first_NoDup String.eqb String.eqb_eq).
      * apply (uniq_first_In String.eqb String.eqb_eq).
        now apply (existsb_eqb_In String.eqb String.eqb_eq).
    + rewrite (od_set_tabulate_new String.eqb); [now rewrite map_app|].
      apply not_true_iff_false. intros H. apply not_true_iff_false in E. apply E.
      apply (existsb_eqb_In String.eqb String.eqb_eq).
      apply (existsb_eqb_In String.eqb String.eqb_eq) in H.
      exact (proj1 (uniq_first_In String.eqb String.eqb_eq done n) H).
Qed.

Lemma seed_systems_spec (names : list string) :
  seed_systems names = map (fun n => (n, operational)) (uniq_first String.eqb names).
Proof. exact (seed_systems_from [] names). Qed.

Lemma seed_systems_keys (names : list string) :
  map fst (seed_systems names) = uniq_first String.eqb names.
Proof.
  rewrite seed_systems_spec, map_map. simpl. apply map_id.
Qed.

Lemma seed_systems_get (names : list string) (k : string) :
  od_get String.eqb k (seed_systems names)
  = if str_in_list k names then Some operational else None.
Proof.
  rewrite seed_systems_spec, (od_get_tabulate String.eqb String.eqb_eq).
  unfold str_in_list.
  replace (existsb (String.eqb k) (uniq_first String.eqb names))
    with (existsb (String.eqb k) names); [reflexivity|].
  apply eq_true_iff_eq.
  rewrite !(existsb_eqb_In String.eqb String.eqb_eq).
  symmetry. apply (uniq_first_In String.eqb String.eqb_eq).
Qed.

Lemma In_iter_systems (labels : list Label) (system_color : json) (s : string) :
  In s (iter_systems labels system_color) <->
  exists l, In l labels /\ py_eq_str (label_color l) system_color = true
            /\ label_name l = s.
Proof.
  induction labels as [|l r IH]; simpl.
  - split; [tauto | intros (l & [] & _)].
  - destruct (py_eq_str (label_color l) system_color) eqn:E; simpl; rewrite IH.
    + split.
      * intros [H|(l' & H1 & H2)]; [exists l; auto | exists l'; auto].
      * intros (l' & [->|H1] & H2 & H3); [now left | right; exists l'; auto].
    + split.
      * intros (l' & H1 & H2); exists l'; auto.
      * intros (l' & [->|H1] & H2 & H3); [congruence | exists l'; auto].
Qed.

Lemma In_sorted {A : Type} (leb : A -> A -> bool) (l : list A) (x : A) :
  In x (sorted leb l) <-> In x l.
Proof.
  split; apply Permutation_in; [|symmetry]; apply sorted_perm.
Qed.

Lemma od_tabulate_unique {V : Type} (f : string -> V) (d : list (string * V)) :
  NoDup (map fst d) ->
  (forall k, In k (map fst d) -> od_get String.eqb k d = Some (f k)) ->
  d = map (fun k => (k, f k)) (map fst d).
Proof.
  induction d as [|[k v] r IH]; simpl; [reflexivity|].
  intros Hnd Hget. inversion Hnd as [|? ? Hk Hr]; subst. f_equal.
  - specialize (Hget k (or_introl eq_refl)). rewrite String.eqb_refl in Hget.
    congruence.
  - apply IH; [assumption|]. intros k' Hk'.
    specialize (Hget k' (or_intror Hk')).
    destruct (String.eqb_spec k' k) as [E|Hne]; [|assumption].
    subst k'. contradiction.
Qed.

Lemma last_writer_app (system_color : json) (k : string) (before after : list Issue) :
  last_writer system_color k (before ++ after)
  = match last_writer system_color k after with
    | Some later => Some later
    | None => last_writer system_color k before
    end.
Proof.
  induction before as [|i r IH]; simpl.
  - now destruct (last_writer system_color k after).
  - rewrite IH. now destruct (last_writer system_color k after).
Qed.

Lemma last_writer_None (system_color : json) (k : string) (issues : list Issue) :
  (forall issue, In issue issues -> carries system_color k issue = false) ->
  last_writer system_color k issues = None.
Proof.
  induction issues as [|i r IH]; simpl; [reflexivity|].
  intros H. rewrite IH by auto. now rewrite (H i (or_introl eq_refl)).
Qed.

Lemma last_writer_Some (system_color : json) (k : string) (issues : list Issue)
    (issue : Issue) :
  last_writer system_color k issues = Some issue ->
  In issue issues /\ carries system_color k issue = true.
Proof.
  induction issues as [|i r IH]; simpl; [discriminate|].
  destruct (last_writer system_color k r) as [later|].
  - intros [= <-]. destruct (IH eq_refl). auto.
  - destruct (carries system_color k i) eqn:E; [|discriminate].
    intros [= <-]. auto.
Qed.

Lemma last_writer_exists (system_color : json) (k : string) (issues : list Issue) :
  last_writer system_color k issues = None <->
  forall issue, In issue issues -> carries system_color k issue = false.
Proof.
  split; [|apply last_writer_None].
  induction issues as [|i r IH]; simpl; [tauto|].
  destruct (last_writer system_color k r); [discriminate|].
  destruct (carries system_color k i) eqn:E; [discriminate|].
  intros _ issue [<-|H]; auto.
Qed.

Lemma first_severity_None_iff (names : list string) (issue : Issue) :
  first_severity names (issue_labels issue) = None <->
  has_severity_label names issue = false.
Proof.
  unfold has_severity_label.
  pose proof (first_severity_None names (issue_labels issue)) as H.
  destruct (first_severity names (issue_labels issue));
    destruct (existsb _ (issue_labels issue)); simpl in H;
    split; congruence.
Qed.

Lemma seeded_keys (repo_labels : list Label) (system_color : json) (s : string) :
  In s (map fst (seed_systems (sorted String.leb (iter_systems repo_labels system_color))))
  <-> In s (iter_systems repo_labels system_color).
Proof.
  rewrite seed_systems_keys, (uniq_first_In String.eqb String.eqb_eq).
  apply In_sorted.
Qed.

Lemma StronglySorted_filter {A : Type} (R : A -> A -> Prop) (f : A -> bool) (l : list A) :
  StronglySorted R l -> StronglySorted R (filter f l).
Proof.
  induction 1 as [|x r Hr IH Hx]; simpl; [constructor|].
  destruct (f x); [|exact IH].
  constructor; [exact IH|].
  rewrite Forall_forall in *. intros y Hy. apply filter_In in Hy. now apply Hx.
Qed.

Lemma uniq_first_ordered {A : Type} (eqb : A -> A -> bool) (R : A -> A -> Prop)
    (l : list A) :
  StronglySorted R l -> StronglySorted R (uniq_first eqb l).
Proof.
  induction 1 as [|x r Hr IH Hx]; simpl; [constructor|].
  constructor; [now apply StronglySorted_filter|].
  rewrite Forall_forall in *. intros y Hy. apply filter_In in Hy.
  destruct Hy as [Hy _]. apply Hx. clear - Hy.
  induction r as [|z t IHt]; simpl in *; [assumption|].
  destruct Hy as [->|Hy]; [now left|].
  apply filter_In in Hy. right. now apply IHt.
Qed.

(** What [get_systems] returns when the status labels are a mapping: a
    [KeyError] for a system label of an open issue that the repository does
    not have, and otherwise one entry for each distinct system name, in
    ascending order, with the status the last write left. *)
Lemma get_systems_spec (repo_labels : list Label) (issues : list Issue)
    (system_color : json) (members : list (string * json)) :
  let names := iter_systems repo_labels system_color in
  match get_systems repo_labels issues system_color (JObj members) with
  | Ok systems =>
      systems
      = map (fun k => (k, mkSystemData
                            (final_status system_color (map fst members) issues k)))
          (uniq_first String.eqb (sorted String.leb names))
  | Raise e =>
      exists issue s,
        In issue issues /\ issue_state issue = "open"
        /\ In s (iter_systems (issue_labels issue) system_color)
        /\ ~ In s names /\ e = KeyError s
  end.
Proof.
  intros names. unfold get_systems. fold names.
  pose proof (mark_issues_spec system_color members issues
                (seed_systems (sorted String.leb names))) as S.
  destruct (mark_issues _ _ issues _) as [final|e].
  - destruct S as (_ & Hkeys & Hget). rewrite seed_systems_keys in Hkeys.
    rewrite <- Hkeys. apply od_tabulate_unique.
    + rewrite Hkeys. apply (uniq_first_NoDup String.eqb String.eqb_eq).
    + intros k Hk. rewrite Hget. unfold final_status.
      destruct (last_writer system_color k issues); [reflexivity|].
      rewrite seed_systems_get. unfold str_in_list.
      rewrite Hkeys in Hk.
      apply (proj1 (uniq_first_In String.eqb String.eqb_eq _ _)) in Hk.
      apply (proj2 (existsb_eqb_In String.eqb String.eqb_eq _ _)) in Hk.
      now rewrite Hk.
  - destruct S as (issue & s & Hi & Hopen & Hs & Hnot & ->).
    exists issue, s. repeat split; auto.
    intros H. apply Hnot. now apply seeded_keys.
Qed.

(** The names seeded are in ascending order, each once. *)
Lemma seeded_names_ordered (names : list string) :
  StronglySorted (fun a b => String.leb a b = true)
    (uniq_first String.eqb (sorted String.leb names))
  /\ NoDup (uniq_first String.eqb (sorted String.leb names)).
Proof.
  split.
  - apply uniq_first_ordered.
    apply (sorted_ordered String.leb String.leb_total string_leb_trans).
  - apply (uniq_first_NoDup String.eqb String.eqb_eq).
Qed.

(** With no severity named "operational", a system is operational exactly
    when no open issue carries its label. *)
Lemma final_status_operational (system_color : json) (status_names : list string)
    (issues : list Issue) (k : string) :
  ~ In "operational" status_names ->
  (final_status system_color status_names issues k = Some "operational" <->
   forall issue, In issue issues -> carries system_color k issue = false).
Proof.
  intros Hop. unfold final_status. rewrite <- last_writer_exists.
  destruct (last_writer system_color k issues) as [issue|]; [|tauto].
  split; [|discriminate]. intros H. exfalso. apply Hop.
  unfold first_severity in H.
  destruct (find _ (issue_labels issue)) as [l|] eqn:F; [|discriminate].
  apply find_some in F. destruct F as [_ F]. simpl in H.
  injection H as H. rewrite H in F.
  exact (proj1 (existsb_eqb_In String.eqb String.eqb_eq _ _) F).
Qed.

(** ** [get_systems] and its specification *)

(** C1. An open issue with the label of system API and no severity label:
    [get_systems] leaves the status [None] for API, although no open issue
    that carries the label of API carries a severity label; the specification
    asks for "operational" there.  The entries themselves are as specified, one per
    system label, in ascending order of name. *)
Theorem get_systems_open_issue_without_severity :
  get_systems repo_labels_example [open_without_severity]
    system_color_example (JObj status_labels_example)
  = Ok [ ("API", mkSystemData None); ("Website", mkSystemData (Some "operational")) ]
  /\ existsb (fun issue => carries system_color_example "API" issue
                           && has_severity_label (map fst status_labels_example) issue)
       [open_without_severity] = false
  /\ status_eqb None (Some "operational") = false.
Proof. repeat split. Qed.

(** [get_systems] returns a mapping when every label of the system colour
    on an open issue is a label of the repository. *)
Lemma get_systems_returns (repo_labels : list Label) (issues : list Issue)
    (system_color : json) (members : list (string * json)) :
  (forall issue l,
      In issue issues -> issue_state issue = "open" ->
      In l (issue_labels issue) ->
      py_eq_str (label_color l) system_color = true ->
      In l repo_labels) ->
  exists systems,
    get_systems repo_labels issues system_color (JObj members) = Ok systems.
Proof.
  intros Hpre.
  pose proof (mark_issues_spec system_color members issues
                (seed_systems (sorted String.leb (iter_systems repo_labels system_color))))
    as S.
  unfold get_systems.
  destruct (mark_issues _ _ issues _) as [final|e]; [now exists final|].
  exfalso. destruct S as (i & s & Hi & Hopen & Hs & Hnot & _).
  apply Hnot, seeded_keys.
  apply In_iter_systems in Hs. destruct Hs as (l & Hl & Hcolor & <-).
  apply In_iter_systems. exists l. repeat split; auto.
  exact (Hpre i l Hi Hopen Hl Hcolor).
Qed.

(** C2. An open issue with system labels and no severity label writes [None],
    not "operational", as the status of each system it carries: that is the
    mapping its turn of the loop leaves.  The mapping [get_systems] returns,
    which it does when every system label of an open issue is a label of the
    repository, has for such a system the severity of the last open issue
    after this one that carries the system, and [None] when there is no such
    issue. *)
Theorem get_systems_records_None :
  forall (repo_labels : list Label) (before : list Issue) (issue : Issue)
         (after : list Issue) (system_color : json) (members : list (string * json)),
    issue_state issue = "open" ->
    has_severity_label (map fst members) issue = false ->
    (forall systems,
        Forall (fun s => In s (map fst systems))
          (iter_systems (issue_labels issue) system_color) ->
        exists systems',
          mark_issue system_color (JObj members) issue systems = Ok systems'
          /\ forall s, In s (iter_systems (issue_labels issue) system_color) ->
                       od_get String.eqb s systems' = Some (mkSystemData None))
    /\ ((forall i l,
            In i (before ++ issue :: after) -> issue_state i = "open" ->
            In l (issue_labels i) ->
            py_eq_str (label_color l) system_color = true ->
            In l repo_labels) ->
        exists final,
          get_systems repo_labels (before ++ issue :: after) system_color (JObj members)
          = Ok final
          /\ forall s,
               In s (iter_systems (issue_labels issue) system_color) ->
               od_get String.eqb s final
               = Some (mkSystemData
                         match last_writer system_color s after with
                         | Some later =>
                             first_severity (map fst members) (issue_labels later)
                         | None => None
                         end)).
Proof.
  intros repo_labels before issue after system_color members Hopen Hsev.
  apply first_severity_None_iff in Hsev.
  assert (Hcarries : forall s, In s (iter_systems (issue_labels issue) system_color) ->
                               carries system_color s issue = true).
  { intros s Hs. unfold carries. rewrite Hopen. simpl.
    exact (proj2 (existsb_eqb_In String.eqb String.eqb_eq _ _) Hs). }
  split.
  - intros systems Hall.
    pose proof (mark_issue_spec system_color members issue systems) as S.
    destruct (mark_issue system_color (JObj members) issue systems) as [systems'|e].
    + exists systems'. split; [reflexivity|].
      intros s Hs. destruct S as (_ & _ & Hget).
      now rewrite Hget, (Hcarries s Hs), Hsev.
    + exfalso. destruct S as (_ & s & _ & Hs & Hnot).
      rewrite Forall_forall in Hall. exact (Hnot (Hall s Hs)).
  - intros Hpre.
    destruct (get_systems_returns repo_labels (before ++ issue :: after) system_color
                members Hpre) as [final Hfinal].
    exists final. split; [exact Hfinal|]. intros s Hs.
    pose proof (mark_issues_spec system_color members (before ++ issue :: after)
                  (seed_systems (sorted String.leb (iter_systems repo_labels system_color))))
      as S.
    unfold get_systems in Hfinal. rewrite Hfinal in S.
    destruct S as (_ & _ & Hget). rewrite Hget, last_writer_app.
    cbn [last_writer].
    destruct (last_writer system_color s after) as [later|]; [reflexivity|].
    now rewrite (Hcarries s Hs), Hsev.
Qed.

Lemma get_systems_records_None_witness :
  exists final,
    get_systems repo_labels_example [open_outage; open_without_severity; closed_outage]
      system_color_example (JObj status_labels_example)
    = Ok final
    /\ forall s, In s ["API"] -> od_get String.eqb s final = Some (mkSystemData None).
Proof.
  apply (proj2 (get_systems_records_None repo_labels_example
                  [open_outage] open_without_severity [closed_outage]
                  system_color_example status_labels_example eq_refl eq_refl)).
  intros i l [<-|[<-|[<-|[]]]] Hopen; try discriminate Hopen;
    intros [<-|H] Hc; simpl in *;
    try (destruct H as [<-|[]]); try discriminate; auto.
Defined.

(** The statement as worded fails where a later open issue carries the
    system and has a severity, which then is the status, and where the
    system is no label of the repository, so that no mapping is returned. *)
Lemma get_systems_None_overwritten :
  ~ records_None_as_stated repo_labels_example [open_without_severity; open_outage]
      system_color_example (JObj status_labels_example)
  /\ ~ records_None_as_stated repo_labels_example [open_unknown_without_severity]
         system_color_example (JObj status_labels_example).
Proof.
  split; intros H.
  - destruct (H open_without_severity (or_introl eq_refl) eq_refl) as (final & Hfinal & Hs);
      [discriminate | reflexivity |].
    specialize (Hs "API" (or_introl eq_refl)).
    injection Hfinal as <-. discriminate Hs.
  - destruct (H open_unknown_without_severity (or_introl eq_refl) eq_refl)
      as (final & Hfinal & _); [discriminate | reflexivity |].
    discriminate Hfinal.
Qed.

(** C3. [get_systems] raises a [KeyError] when an open issue carries a label
    of the system colour whose name is not among the system labels of the
    repository, and returns a mapping when every label of the system colour
    on an open issue is a label of the repository. *)
Theorem get_systems_KeyError_or_mapping :
  forall (repo_labels : list Label) (issues : list Issue) (system_color : json)
         (members : list (string * json)),
    ((exists issue l,
         In issue issues /\ issue_state issue = "open"
         /\ In l (issue_labels issue)
         /\ py_eq_str (label_color l) system_color = true
         /\ ~ In (label_name l) (iter_systems repo_labels system_color)) ->
     exists s,
       get_systems repo_labels issues system_color (JObj members) = Raise (KeyError s)
       /\ ~ In s (iter_systems repo_labels system_color))
    /\ ((forall issue l,
            In issue issues -> issue_state issue = "open" ->
            In l (issue_labels issue) ->
            py_eq_str (label_color l) system_color = true ->
            In l repo_labels) ->
        exists systems,
          get_systems repo_labels issues system_color (JObj members) = Ok systems).
Proof.
  intros repo_labels issues system_color members.
  pose proof (mark_issues_spec system_color members issues
                (seed_systems (sorted String.leb (iter_systems repo_labels system_color))))
    as S.
  unfold get_systems. split.
  - intros (issue & l & Hi & Hopen & Hl & Hcolor & Hnot).
    destruct (mark_issues _ _ issues _) as [final|e].
    + exfalso. destruct S as (Hall & _). specialize (Hall issue Hi Hopen).
      rewrite Forall_forall in Hall. apply Hnot.
      apply seeded_keys, Hall. apply In_iter_systems. exists l. auto.
    + destruct S as (i & s & _ & _ & _ & Hs & ->). exists s. split; [reflexivity|].
      intros H. apply Hs. now apply seeded_keys.
  - intros Hpre.
    destruct (mark_issues _ _ issues _) as [final|e]; [now exists final|].
    exfalso. destruct S as (i & s & Hi & Hopen & Hs & Hnot & _).
    apply Hnot, seeded_keys.
    apply In_iter_systems in Hs. destruct Hs as (l & Hl & Hcolor & <-).
    apply In_iter_systems. exists l. repeat split; auto.
    exact (Hpre i l Hi Hopen Hl Hcolor).
Qed.

Lemma get_systems_KeyError_or_mapping_witness :
  (exists s,
      get_systems repo_labels_example [open_outage; open_unknown_system]
        system_color_example (JObj status_labels_example) = Raise (KeyError s)
      /\ ~ In s (iter_systems repo_labels_example system_color_example))
  /\ (exists systems,
         get_systems repo_labels_example [open_outage; open_without_severity]
           system_color_example (JObj status_labels_example) = Ok systems).
Proof.
  split.
  - apply (proj1 (get_systems_KeyError_or_mapping repo_labels_example
                    [open_outage; open_unknown_system]
                    system_color_example status_labels_example)).
    exists open_unknown_system, (system_label "Database").
    repeat split.
    + right. left. reflexivity.
    + left. reflexivity.
    + simpl. intros [H|[H|[]]]; discriminate.
  - apply (proj2 (get_systems_KeyError_or_mapping repo_labels_example
                    [open_outage; open_without_severity]
                    system_color_example status_labels_example)).
    intros issue l [<-|[<-|[]]] _ [<-|H] Hc; simpl in *;
      try (destruct H as [<-|[]]); try discriminate; auto.
Defined.

(** ** [get_incidents] and its specification *)

Lemma StronglySorted_weaken {A : Type} (R R' : A -> A -> Prop) (l : list A) :
  (forall a b, R a b -> R' a b) -> StronglySorted R l -> StronglySorted R' l.
Proof.
  intros HR. induction 1 as [|x r Hr IH Hx]; constructor; [assumption|].
  eapply Forall_impl; [|exact Hx]. intros b. apply HR.
Qed.

(** With status labels that are a mapping, [get_incidents] fails exactly
    when an issue it keeps has no description, and otherwise returns the
    incidents of the issues it keeps, sorted. *)
Lemma get_incidents_spec (markdown2_markdown : string -> string)
    (collaborators : list string) (issues : list Issue) (system_color : json)
    (members : list (string * json)) :
  let kept := filter (is_incident collaborators system_color (map fst members)) issues in
  get_incidents markdown2_markdown collaborators issues system_color (JObj members)
  = if forallb has_description kept
    then Ok (sorted_reverse created_leb
               (map (incident_of markdown2_markdown collaborators system_color
                       (map fst members)) kept))
    else Raise TypeError.
Proof.
  intros kept. unfold get_incidents. rewrite collect_incidents_spec. fold kept.
  now destruct (forallb has_description kept).
Qed.

(** C4. [get_incidents] builds an incident for exactly the issues that have a
    system label, have a severity label or are closed, and are written by a
    collaborator ([is_incident]), when each of these issues has a
    description; the incidents come newest first, those created at the same
    time in the order of the issues.  When one of these issues has no
    description, [get_incidents] fails with a [TypeError] and builds
    nothing.  Of the six example issues the closed one without severity is
    kept, and the open one without severity, the one without a system label
    and the one by a stranger are left out. *)
Theorem get_incidents_filters_and_orders :
  forall (markdown2_markdown : string -> string) (collaborators : list string)
         (issues : list Issue) (system_color : json) (members : list (string * json)),
    let kept := filter (is_incident collaborators system_color (map fst members)) issues in
    let built :=
      map (incident_of markdown2_markdown collaborators system_color (map fst members))
        kept in
    (forallb has_description kept = true ->
     exists incidents,
       get_incidents markdown2_markdown collaborators issues system_color (JObj members)
       = Ok incidents
       /\ Permutation incidents built
       /\ StronglySorted not_older incidents
       /\ forall t, filter (created_at_is t) incidents = filter (created_at_is t) built)
    /\ (forallb has_description kept = false ->
        get_incidents markdown2_markdown collaborators issues system_color (JObj members)
        = Raise TypeError)
    /\ (exists incidents,
           get_incidents markdown2_markdown ["alice"] issues_example
             system_color_example (JObj status_labels_example) = Ok incidents
           /\ map incident_title incidents
              = ["newest"; "closed, no severity"; "open outage"]).
Proof.
  intros markdown2_markdown collaborators issues system_color members kept built.
  pose proof (get_incidents_spec markdown2_markdown collaborators issues system_color
                members) as S. cbv zeta in S. fold kept in S. fold built in S.
  split; [|split; [|eexists; split; reflexivity]].
  - intros Hall. rewrite Hall in S.
    exists (sorted_reverse created_leb built). repeat split.
    + exact S.
    + apply sorted_reverse_perm.
    + eapply StronglySorted_weaken;
        [|apply (sorted_reverse_ordered created_leb created_leb_total created_leb_trans)].
      intros a b H. unfold not_older, created_leb in *. lia.
    + intros t. apply sorted_reverse_stable. apply created_at_is_tied.
  - intros Hsome. now rewrite Hsome in S.
Qed.

Lemma get_incidents_filters_and_orders_witness :
  (exists incidents,
      get_incidents markdown_example ["alice"] [closed_outage; open_outage]
        system_color_example (JObj status_labels_example)
      = Ok incidents
      /\ Permutation incidents
           (map (incident_of markdown_example ["alice"] system_color_example
                   (map fst status_labels_example))
              [closed_outage; open_outage]))
  /\ get_incidents markdown_example ["alice"] [open_outage; undescribed_outage]
       system_color_example (JObj status_labels_example)
     = Raise TypeError.
Proof.
  split.
  - destruct (proj1 (get_incidents_filters_and_orders markdown_example ["alice"]
                       [closed_outage; open_outage] system_color_example
                       status_labels_example) eq_refl)
      as (incidents & Hget & Hperm & _).
    exists incidents. split; [exact Hget | exact Hperm].
  - exact (proj1 (proj2 (get_incidents_filters_and_orders markdown_example ["alice"]
                           [open_outage; undescribed_outage] system_color_example
                           status_labels_example)) eq_refl).
Defined.

(** The statement as worded fails on an issue without description that
    passes the three tests: no incident is built for it, nor for any other
    issue. *)
Lemma get_incidents_without_description :
  is_incident ["alice"] system_color_example (map fst status_labels_example)
    undescribed_outage = true
  /\ get_incidents markdown_example ["alice"] [open_outage; undescribed_outage]
       system_color_example (JObj status_labels_example)
     = Raise TypeError
  /\ ~ incidents_as_stated markdown_example ["alice"] [open_outage; undescribed_outage]
         system_color_example status_labels_example.
Proof.
  split; [reflexivity|]. split; [reflexivity|].
  intros (incidents & Hget & _). discriminate Hget.
Qed.

(** ** [get_panels] and its specification *)

(** C5. [get_panels] walks the systems in the order of the mapping, leaves
    out the operational ones and puts each other name at the end of the list
    kept for its status, a status getting its key when it is first seen: the
    result is [panels_spec].  The mapping [get_systems] returns keeps the
    order of its seeding.  For A: major outage, B: operational, C: major
    outage, D: degraded performance the panels are major outage: A, C and
    then degraded performance: D. *)
Theorem get_panels_groups_by_status :
  (forall systems : Systems, get_panels systems = panels_spec systems)
  /\ (forall repo_labels issues system_color status_labels systems,
        get_systems repo_labels issues system_color status_labels = Ok systems ->
        map fst systems
        = map fst (seed_systems (sorted String.leb (iter_systems repo_labels system_color))))
  /\ get_panels systems_example
     = [ (Some "major outage", ["A"; "C"]); (Some "degraded performance", ["D"]) ].
Proof.
  split; [|split].
  - intros systems. exact (get_panels_from [] systems).
  - intros repo_labels issues system_color status_labels systems H.
    unfold get_systems in H. now apply mark_issues_keys in H.
  - reflexivity.
Qed.

Lemma get_panels_groups_by_status_witness :
  map fst [ ("API", mkSystemData (Some "major outage"));
            ("Website", mkSystemData (Some "operational")) ]
  = map fst (seed_systems (sorted String.leb
               (iter_systems repo_labels_example system_color_example))).
Proof.
  apply (proj1 (proj2 get_panels_groups_by_status) repo_labels_example
           [open_outage] system_color_example (JObj status_labels_example)).
  reflexivity.
Defined.

(** ** [is_same_content] and its specification *)

Lemma byte_in_spec (lo hi : N) (b : byte) :
  byte_in lo hi b = true <-> (lo <= Byte.to_N b <= hi)%N.
Proof. unfold byte_in. rewrite andb_true_iff, !N.leb_le. tauto. Qed.

(** A byte other than ED starts no surrogate, and ED starts none before a
    byte outside A0..BF. *)
Lemma surrogate_pair_false (b1 b2 : byte) :
  (Byte.to_N b1 <> 237 \/ ~ (160 <= Byte.to_N b2 <= 191))%N ->
  byte_in 237 237 b1 && byte_in 160 191 b2 = false.
Proof.
  intros H. apply not_true_iff_false. rewrite andb_true_iff, !byte_in_spec. lia.
Qed.

Lemma has_surrogate_after (b1 : byte) (rest : list byte) :
  Byte.to_N b1 <> 237%N -> has_surrogate (b1 :: rest) = has_surrogate rest.
Proof.
  intros H. cbn [has_surrogate]. destruct rest as [|b2 r]; [reflexivity|].
  now rewrite surrogate_pair_false by (left; exact H).
Qed.

Lemma has_surrogate_next (b1 b2 : byte) (rest : list byte) :
  has_surrogate (b1 :: b2 :: rest)
  = byte_in 237 237 b1 && byte_in 160 191 b2 || has_surrogate (b2 :: rest).
Proof. reflexivity. Qed.

(** The facts on bytes that a true test gives. *)
Ltac byte_facts :=
  repeat match goal with
         | H : _ && _ = true |- _ => apply andb_true_iff in H; destruct H
         | H : _ || _ = true |- _ => apply orb_true_iff in H; destruct H
         | H : byte_in _ _ _ = true |- _ => apply byte_in_spec in H
         end.


(** The strict decoder accepts no surrogate. *)
Lemma utf8_valid_no_surrogate_upto (n : nat) (bs : list byte) :
  List.length bs <= n -> utf8_valid bs = true -> has_surrogate bs = false.
Proof.
  revert bs. induction n as [|n IH]; intros bs Hlen Hvalid.
  - destruct bs; [reflexivity | simpl in Hlen; lia].
  - destruct bs as [|b1 r1]; [reflexivity|]. cbn [utf8_valid] in Hvalid.
    cbn [List.length] in Hlen.
    destruct (byte_in 0 127 b1) eqn:E1.
    { byte_facts. rewrite has_surrogate_after by lia. apply IH; [lia | exact Hvalid]. }
    destruct r1 as [|b2 r2]; [discriminate|]. cbn [List.length] in Hlen.
    destruct (byte_in 194 223 b1 && byte_in 128 191 b2) eqn:E2.
    { byte_facts. rewrite !has_surrogate_after by lia. apply IH; [lia | exact Hvalid]. }
    destruct r2 as [|b3 r3]; [discriminate|]. cbn [List.length] in Hlen.
    match type of Hvalid with (if ?c then _ else _) = true => destruct c eqn:E3 end.
    { rewrite has_surrogate_next.
      rewrite surrogate_pair_false by (byte_facts; lia). cbn [orb].
      byte_facts; (rewrite !has_surrogate_after by lia; apply IH; [lia | exact Hvalid]). }
    destruct r3 as [|b4 r4]; [discriminate|]. cbn [List.length] in Hlen.
    match type of Hvalid with (if ?c then _ else _) = true => destruct c eqn:E4 end;
      [|discriminate].
    rewrite has_surrogate_next.
    rewrite surrogate_pair_false by (byte_facts; lia). cbn [orb].
    byte_facts; (rewrite !has_surrogate_after by lia; apply IH; [lia | exact Hvalid]).
Qed.

Lemma utf8_valid_no_surrogate (bs : list byte) :
  utf8_valid bs = true -> has_surrogate bs = false.
Proof. apply (utf8_valid_no_surrogate_upto (List.length bs)). lia. Qed.

(** The text that bytes decode to is encoded to these bytes. *)
Lemma encode_utf8_decoded (b : list byte) (text : string) :
  decode_utf8 b = Ok text -> encode_utf8 text = Ok b.
Proof.
  unfold decode_utf8, encode_utf8. destruct (utf8_valid b) eqn:E; [|discriminate].
  intros [= <-]. rewrite list_byte_of_string_of_list_byte.
  now rewrite (utf8_valid_no_surrogate b E).
Qed.

(** What [sha1] gives for a value, by the version of Python. *)
Lemma sha1_py3 (hexdigest : list byte -> string) (c : content) :
  sha1 true hexdigest c
  = match c with
    | Str s =>
        if has_surrogate (list_byte_of_string s) then Raise UnicodeEncodeError
        else Ok (hexdigest (list_byte_of_string s))
    | Bytes b => Ok (hexdigest b)
    end.
Proof.
  destruct c as [s|b]; [|reflexivity]. unfold sha1, encode_utf8.
  now destruct (has_surrogate (list_byte_of_string s)).
Qed.

Lemma sha1_raises (PY3 : bool) (hexdigest : list byte -> string) (c : content) (e : exn) :
  sha1 PY3 hexdigest c = Raise e ->
  e = if PY3 then UnicodeEncodeError else UnicodeDecodeError.
Proof.
  destruct PY3; [rewrite sha1_py3|]; destruct c as [s|b]; cbn [sha1]; try discriminate.
  - destruct (has_surrogate (list_byte_of_string s)); [|discriminate]. now intros [= <-].
  - destruct (ascii_only b); [discriminate|]. now intros [= <-].
Qed.

(** [is_same_content] answers by the two digests, and fails as the first
    [sha1] that fails. *)
Lemma is_same_content_digests (PY3 : bool) (hexdigest : list byte -> string)
    (x y : content) :
  is_same_content PY3 hexdigest x y
  = match sha1 PY3 hexdigest x, sha1 PY3 hexdigest y with
    | Ok h1, Ok h2 => Ok (String.eqb h1 h2)
    | Raise e, _ => Raise e
    | Ok _, Raise e => Raise e
    end.
Proof.
  unfold is_same_content.
  destruct (sha1 PY3 hexdigest x); cbn [bind]; [|reflexivity].
  now destruct (sha1 PY3 hexdigest y).
Qed.

(** C6. Under either version of Python [is_same_content] gives the same
    answer, or fails alike, with its arguments exchanged, is a function of
    its arguments alone, and says yes on equal arguments whenever it
    returns.  Under Python 3 it returns on equal arguments unless they are a
    text with a lone surrogate, which no encoding to UTF-8 exists for and
    which raises [UnicodeEncodeError]; a text without one equals its UTF-8
    bytes, and bytes equal the text they decode to. *)
Theorem is_same_content_reflexive_symmetric :
  forall (PY3 : bool) (hashlib_sha1_hexdigest : list byte -> string) (x y : content)
         (s : string) (b : list byte),
    is_same_content PY3 hashlib_sha1_hexdigest x y
    = is_same_content PY3 hashlib_sha1_hexdigest y x
    /\ (forall answer,
          is_same_content PY3 hashlib_sha1_hexdigest x x = Ok answer -> answer = true)
    /\ is_same_content true hashlib_sha1_hexdigest x x
       = match x with
         | Str t =>
             if has_surrogate (list_byte_of_string t) then Raise UnicodeEncodeError
             else Ok true
         | Bytes _ => Ok true
         end
    /\ (has_surrogate (list_byte_of_string s) = false ->
        is_same_content true hashlib_sha1_hexdigest (Str s) (Bytes (list_byte_of_string s))
        = Ok true
        /\ is_same_content true hashlib_sha1_hexdigest (Bytes (list_byte_of_string s)) (Str s)
           = Ok true)
    /\ match decode_utf8 b with
       | Ok text =>
           is_same_content true hashlib_sha1_hexdigest (Str text) (Bytes b) = Ok true
       | Raise _ => True
       end.
Proof.
  intros PY3 sha x y s b. split; [|split; [|split; [|split]]].
  - rewrite !is_same_content_digests.
    destruct (sha1 PY3 sha x) as [h1|e1] eqn:E1, (sha1 PY3 sha y) as [h2|e2] eqn:E2;
      try reflexivity.
    + now rewrite String.eqb_sym.
    + apply sha1_raises in E1, E2. congruence.
  - intros answer. rewrite is_same_content_digests.
    destruct (sha1 PY3 sha x) as [h|e]; [|discriminate].
    rewrite String.eqb_refl. now intros [= <-].
  - rewrite is_same_content_digests, sha1_py3. destruct x as [t|c].
    + destruct (has_surrogate (list_byte_of_string t)); [reflexivity|].
      now rewrite String.eqb_refl.
    + now rewrite String.eqb_refl.
  - intros Hs. rewrite !is_same_content_digests, !sha1_py3, Hs.
    now rewrite String.eqb_refl.
  - destruct (decode_utf8 b) as [text|e] eqn:E; [|exact I].
    rewrite is_same_content_digests, !sha1_py3.
    pose proof (encode_utf8_decoded b text E) as Henc. unfold encode_utf8 in Henc.
    destruct (has_surrogate (list_byte_of_string text)); [discriminate|].
    injection Henc as ->. now rewrite String.eqb_refl.
Qed.

Lemma is_same_content_reflexive_symmetric_witness :
  is_same_content true hexdigest_example (Str "new page")
    (Bytes (list_byte_of_string "new page"))
  = Ok true
  /\ is_same_content true hexdigest_example (Bytes (list_byte_of_string "new page"))
       (Str "new page")
     = Ok true.
Proof.
  exact (proj1 (proj2 (proj2 (proj2
           (is_same_content_reflexive_symmetric true hexdigest_example
              (Str "new page") (Str "new page") "new page" [])))) eq_refl).
Defined.

(** The statement as worded fails under Python 3 on a text with a lone
    surrogate, and under Python 2 on bytes that are not ASCII: the call
    raises. *)
Lemma is_same_content_not_reflexive :
  is_same_content true hexdigest_example (Str lone_surrogate_example)
    (Str lone_surrogate_example)
  = Raise UnicodeEncodeError
  /\ ~ reflexive_as_stated true hexdigest_example
  /\ is_same_content false hexdigest_example (Bytes accented_bytes_example)
       (Bytes accented_bytes_example)
     = Raise UnicodeDecodeError
  /\ ~ reflexive_as_stated false hexdigest_example.
Proof.
  split; [reflexivity|]. split; [|split; [reflexivity|]].
  - intros H. specialize (H (Str lone_surrogate_example)). discriminate H.
  - intros H. specialize (H (Bytes accented_bytes_example)). discriminate H.
Qed.

(** ** [read_local_config] and its specification *)

(** With a path given and a configuration read, [run_create] works on that
    configuration alone, whatever [DEFAULT_CONFIG] holds; with no path it
    works on the [DEFAULT_CONFIG] object. *)
Lemma run_create_config_replaces (json_loads : string -> option dict)
    (local_file : string -> option string) (path : string) (d : dict) (st : pystate) :
  path <> "" ->
  read_local_config json_loads local_file path = Ok d ->
  run_create_config json_loads local_file (Some path) st = (Ok (fresh_object d), st)
  /\ run_create_config json_loads local_file None st = (Ok DEFAULT_CONFIG_object, st).
Proof.
  intros Hpath Hread. split; [|reflexivity].
  unfold run_create_config, truthy.
  destruct (String.eqb_spec path "") as [E|_]; [contradiction|].
  cbn [negb]. unfold bindM, lift, ret. now rewrite Hread.
Qed.

(** C7. Asked for [custom.json], [read_local_config] parses the text of
    [config.json]; without a [config.json] it raises [FileNotFoundError] for
    that name although the file asked for is there; and for a path with no
    file it raises [RuntimeError]. *)
Theorem read_local_config_ignores_path :
  forall (json_loads : string -> option dict),
    read_local_config json_loads local_files_example "custom.json"
    = loads json_loads "default text"
    /\ read_local_config json_loads local_custom_only "custom.json"
       = Raise (FileNotFoundError "config.json")
    /\ read_local_config json_loads local_files_example "missing.json"
       = Raise RuntimeError.
Proof. intros json_loads. repeat split. Qed.

(** ** The log *)

Section LogRules.
Context {A B : Type}.
Variable P : event -> Prop.

Lemma logs_ret (a : A) (Q : A -> Prop) : Q a -> logs_only P (ret a) Q.
Proof. intros H st Hst. now split. Qed.

Lemma logs_raise (e : exn) (Q : A -> Prop) : logs_only P (raise e) Q.
Proof. intros st Hst. now split. Qed.

Lemma logs_lift (o : outcome A) : logs_only P (lift o) (fun a => o = Ok a).
Proof. intros st Hst. split; [assumption|]. simpl. now destruct o. Qed.

Lemma logs_weaken (m : M A) (Q Q' : A -> Prop) :
  (forall a, Q a -> Q' a) -> logs_only P m Q -> logs_only P m Q'.
Proof.
  intros HQ Hm st Hst. destruct (Hm st Hst) as [Hlog Hres]. split; [assumption|].
  destruct (fst (m st)); auto.
Qed.

Lemma logs_bind (m : M A) (k : A -> M B) (Q : A -> Prop) (R : B -> Prop) :
  logs_only P m Q -> (forall a, Q a -> logs_only P (k a) R) ->
  logs_only P (bindM m k) R.
Proof.
  intros Hm Hk st Hst. unfold bindM.
  destruct (Hm st Hst) as [Hlog Hres].
  destruct (m st) as [[a|e] st']; simpl in *.
  - exact (Hk a Hres st' Hlog).
  - now split.
Qed.

Lemma logs_try_except (m : M A) (handles : exn -> bool) (handler : M A)
    (Q : A -> Prop) :
  logs_only P m Q -> logs_only P handler Q ->
  logs_only P (try_except m handles handler) Q.
Proof.
  intros Hm Hh st Hst. unfold try_except.
  destruct (Hm st Hst) as [Hlog Hres].
  destruct (m st) as [[a|e] st']; simpl in *.
  - now split.
  - destruct (handles e); [exact (Hh st' Hlog) | now split].
Qed.
End LogRules.

Lemma logs_emit (P : event -> Prop) (ev : event) :
  P ev -> logs_only P (emit ev) (fun _ => True).
Proof.
  intros H st Hst. split; [|exact I]. simpl.
  apply Forall_app. split; [assumption | now repeat constructor].
Qed.

Lemma logs_read_config (P : event -> Prop) (c : config_obj) :
  logs_only P (read_config c) (fun _ => True).
Proof. intros st Hst. now split. Qed.

Lemma logs_read_DEFAULT_CONFIG (P : event -> Prop) :
  logs_only P read_DEFAULT_CONFIG (fun _ => True).
Proof. intros st Hst. now split. Qed.

Lemma logs_write_DEFAULT_CONFIG (P : event -> Prop) (d : dict) :
  logs_only P (write_DEFAULT_CONFIG d) (fun _ => True).
Proof. intros st Hst. now split. Qed.

Lemma logs_get_git_ref (P : event -> Prop) (repo : Repo) (ref : string) :
  P (GetGitRef ref) ->
  logs_only P (get_git_ref repo ref) (fun sha => repo_git_ref repo ref = Ok sha).
Proof.
  intros H. unfold get_git_ref.
  eapply logs_bind; [now apply logs_emit | intros _ _; apply logs_lift].
Qed.

Lemma logs_get_contents (P : event -> Prop) (repo : Repo) (path ref : string) :
  P (GetContents path ref) ->
  logs_only P (get_contents repo path ref) (fun _ => True).
Proof.
  intros H. unfold get_contents.
  eapply logs_bind; [now apply logs_emit|]. intros _ _.
  eapply logs_weaken; [|apply logs_lift]. auto.
Qed.

Lemma logs_update_file (P : event -> Prop) (repo : Repo)
    (path sha message content branch : string) :
  P (UpdateFile path sha message content branch) ->
  logs_only P (update_file repo path sha message content branch) (fun _ => True).
Proof.
  intros H. unfold update_file.
  eapply logs_bind; [now apply logs_emit|]. intros _ _.
  eapply logs_weaken; [|apply logs_lift]. auto.
Qed.

Lemma logs_create_file (P : event -> Prop) (repo : Repo)
    (path message content branch : string) :
  P (CreateFile path message content branch) ->
  logs_only P (create_file repo path message content branch) (fun _ => True).
Proof.
  intros H. unfold create_file.
  eapply logs_bind; [now apply logs_emit|]. intros _ _.
  eapply logs_weaken; [|apply logs_lift]. auto.
Qed.

Lemma logs_lift_any {A : Type} (P : event -> Prop) (o : outcome A) :
  logs_only P (lift o) (fun _ => True).
Proof. eapply logs_weaken; [|apply logs_lift]. auto. Qed.

(** [get_repo] asks the client and leaves the state as it is. *)
Lemma get_repo_pure (gh : Github) (name : string) (org : option string) :
  exists o, forall st, get_repo gh name org st = (o, st).
Proof.
  unfold get_repo, lift. destruct org as [o|]; [destruct (truthy (Some o))|];
    eexists; reflexivity.
Qed.

Section ProgramFacts.
Variable PY3 : bool.
Variable hashlib_sha1_hexdigest : list byte -> string.
Variable base64_b64decode : string -> list byte.
Variable json_loads : string -> option dict.
Variable markdown2_markdown : string -> string.
Variable Template_render : string -> Systems -> list Incident -> Panels -> dict -> string.
Variable local_file : string -> option string.
Variable ROOT : string.

Lemma logs_get_config (repo : Repo) (branch_pages : string) :
  logs_only (update_event_ok repo branch_pages)
    (get_config base64_b64decode json_loads repo branch_pages) (fun _ => True).
Proof.
  unfold get_config, get_files.
  apply (logs_bind _ _ _ (fun _ => True)).
  - apply (logs_bind _ _ _ (fun _ => True)); [apply logs_get_contents; simpl; auto|].
    intros c _. destruct c; [apply logs_raise | now apply logs_ret].
  - intros files _.
    apply (logs_bind _ _ _ (fun _ => True)); [|intros _ _; now apply logs_ret].
    destruct (str_in_list "config.json" files); [|now apply logs_ret].
    apply (logs_bind _ _ _ (fun _ => True)); [apply logs_get_contents; simpl; auto|].
    intros config_file _. apply logs_try_except; [|now apply logs_emit].
    repeat (apply (logs_bind _ _ _ (fun _ => True)); [apply logs_lift_any|]; intros ? _).
    apply (logs_bind _ _ _ (fun _ => True)); [apply logs_read_DEFAULT_CONFIG|].
    intros config _. apply logs_write_DEFAULT_CONFIG.
Qed.

Lemma logs_run_update (gh : Github) (name : string) (org : option string)
    (branch_pages : string) (repo : Repo) :
  (forall st, get_repo gh name org st = (Ok repo, st)) ->
  logs_only (update_event_ok repo branch_pages)
    (run_update PY3 hashlib_sha1_hexdigest base64_b64decode json_loads markdown2_markdown
       Template_render gh name org branch_pages)
    (fun _ => True).
Proof.
  intros Hrepo. unfold run_update, echo.
  apply (logs_bind _ _ _ (fun _ => True)); [now apply logs_emit|]. intros _ _.
  apply (logs_bind _ _ _ (fun r => r = repo)).
  { intros st Hst. rewrite Hrepo. now split. }
  intros ? ->.
  eapply logs_bind; [now apply logs_get_git_ref|]. intros sha Hsha.
  apply (logs_bind _ _ _ (fun _ => True)); [apply logs_get_contents; simpl; auto|].
  intros template_file _.
  apply (logs_bind _ _ _ (fun _ => True)); [apply logs_get_config|]. intros config _.
  apply (logs_bind _ _ _ (fun _ => True)); [apply logs_read_config|]. intros cfg _.
  repeat (apply (logs_bind _ _ _ (fun _ => True)); [apply logs_lift_any|]; intros ? _).
  apply logs_try_except.
  - apply (logs_bind _ _ _ (fun _ => True)); [apply logs_get_contents; simpl; auto|].
    intros index _.
    repeat (apply (logs_bind _ _ _ (fun _ => True)); [apply logs_lift_any|]; intros ? _).
    match goal with |- context [if ?same then _ else _] => destruct same end.
    + apply (logs_bind _ _ _ (fun _ => True)); [now apply logs_emit|].
      intros _ _. now apply logs_ret.
    + apply (logs_bind _ _ _ (fun _ => True)); [apply logs_update_file; simpl; auto|].
      intros _ _. now apply logs_ret.
  - apply (logs_bind _ _ _ (fun _ => True)); [apply logs_create_file; simpl; auto|].
    intros _ _. now apply logs_ret.
Qed.
End ProgramFacts.

(** ** [get_config] case by case *)

Lemma od_get_app {V : Type} (k : string) (d1 d2 : list (string * V)) :
  od_get String.eqb k (d1 ++ d2)
  = match od_get String.eqb k d1 with
    | Some v => Some v
    | None => od_get String.eqb k d2
    end.
Proof.
  induction d1 as [|[k' v'] r IH]; simpl; [reflexivity|].
  now destruct (String.eqb k k').
Qed.

(** The shallow merge: a key of [other] takes the value [other] gives it
    (the last one, should [other] repeat the key), any other key keeps its
    value. *)
Lemma dict_update_get (d other : dict) (k : string) :
  od_get String.eqb k (dict_update d other)
  = match od_get String.eqb k (rev other) with
    | Some v => Some v
    | None => od_get String.eqb k d
    end.
Proof.
  unfold dict_update. revert d. induction other as [|[k' v'] r IH]; intros d; simpl.
  - reflexivity.
  - rewrite IH, od_get_app, od_get_set. simpl.
    destruct (od_get String.eqb k (rev r)); [reflexivity|].
    now destruct (String.eqb k k').
Qed.

Section ConfigFacts.
Variable base64_b64decode : string -> list byte.
Variable json_loads : string -> option dict.

Let get_config' := get_config base64_b64decode json_loads.

(** No [config.json] in the listing of "gh-pages": the defaults as they are. *)
Lemma get_config_absent (repo : Repo) (branch_pages : string) (st : pystate)
    (entries : list ContentFile) :
  repo_get_contents repo "/" "gh-pages" = Ok (Dir entries) ->
  str_in_list "config.json" (map cf_path entries) = false ->
  get_config' repo branch_pages st
  = (Ok DEFAULT_CONFIG_object,
     mkState (DEFAULT_CONFIG st) (log st ++ [GetContents "/" "gh-pages"])).
Proof.
  intros Hdir Hin. unfold get_config', get_config, get_files, get_contents.
  unfold bindM, emit, lift, ret. cbn [fst snd DEFAULT_CONFIG log].
  rewrite Hdir, Hin. reflexivity.
Qed.

(** A [config.json] that parses: its keys are written into [DEFAULT_CONFIG]. *)
Lemma get_config_merged (repo : Repo) (branch_pages : string) (st : pystate)
    (entries : list ContentFile) (f : ContentFile) (text : string) (d : dict) :
  repo_get_contents repo "/" "gh-pages" = Ok (Dir entries) ->
  str_in_list "config.json" (map cf_path entries) = true ->
  repo_get_contents repo "config.json" branch_pages = Ok (File f) ->
  decode_utf8 (base64_b64decode (cf_content f)) = Ok text ->
  json_loads text = Some d ->
  get_config' repo branch_pages st
  = (Ok DEFAULT_CONFIG_object,
     mkState (dict_update (DEFAULT_CONFIG st) d)
       (log st ++ [GetContents "/" "gh-pages"] ++ [GetContents "config.json" branch_pages])).
Proof.
  intros Hdir Hin Hfile Htext Hd.
  unfold get_config', get_config, get_files, get_contents, try_except.
  unfold bindM, emit, lift, ret, read_DEFAULT_CONFIG, write_DEFAULT_CONFIG.
  cbn [fst snd DEFAULT_CONFIG log].
  rewrite Hdir, Hin. cbn [fst snd DEFAULT_CONFIG log].
  rewrite Hfile. cbn [as_file]. unfold decoded_content. rewrite Htext.
  unfold loads. rewrite Hd. cbn [DEFAULT_CONFIG log].
  now rewrite <- app_assoc.
Qed.

(** A [config.json] that does not parse: a warning, and the defaults as they
    are. *)
Lemma get_config_unparsable (repo : Repo) (branch_pages : string) (st : pystate)
    (entries : list ContentFile) (f : ContentFile) :
  repo_get_contents repo "/" "gh-pages" = Ok (Dir entries) ->
  str_in_list "config.json" (map cf_path entries) = true ->
  repo_get_contents repo "config.json" branch_pages = Ok (File f) ->
  (forall text, decode_utf8 (base64_b64decode (cf_content f)) = Ok text ->
                json_loads text = None) ->
  get_config' repo branch_pages st
  = (Ok DEFAULT_CONFIG_object,
     mkState (DEFAULT_CONFIG st)
       (log st ++ [GetContents "/" "gh-pages"] ++ [GetContents "config.json" branch_pages]
          ++ [Echo "WARNING: Unable to parse config file. Using defaults."])).
Proof.
  intros Hdir Hin Hfile Hbad.
  unfold get_config', get_config, get_files, get_contents, try_except, echo.
  unfold bindM, emit, lift, ret, read_DEFAULT_CONFIG, write_DEFAULT_CONFIG.
  cbn [fst snd DEFAULT_CONFIG log].
  rewrite Hdir, Hin. cbn [fst snd DEFAULT_CONFIG log].
  rewrite Hfile. cbn [as_file]. unfold decoded_content, decode_utf8 in *.
  destruct (utf8_valid (base64_b64decode (cf_content f))).
  - unfold loads. rewrite (Hbad _ eq_refl). cbn [is_ValueError DEFAULT_CONFIG log].
    now rewrite <- !app_assoc.
  - cbn [is_ValueError DEFAULT_CONFIG log]. now rewrite <- !app_assoc.
Qed.
End ConfigFacts.

(** ** [get_config], [run_update] and their specification *)

Section UpgradeFacts.
Variable hashlib_sha1_hexdigest : list byte -> string.
Variable base64_b64decode : string -> list byte.
Variable local_file : string -> option string.
Variable ROOT : string.

(** [run_upgrade], under Python 3, when [DEFAULT_CONFIG] names one
    template, which the repository does not list: the template is created. *)
Lemma run_upgrade_creates (gh : Github) (name : string) (org : option string)
    (branch_pages : string) (st : pystate) (repo : Repo)
    (entries : list ContentFile) (sha t content : string) :
  (forall st', get_repo gh name org st' = (Ok repo, st')) ->
  repo_get_contents repo "/" "gh-pages" = Ok (Dir entries) ->
  repo_git_ref repo ("heads/" ++ branch_pages)%string = Ok sha ->
  getitem (DEFAULT_CONFIG st) "templates" = Ok (JList [JStr t]) ->
  local_file (path_join (path_join ROOT "template") t) = Some content ->
  str_in_list t (map cf_path entries) = false ->
  log (snd (run_upgrade true hashlib_sha1_hexdigest base64_b64decode local_file ROOT
              gh name org branch_pages st))
  = log st ++ [ Echo "Upgrading..."; GetContents "/" "gh-pages";
                GetGitRef ("heads/" ++ branch_pages)%string;
                CreateFile t "upgrade" content branch_pages ].
Proof.
  intros Hrepo Hdir Href Htemplates Hfile Hin.
  unfold run_upgrade, get_files, get_contents, get_git_ref, echo, read_DEFAULT_CONFIG.
  unfold bindM at 1 2. unfold emit at 1. rewrite Hrepo.
  unfold bindM, emit, lift, ret. cbn [fst snd DEFAULT_CONFIG log].
  rewrite Hdir. cbn [fst snd DEFAULT_CONFIG log]. rewrite Href, Htemplates.
  cbn [py_iter for_each]. unfold upgrade_template, open_template, open_read, create_file.
  unfold bindM, emit, lift, ret. rewrite Hfile, Hin.
  cbn [fst snd DEFAULT_CONFIG log].
  destruct (repo_create_file repo t "upgrade" content branch_pages);
    cbn [snd log]; now rewrite <- !app_assoc.
Qed.
End UpgradeFacts.

(** C8. With the pages on a branch named "pages" that holds a [config.json],
    [get_config] lists the files of "gh-pages" instead: where that branch has
    no [config.json] it returns the defaults unmerged and never reads the
    file, and where that branch does not exist it fails. *)
Theorem get_config_lists_gh_pages :
  forall (base64_b64decode : string -> list byte) (json_loads : string -> option dict),
    repo_get_contents repo_pages_example "config.json" "pages"
    = Ok (File config_file_example)
    /\ get_config base64_b64decode json_loads repo_pages_example "pages" initial_state
       = (Ok DEFAULT_CONFIG_object,
          mkState DEFAULT_CONFIG_initial [GetContents "/" "gh-pages"])
    /\ get_config base64_b64decode json_loads repo_pages_only_example "pages" initial_state
       = (Raise UnknownObjectException,
          mkState DEFAULT_CONFIG_initial [GetContents "/" "gh-pages"]).
Proof. intros base64_b64decode json_loads. repeat split. Qed.

(** Whatever the pages branch it is given, [run_update] asks for the head
    of that branch, reads [template.html] and [index.html] at that revision
    and a [config.json] on that branch, lists "gh-pages", and writes, with
    [update_file] as with [create_file], [index.html] on the branch
    "gh-pages". *)
Lemma run_update_events :
  forall (PY3 : bool) (hashlib_sha1_hexdigest : list byte -> string)
         (base64_b64decode : string -> list byte)
         (json_loads : string -> option dict)
         (markdown2_markdown : string -> string)
         (Template_render : string -> Systems -> list Incident -> Panels -> dict -> string)
         (gh : Github) (name : string) (org : option string) (branch_pages : string)
         (repo : Repo) (defaults : dict),
    fst (get_repo gh name org (mkState defaults [])) = Ok repo ->
    Forall (update_event_ok repo branch_pages)
      (log (snd (run_update PY3 hashlib_sha1_hexdigest base64_b64decode json_loads
                   markdown2_markdown Template_render gh name org branch_pages
                   (mkState defaults [])))).
Proof.
  intros PY3 sha b64 loads markdown render gh name org branch_pages repo defaults Hrepo.
  destruct (get_repo_pure gh name org) as [o Ho].
  rewrite Ho in Hrepo. simpl in Hrepo. subst o.
  apply (logs_run_update PY3 sha b64 loads markdown render gh name org branch_pages repo Ho).
  constructor.
Qed.

(** C9. Given the pages branch "pages", [run_update] asks for the head of
    that branch, reads [template.html] and [index.html] at that revision and
    writes [index.html] on the branch "gh-pages".  The [config.json] of the
    branch "pages" it reads only where the listing of "gh-pages" shows a
    [config.json]: on a repository whose "gh-pages" has none it never reads
    the one that the branch "pages" holds. *)
Theorem run_update_reads_config_by_listing :
  forall PY3 : bool,
    repo_get_contents repo_pages_example "config.json" "pages"
    = Ok (File config_file_example)
    /\ log (snd (run_update PY3 hexdigest_example b64decode_example json_loads_example
                   markdown_example render_example (github_example repo_pages_example)
                   "status" None "pages" initial_state))
       = [ Echo "Generating.."; GetGitRef "heads/pages";
           GetContents "/template.html" "sha-pages"; GetContents "/" "gh-pages";
           GetContents "/index.html" "sha-pages";
           UpdateFile "index.html" "sha-index" "update index" "new page" "gh-pages" ]
    /\ log (snd (run_update PY3 hexdigest_example b64decode_example json_loads_example
                   markdown_example render_example (github_example repo_listed_example)
                   "status" None "pages" initial_state))
       = [ Echo "Generating.."; GetGitRef "heads/pages";
           GetContents "/template.html" "sha-pages"; GetContents "/" "gh-pages";
           GetContents "config.json" "pages";
           GetContents "/index.html" "sha-pages";
           UpdateFile "index.html" "sha-index" "update index" "new page" "gh-pages" ].
Proof. intros []; repeat split. Qed.

(** The same run on a repository whose branch "pages" has no [index.html]:
    the page is created, on "gh-pages". *)
Example run_update_creates_on_gh_pages :
  log (snd (run_update true hexdigest_example b64decode_example json_loads_example
              markdown_example render_example
              (github_example
                 (repo_with [ ("heads/pages", "sha-pages") ]
                    [ ("/", "gh-pages", Dir [template_file_example]);
                      ("/template.html", "sha-pages", File template_file_example) ]))
              "status" None "pages" initial_state))
  = [ Echo "Generating.."; GetGitRef "heads/pages";
      GetContents "/template.html" "sha-pages"; GetContents "/" "gh-pages";
      GetContents "/index.html" "sha-pages";
      CreateFile "index.html" "initial" "new page" "gh-pages" ].
Proof. reflexivity. Qed.

(** C10. A call of [get_config] that merges a remote [config.json] answers
    with the [DEFAULT_CONFIG] object and leaves the merged keys in it.  From
    then on a call that finds no [config.json], or one that does not parse,
    answers with that object and so with the merged values, and
    [run_upgrade], here under Python 3, takes its templates from them. *)
Theorem get_config_merges_in_place :
  forall (hashlib_sha1_hexdigest : list byte -> string)
         (base64_b64decode : string -> list byte)
         (json_loads : string -> option dict)
         (local_file : string -> option string) (ROOT : string)
         (repo : Repo) (branch_pages : string) (st : pystate)
         (entries : list ContentFile) (f : ContentFile) (text : string) (d : dict),
    repo_get_contents repo "/" "gh-pages" = Ok (Dir entries) ->
    str_in_list "config.json" (map cf_path entries) = true ->
    repo_get_contents repo "config.json" branch_pages = Ok (File f) ->
    decode_utf8 (base64_b64decode (cf_content f)) = Ok text ->
    json_loads text = Some d ->
    let merged := snd (get_config base64_b64decode json_loads repo branch_pages st) in
    fst (get_config base64_b64decode json_loads repo branch_pages st)
    = Ok DEFAULT_CONFIG_object
    /\ DEFAULT_CONFIG merged = dict_update (DEFAULT_CONFIG st) d
    /\ (forall k v, od_get String.eqb k (rev d) = Some v ->
                    od_get String.eqb k (DEFAULT_CONFIG merged) = Some v)
    /\ (forall repo' branch' entries',
          repo_get_contents repo' "/" "gh-pages" = Ok (Dir entries') ->
          str_in_list "config.json" (map cf_path entries') = false ->
          let later := get_config base64_b64decode json_loads repo' branch' merged in
          fst later = Ok DEFAULT_CONFIG_object
          /\ deref (snd later) DEFAULT_CONFIG_object = dict_update (DEFAULT_CONFIG st) d)
    /\ (forall repo' branch' entries' f',
          repo_get_contents repo' "/" "gh-pages" = Ok (Dir entries') ->
          str_in_list "config.json" (map cf_path entries') = true ->
          repo_get_contents repo' "config.json" branch' = Ok (File f') ->
          (forall text', decode_utf8 (base64_b64decode (cf_content f')) = Ok text' ->
                         json_loads text' = None) ->
          let later := get_config base64_b64decode json_loads repo' branch' merged in
          fst later = Ok DEFAULT_CONFIG_object
          /\ deref (snd later) DEFAULT_CONFIG_object = dict_update (DEFAULT_CONFIG st) d)
    /\ (forall gh name org branch' repo' entries' sha t content,
          od_get String.eqb "templates" (rev d) = Some (JList [JStr t]) ->
          (forall st', get_repo gh name org st' = (Ok repo', st')) ->
          repo_get_contents repo' "/" "gh-pages" = Ok (Dir entries') ->
          repo_git_ref repo' ("heads/" ++ branch')%string = Ok sha ->
          local_file (path_join (path_join ROOT "template") t) = Some content ->
          str_in_list t (map cf_path entries') = false ->
          log (snd (run_upgrade true hashlib_sha1_hexdigest base64_b64decode local_file ROOT
                      gh name org branch' merged))
          = log merged ++ [ Echo "Upgrading..."; GetContents "/" "gh-pages";
                            GetGitRef ("heads/" ++ branch')%string;
                            CreateFile t "upgrade" content branch' ]).
Proof.
  intros sha1 b64 loads local_file ROOT repo branch_pages st entries f text d
    Hdir Hin Hfile Htext Hd merged.
  assert (Hmerged : get_config b64 loads repo branch_pages st
                    = (Ok DEFAULT_CONFIG_object,
                       mkState (dict_update (DEFAULT_CONFIG st) d)
                         (log st ++ [GetContents "/" "gh-pages"]
                            ++ [GetContents "config.json" branch_pages]))).
  { exact (get_config_merged b64 loads repo branch_pages st entries f text d
             Hdir Hin Hfile Htext Hd). }
  subst merged. rewrite Hmerged. cbn [fst snd DEFAULT_CONFIG].
  split; [reflexivity|]. split; [reflexivity|]. split; [|split; [|split]].
  - intros k v Hk. now rewrite dict_update_get, Hk.
  - intros repo' branch' entries' Hdir' Hin'.
    now rewrite (get_config_absent b64 loads repo' branch' _ entries' Hdir' Hin').
  - intros repo' branch' entries' f' Hdir' Hin' Hfile' Hbad.
    now rewrite (get_config_unparsable b64 loads repo' branch' _ entries' f'
                   Hdir' Hin' Hfile' Hbad).
  - intros gh name org branch' repo' entries' sha t content Ht Hrepo Hdir' Href Hlocal Hnot.
    apply (run_upgrade_creates sha1 b64 local_file ROOT gh name org branch' _ repo'
             entries' sha t content); auto.
    unfold getitem. cbn [DEFAULT_CONFIG]. now rewrite dict_update_get, Ht.
Qed.

Lemma get_config_merges_in_place_witness :
  od_get String.eqb "title"
    (DEFAULT_CONFIG
       (snd (get_config b64decode_example json_loads_example repo_configured_example
               "gh-pages" initial_state)))
  = Some (JStr "Custom")
  /\ deref
       (snd (get_config b64decode_example json_loads_example repo_plain_example "gh-pages"
               (snd (get_config b64decode_example json_loads_example
                       repo_configured_example "gh-pages" initial_state))))
       DEFAULT_CONFIG_object
     = dict_update DEFAULT_CONFIG_initial remote_config_example
  /\ deref
       (snd (get_config b64decode_example json_loads_example repo_broken_example "gh-pages"
               (snd (get_config b64decode_example json_loads_example
                       repo_configured_example "gh-pages" initial_state))))
       DEFAULT_CONFIG_object
     = dict_update DEFAULT_CONFIG_initial remote_config_example
  /\ log (snd (run_upgrade true hexdigest_example b64decode_example package_files_example "/pkg"
                 (github_example repo_plain_example) "status" None "gh-pages"
                 (snd (get_config b64decode_example json_loads_example
                         repo_configured_example "gh-pages" initial_state))))
     = [ GetContents "/" "gh-pages"; GetContents "config.json" "gh-pages";
         Echo "Upgrading..."; GetContents "/" "gh-pages"; GetGitRef "heads/gh-pages";
         CreateFile "custom.html" "upgrade" "custom template" "gh-pages" ].
Proof.
  destruct (get_config_merges_in_place hexdigest_example b64decode_example
              json_loads_example package_files_example "/pkg"
              repo_configured_example "gh-pages" initial_state
              [template_file_example; config_file_example] config_file_example
              "custom config" remote_config_example
              eq_refl eq_refl eq_refl eq_refl eq_refl)
    as (_ & _ & Hkeys & Habsent & Hbroken & Hupgrade).
  split; [|split; [|split]].
  - apply Hkeys. reflexivity.
  - apply (Habsent repo_plain_example "gh-pages" [template_file_example]); reflexivity.
  - apply (Hbroken repo_broken_example "gh-pages"
             [template_file_example; broken_config_file_example]
             broken_config_file_example); try reflexivity.
    intros text'. unfold decode_utf8. simpl. intros [= <-]. reflexivity.
  - apply (Hupgrade (github_example repo_plain_example) "status" None "gh-pages"
             repo_plain_example [template_file_example] "sha-gh-pages"
             "custom.html" "custom template");
      first [reflexivity | intros st'; reflexivity].
Defined.


(** * Further properties *)

(** ** [get_systems] *)

(** X1. With status labels that are a mapping, [get_systems] either raises
    the [KeyError] of a system label of an open issue that the repository
    does not have, or returns one entry for each distinct repository label
    of the system colour, in strictly ascending order of name, where the
    status of a system is the severity (possibly [None]) of the last open
    issue that carries its label and "operational" when there is none. *)
Theorem get_systems_entries_and_statuses :
  forall (repo_labels : list Label) (issues : list Issue) (system_color : json)
         (members : list (string * json)),
    let names := iter_systems repo_labels system_color in
    let keys := uniq_first String.eqb (sorted String.leb names) in
    (forall k, In k keys <-> In k names)
    /\ NoDup keys
    /\ StronglySorted (fun a b => String.leb a b = true) keys
    /\ match get_systems repo_labels issues system_color (JObj members) with
       | Ok systems =>
           systems
           = map (fun k => (k, mkSystemData
                                 (final_status system_color (map fst members) issues k)))
               keys
       | Raise e =>
           exists issue s,
             In issue issues /\ issue_state issue = "open"
             /\ In s (iter_systems (issue_labels issue) system_color)
             /\ ~ In s names /\ e = KeyError s
       end.
Proof.
  intros repo_labels issues system_color members names keys.
  split; [|split; [|split]].
  - intros k. unfold keys.
    rewrite (uniq_first_In String.eqb String.eqb_eq). apply In_sorted.
  - apply seeded_names_ordered.
  - apply seeded_names_ordered.
  - apply get_systems_spec.
Qed.

Lemma mark_issues_open_only (system_color status_labels : json) (issues : list Issue)
    (systems : Systems) :
  mark_issues system_color status_labels issues systems
  = mark_issues system_color status_labels
      (filter (fun issue => String.eqb (issue_state issue) "open") issues) systems.
Proof.
  revert systems. induction issues as [|issue rest IH]; intros systems; [reflexivity|].
  cbn [filter mark_issues].
  destruct (String.eqb (issue_state issue) "open") eqn:E.
  - cbn [mark_issues].
    destruct (mark_issue system_color status_labels issue systems);
      cbn [bind]; [apply IH | reflexivity].
  - unfold mark_issue. rewrite E. cbn [bind]. apply IH.
Qed.

Lemma mark_issues_labelled_only (system_color : json) (members : list (string * json))
    (issues : list Issue) (systems : Systems) :
  mark_issues system_color (JObj members) issues systems
  = mark_issues system_color (JObj members)
      (filter (has_system_label system_color) issues) systems.
Proof.
  revert systems. induction issues as [|issue rest IH]; intros systems; [reflexivity|].
  cbn [filter mark_issues].
  destruct (has_system_label system_color issue) eqn:E.
  - cbn [mark_issues].
    destruct (mark_issue system_color (JObj members) issue systems);
      cbn [bind]; [apply IH | reflexivity].
  - unfold mark_issue. unfold has_system_label in E.
    assert (Hnone : iter_systems (issue_labels issue) system_color = []).
    { pose proof (iter_systems_empty (issue_labels issue) system_color) as H.
      rewrite E in H. simpl in H.
      now destruct (iter_systems (issue_labels issue) system_color). }
    rewrite Hnone, get_severity_dict.
    destruct (String.eqb (issue_state issue) "open"); cbn [bind mark_affected]; apply IH.
Qed.

(** X2. An issue that is not open never changes a status: [get_systems]
    gives the same result, or raises the same exception, on the open issues
    alone.  With status labels that are a mapping the same holds for the
    issues without a label of the system colour. *)
Theorem get_systems_ignores_other_issues :
  forall (repo_labels : list Label) (issues : list Issue)
         (system_color status_labels : json) (members : list (string * json)),
    get_systems repo_labels issues system_color status_labels
    = get_systems repo_labels
        (filter (fun issue => String.eqb (issue_state issue) "open") issues)
        system_color status_labels
    /\ get_systems repo_labels issues system_color (JObj members)
       = get_systems repo_labels (filter (has_system_label system_color) issues)
           system_color (JObj members).
Proof.
  intros. unfold get_systems. split.
  - apply mark_issues_open_only.
  - apply mark_issues_labelled_only.
Qed.

(** ** [get_incidents] *)

Section IncidentOrigins.
Variable markdown2_markdown : string -> string.

(** Every incident is made from one of the issues, which passed both tests. *)
Lemma collect_incidents_origin (collaborators : list string)
    (system_color status_labels : json) (issues : list Issue)
    (incidents result : list Incident) :
  collect_incidents markdown2_markdown collaborators system_color status_labels
    issues incidents = Ok result ->
  forall incident, In incident result ->
    In incident incidents
    \/ exists issue severity,
         In issue issues
         /\ get_severity (issue_labels issue) status_labels = Ok severity
         /\ iter_systems (issue_labels issue) system_color <> []
         /\ (severity = None -> issue_state issue = "closed")
         /\ str_in_list (issue_user_login issue) collaborators = true
         /\ make_incident markdown2_markdown collaborators issue
              (sorted String.leb (iter_systems (issue_labels issue) system_color))
              severity
            = Ok incident.
Proof.
  revert incidents. induction issues as [|issue rest IH]; intros incidents.
  - simpl. intros [= <-] incident H. now left.
  - cbn [collect_incidents].
    destruct (get_severity (issue_labels issue) status_labels) as [severity|e] eqn:Hsev;
      cbn [bind]; [|discriminate].
    assert (Hrest : forall acc,
               collect_incidents markdown2_markdown collaborators system_color
                 status_labels rest acc = Ok result ->
               forall incident, In incident result ->
                 In incident acc
                 \/ exists issue0 severity0,
                      In issue0 (issue :: rest)
                      /\ get_severity (issue_labels issue0) status_labels = Ok severity0
                      /\ iter_systems (issue_labels issue0) system_color <> []
                      /\ (severity0 = None -> issue_state issue0 = "closed")
                      /\ str_in_list (issue_user_login issue0) collaborators = true
                      /\ make_incident markdown2_markdown collaborators issue0
                           (sorted String.leb
                              (iter_systems (issue_labels issue0) system_color))
                           severity0
                         = Ok incident).
    { intros acc Hacc incident Hin.
      destruct (IH acc Hacc incident Hin) as [H|(i & sv & Hi & H)]; [now left|].
      right. exists i, sv. split; [now right | exact H]. }
    rewrite sorted_is_empty.
    destruct (is_empty (iter_systems (issue_labels issue) system_color)) eqn:Hempty;
      cbn [orb]; [apply Hrest|].
    destruct (is_None severity && negb (String.eqb (issue_state issue) "closed")) eqn:Hnone;
      [apply Hrest|].
    destruct (str_in_list (issue_user_login issue) collaborators) eqn:Hauthor;
      cbn [negb]; [|apply Hrest].
    destruct (make_incident markdown2_markdown collaborators issue
                (sorted String.leb (iter_systems (issue_labels issue) system_color))
                severity) as [made|e] eqn:Hmade; cbn [bind]; [|discriminate].
    intros Hres incident Hin.
    destruct (Hrest _ Hres incident Hin) as [H|H]; [|now right].
    apply in_app_or in H. destruct H as [H|[<-|[]]]; [now left|].
    right. exists issue, severity. split; [now left|]. split; [exact Hsev|].
    split; [now destruct (iter_systems (issue_labels issue) system_color)|].
    split; [|split; [exact Hauthor | exact Hmade]].
    intros ->. cbn [is_None andb] in Hnone.
    apply negb_false_iff in Hnone. now apply String.eqb_eq.
Qed.

Lemma get_incidents_origin (collaborators : list string)
    (system_color status_labels : json) (issues : list Issue)
    (result : list Incident) :
  get_incidents markdown2_markdown collaborators issues system_color status_labels
  = Ok result ->
  forall incident, In incident result ->
    exists issue severity,
      In issue issues
      /\ get_severity (issue_labels issue) status_labels = Ok severity
      /\ iter_systems (issue_labels issue) system_color <> []
      /\ (severity = None -> issue_state issue = "closed")
      /\ str_in_list (issue_user_login issue) collaborators = true
      /\ make_incident markdown2_markdown collaborators issue
           (sorted String.leb (iter_systems (issue_labels issue) system_color))
           severity
         = Ok incident.
Proof.
  unfold get_incidents.
  destruct (collect_incidents markdown2_markdown collaborators system_color status_labels
              issues []) as [incidents|e] eqn:E; cbn [bind]; [|discriminate].
  intros [= <-] incident Hin.
  apply (Permutation_in _ (sorted_reverse_perm created_leb incidents)) in Hin.
  destruct (collect_incidents_origin _ _ _ _ _ _ E incident Hin) as [[]|H].
  exact H.
Qed.
End IncidentOrigins.

Lemma collect_updates_spec (markdown2_markdown : string -> string)
    (collaborators : list string) (comments : list Comment) :
  collect_updates markdown2_markdown collaborators comments
  = map (fun c => mkUpdate (comment_created_at c) (markdown2_markdown (comment_body c)))
      (filter (fun c => str_in_list (comment_user_login c) collaborators) comments).
Proof.
  induction comments as [|c r IH]; simpl; [reflexivity|].
  destruct (str_in_list (comment_user_login c) collaborators); simpl; now rewrite IH.
Qed.

(** X3. Whatever the status labels are, each incident [get_incidents]
    returns belongs to one of the issues, written by a collaborator: it has
    the creation time and the title of the issue, the description of the
    issue, which has one, converted from Markdown, the names of the issue's
    labels of the system colour, at least one, in ascending order, is closed
    exactly when the issue's state is "closed", and has no severity only when
    it is closed. *)
Theorem get_incidents_well_formed :
  forall (markdown2_markdown : string -> string) (collaborators : list string)
         (issues : list Issue) (system_color status_labels : json)
         (incidents : list Incident),
    get_incidents markdown2_markdown collaborators issues system_color status_labels
    = Ok incidents ->
    forall incident, In incident incidents ->
      exists issue,
        In issue issues
        /\ str_in_list (issue_user_login issue) collaborators = true
        /\ incident_created incident = issue_created_at issue
        /\ incident_title incident = issue_title issue
        /\ (exists body,
              issue_body issue = Some body
              /\ incident_body incident = markdown2_markdown body)
        /\ incident_closed incident = String.eqb (issue_state issue) "closed"
        /\ incident_systems incident <> []
        /\ StronglySorted (fun a b => String.leb a b = true) (incident_systems incident)
        /\ (forall s, In s (incident_systems incident) <->
                      In s (iter_systems (issue_labels issue) system_color))
        /\ get_severity (issue_labels issue) status_labels
           = Ok (incident_severity incident)
        /\ (incident_severity incident = None -> incident_closed incident = true).
Proof.
  intros md collaborators issues system_color status_labels incidents Hres
    incident Hin.
  destruct (get_incidents_origin md collaborators system_color status_labels
              issues incidents Hres incident Hin)
    as (issue & severity & Hi & Hsev & Hne & Hclosed & Hauthor & Hmade).
  unfold make_incident, markdown in Hmade.
  destruct (issue_body issue) as [body|] eqn:Hbody; [|discriminate].
  injection Hmade as <-.
  exists issue. cbn [incident_created incident_title incident_body
                     incident_closed incident_systems incident_severity].
  repeat split; auto.
  - now exists body.
  - intros H. apply Hne.
    pose proof (sorted_is_empty String.leb
                  (iter_systems (issue_labels issue) system_color)) as E.
    rewrite H in E. simpl in E.
    now destruct (iter_systems (issue_labels issue) system_color).
  - apply (sorted_ordered String.leb String.leb_total string_leb_trans).
  - apply In_sorted.
  - apply In_sorted.
  - intros H. rewrite (Hclosed H). reflexivity.
Qed.

Lemma get_incidents_well_formed_witness :
  exists issue,
    In issue [commented_issue]
    /\ str_in_list (issue_user_login issue) ["alice"] = true
    /\ incident_created commented_incident = issue_created_at issue
    /\ incident_title commented_incident = issue_title issue
    /\ (exists body,
          issue_body issue = Some body
          /\ incident_body commented_incident = markdown_example body)
    /\ incident_closed commented_incident = String.eqb (issue_state issue) "closed"
    /\ incident_systems commented_incident <> []
    /\ StronglySorted (fun a b => String.leb a b = true)
         (incident_systems commented_incident)
    /\ (forall s, In s (incident_systems commented_incident) <->
                  In s (iter_systems (issue_labels issue) system_color_example))
    /\ get_severity (issue_labels issue) (JObj status_labels_example)
       = Ok (incident_severity commented_incident)
    /\ (incident_severity commented_incident = None ->
        incident_closed commented_incident = true).
Proof.
  exact (get_incidents_well_formed markdown_example ["alice"] [commented_issue]
           system_color_example (JObj status_labels_example) [commented_incident]
           eq_refl commented_incident (or_introl eq_refl)).
Defined.


(** X4. The updates of an incident are the comments of its issue that a
    collaborator wrote, each with its creation time and its body converted
    from Markdown, in the order of the comments; the comments of other users
    are left out. *)
Theorem get_incidents_updates_by_collaborators :
  forall (markdown2_markdown : string -> string) (collaborators : list string)
         (issues : list Issue) (system_color status_labels : json)
         (incidents : list Incident),
    get_incidents markdown2_markdown collaborators issues system_color status_labels
    = Ok incidents ->
    forall incident, In incident incidents ->
      exists issue,
        In issue issues
        /\ incident_title incident = issue_title issue
        /\ incident_created incident = issue_created_at issue
        /\ incident_updates incident
           = map (fun c => mkUpdate (comment_created_at c)
                             (markdown2_markdown (comment_body c)))
               (filter (fun c => str_in_list (comment_user_login c) collaborators)
                  (issue_comments issue)).
Proof.
  intros md collaborators issues system_color status_labels incidents Hres
    incident Hin.
  destruct (get_incidents_origin md collaborators system_color status_labels
              issues incidents Hres incident Hin)
    as (issue & severity & Hi & _ & _ & _ & _ & Hmade).
  unfold make_incident in Hmade.
  destruct (markdown md (issue_body issue)) as [body|e]; [|discriminate].
  injection Hmade as <-.
  exists issue. cbn [incident_title incident_created incident_updates].
  repeat split; auto. apply collect_updates_spec.
Qed.

Lemma get_incidents_updates_by_collaborators_witness :
  exists issue,
    In issue [commented_issue]
    /\ incident_title commented_incident = issue_title issue
    /\ incident_created commented_incident = issue_created_at issue
    /\ incident_updates commented_incident
       = map (fun c => mkUpdate (comment_created_at c)
                         (markdown_example (comment_body c)))
           (filter (fun c => str_in_list (comment_user_login c) ["alice"])
              (issue_comments issue)).
Proof.
  exact (get_incidents_updates_by_collaborators markdown_example ["alice"]
           [commented_issue] system_color_example (JObj status_labels_example)
           [commented_incident] eq_refl commented_incident (or_introl eq_refl)).
Defined.


(** ** [get_panels] *)

Lemma In_systems_with_status (st : option string) (systems : Systems) (name : string) :
  In name (systems_with_status st systems)
  <-> exists data, In (name, data) systems /\ status data = st.
Proof.
  unfold systems_with_status. rewrite in_map_iff. split.
  - intros ([n data] & <- & H). apply filter_In in H. destruct H as [H E].
    exists data. split; [exact H | now apply status_eqb_eq].
  - intros (data & H & E). exists (name, data). split; [reflexivity|].
    apply filter_In. split; [exact H | now apply status_eqb_eq].
Qed.

(** X5. The panels split the systems that are not operational by status:
    no status is the key of two panels, "operational" is never a key, no
    panel is empty, a panel holds exactly the systems with its status, and
    every system with another status than "operational" is in the panel of
    its status. *)
Theorem get_panels_partition :
  forall systems : Systems,
    let panels := get_panels systems in
    NoDup (map fst panels)
    /\ ~ In (Some "operational") (map fst panels)
    /\ (forall st names, In (st, names) panels ->
          names <> []
          /\ forall name, In name names <->
                          exists data, In (name, data) systems /\ status data = st)
    /\ (forall name data, In (name, data) systems ->
          status data <> Some "operational" ->
          exists names, In (status data, names) panels /\ In name names).
Proof.
  intros systems panels. subst panels.
  replace (get_panels systems) with (panels_spec systems)
    by (symmetry; exact (get_panels_from [] systems)).
  unfold panels_spec.
  rewrite map_map. cbn [fst]. rewrite map_id.
  split; [|split; [|split]].
  - apply (uniq_first_NoDup status_eqb status_eqb_eq).
  - intros H. apply In_affected_statuses in H. destruct H as [H _]. discriminate.
  - intros st names H. apply in_map_iff in H. destruct H as (st' & [= <- <-] & H).
    split; [|apply In_systems_with_status].
    apply In_affected_statuses in H. destruct H as [_ H].
    apply in_map_iff in H. destruct H as ([name data] & E & H).
    intros Hnil.
    assert (Hin : In name (systems_with_status st' systems)).
    { apply In_systems_with_status. exists data. auto. }
    rewrite Hnil in Hin. exact Hin.
  - intros name data H Hop.
    exists (systems_with_status (status data) systems). split.
    + apply in_map_iff. exists (status data). split; [reflexivity|].
      apply In_affected_statuses. split.
      * unfold is_operational. apply not_true_iff_false. intros E.
        apply status_eqb_eq in E. contradiction.
      * apply in_map_iff. exists (name, data). auto.
    + apply In_systems_with_status. exists data. auto.
Qed.

(** ** [is_same_content] *)

(** X6. [is_same_content] is transitive: two contents that each have the
    content of a third have the content of each other. *)
Theorem is_same_content_transitive :
  forall (PY3 : bool) (hashlib_sha1_hexdigest : list byte -> string) (x y z : content),
    is_same_content PY3 hashlib_sha1_hexdigest x y = Ok true ->
    is_same_content PY3 hashlib_sha1_hexdigest y z = Ok true ->
    is_same_content PY3 hashlib_sha1_hexdigest x z = Ok true.
Proof.
  intros PY3 sha x y z. rewrite !is_same_content_digests.
  destruct (sha1 PY3 sha x), (sha1 PY3 sha y), (sha1 PY3 sha z);
    try discriminate; intros [= H1] [= H2];
    apply String.eqb_eq in H1; apply String.eqb_eq in H2;
    f_equal; apply String.eqb_eq; congruence.
Qed.

Lemma is_same_content_transitive_witness :
  is_same_content true hexdigest_example (Bytes (b64decode_example "new page"))
    (Bytes (b64decode_example "new page")) = Ok true.
Proof.
  exact (is_same_content_transitive true hexdigest_example
           (Bytes (b64decode_example "new page")) (Str "new page")
           (Bytes (b64decode_example "new page")) eq_refl eq_refl).
Defined.


(** ** [get_severity] *)

Lemma py_in_raises (s : string) (v : json) (e : exn) :
  py_in s v = Raise e -> e = TypeError /\ forall t, py_in t v = Raise TypeError.
Proof.
  destruct v; simpl; try discriminate; intros [= <-]; split; reflexivity.
Qed.

(** X19. [get_severity] returns the name of the first label whose name is
    in the status labels, and [None] exactly when no label has such a name,
    so also for no labels at all, whatever the status labels are.  It fails
    only with the [TypeError] of a membership test on status labels that
    are no container, and then whenever there is a label. *)
Theorem get_severity_first_match :
  forall (labels : list Label) (status_labels : json),
    (forall name,
       get_severity labels status_labels = Ok (Some name) <->
       exists before label after,
         labels = before ++ label :: after
         /\ label_name label = name
         /\ py_in name status_labels = Ok true
         /\ Forall (fun l => py_in (label_name l) status_labels = Ok false) before)
    /\ (get_severity labels status_labels = Ok None <->
        Forall (fun l => py_in (label_name l) status_labels = Ok false) labels)
    /\ (forall e,
          get_severity labels status_labels = Raise e <->
          e = TypeError /\ labels <> []
          /\ forall s, py_in s status_labels = Raise TypeError).
Proof.
  intros labels status_labels.
  induction labels as [|l r (IHsome & IHnone & IHraise)]; cbn [get_severity].
  - split; [|split].
    + intros name. split; [discriminate|].
      intros (before & label & after & H & _). now destruct before.
    + split; [constructor | reflexivity].
    + intros e. split; [discriminate | now intros (_ & H & _)].
  - destruct (py_in (label_name l) status_labels) as [[|]|e0] eqn:E; cbn [bind].
    + split; [|split].
      * intros name. split.
        -- intros [= <-]. exists [], l, r. repeat split; auto.
        -- intros (before & label & after & H & Hname & Hin & Hbefore).
           destruct before as [|b before]; cbn [app] in H; injection H as -> ->.
           ++ now rewrite Hname.
           ++ apply Forall_inv in Hbefore. congruence.
      * split; [discriminate|]. intros H. apply Forall_inv in H. congruence.
      * intros e. split; [discriminate|]. intros (_ & _ & H). congruence.
    + split; [|split].
      * intros name. rewrite IHsome. split.
        -- intros (before & label & after & -> & Hname & Hin & Hbefore).
           exists (l :: before), label, after. repeat split; auto.
        -- intros (before & label & after & H & Hname & Hin & Hbefore).
           destruct before as [|b before]; cbn [app] in H; injection H as -> ->.
           ++ congruence.
           ++ exists before, label, after. repeat split; auto.
              now apply Forall_inv_tail in Hbefore.
      * rewrite IHnone. split.
        -- intros H. now constructor.
        -- intros H. now apply Forall_inv_tail in H.
      * intros e. split.
        -- intros H. apply IHraise in H. destruct H as (-> & _ & H). congruence.
        -- intros (_ & _ & H). congruence.
    + destruct (py_in_raises _ _ _ E) as [-> Hall]. split; [|split].
      * intros name. split; [discriminate|].
        intros (before & label & after & _ & _ & Hin & _). congruence.
      * split; [discriminate|]. intros H. apply Forall_inv in H. congruence.
      * intros e. split.
        -- intros [= <-]. repeat split; [discriminate | exact Hall].
        -- now intros (-> & _ & _).
Qed.


(** ** [get_config] *)

Lemma od_set_keys_app {V : Type} (k : string) (v : V) (d : list (string * V)) :
  map fst (od_set String.eqb k v d)
  = map fst d ++ (if str_in_list k (map fst d) then [] else [k]).
Proof.
  unfold str_in_list. induction d as [|[k' v'] r IH]; simpl; [reflexivity|].
  destruct (String.eqb k k'); simpl.
  - now rewrite app_nil_r.
  - now rewrite IH.
Qed.

Lemma dict_update_keys (d other : dict) :
  exists added, map fst (dict_update d other) = map fst d ++ added.
Proof.
  unfold dict_update. revert d. induction other as [|[k v] r IH]; intros d; simpl.
  - exists []. now rewrite app_nil_r.
  - destruct (IH (od_set String.eqb k v d)) as [added H].
    rewrite H, od_set_keys_app, <- app_assoc. eexists. reflexivity.
Qed.

Lemma dict_update_covers (d other : dict) (k : string) :
  In k (map fst other) -> In k (map fst (dict_update d other)).
Proof.
  intros H. apply od_get_In. rewrite dict_update_get.
  assert (Hrev : In k (map fst (rev other))).
  { rewrite map_rev. now apply in_rev in H. }
  apply od_get_In in Hrev.
  destruct (od_get String.eqb k (rev other)); [discriminate | contradiction].
Qed.

Lemma dict_update_same_keys (d other : dict) :
  (forall k, In k (map fst other) -> In k (map fst d)) ->
  map fst (dict_update d other) = map fst d.
Proof.
  unfold dict_update. revert d. induction other as [|[k v] r IH]; intros d H; simpl.
  - reflexivity.
  - assert (Hk : In k (map fst d)) by (apply H; now left).
    rewrite IH; [now apply od_set_keys|].
    intros k' Hk'. rewrite (od_set_keys _ _ _ Hk). apply H. now right.
Qed.

Section ConfigEffect.
Variable base64_b64decode : string -> list byte.
Variable json_loads : string -> option dict.

(** All that [get_config] does to [DEFAULT_CONFIG]. *)
Lemma get_config_effect (repo : Repo) (branch_pages : string) (st : pystate) :
  DEFAULT_CONFIG (snd (get_config base64_b64decode json_loads repo branch_pages st))
  = match remote_config base64_b64decode json_loads repo branch_pages with
    | Some d => dict_update (DEFAULT_CONFIG st) d
    | None => DEFAULT_CONFIG st
    end.
Proof.
  unfold remote_config, get_config, get_files, get_contents, try_except, echo.
  unfold bindM, emit, lift, ret, raise, read_DEFAULT_CONFIG, write_DEFAULT_CONFIG.
  cbn [fst snd DEFAULT_CONFIG log].
  destruct (repo_get_contents repo "/" "gh-pages") as [[f|entries]|e];
    cbn [fst snd DEFAULT_CONFIG log]; try reflexivity.
  destruct (str_in_list "config.json" (map cf_path entries));
    cbn [fst snd DEFAULT_CONFIG log]; [|reflexivity].
  destruct (repo_get_contents repo "config.json" branch_pages) as [[f|entries']|e];
    cbn [fst snd DEFAULT_CONFIG log as_file is_ValueError]; try reflexivity.
  unfold decoded_content.
  destruct (decode_utf8 (base64_b64decode (cf_content f))) as [text|e] eqn:E;
    cbn [fst snd DEFAULT_CONFIG log].
  - unfold loads. destruct (json_loads text); reflexivity.
  - unfold decode_utf8 in E. destruct (utf8_valid _); [discriminate|].
    injection E as <-. reflexivity.
Qed.
End ConfigEffect.

(** X7. [get_config] never takes a key out of [DEFAULT_CONFIG] and never
    moves one: after a call, whatever its outcome, the keys from before are
    still there, in their order, followed by the keys a remote configuration
    may have added.  So a key of the built-in defaults, such as
    "system-color", can be looked up after any number of calls. *)
Theorem get_config_keeps_keys :
  forall (base64_b64decode : string -> list byte) (json_loads : string -> option dict)
         (repo : Repo) (branch_pages : string) (st : pystate),
    exists added,
      map fst (DEFAULT_CONFIG
                 (snd (get_config base64_b64decode json_loads repo branch_pages st)))
      = map fst (DEFAULT_CONFIG st) ++ added.
Proof.
  intros b64 loads repo branch_pages st. rewrite get_config_effect.
  destruct (remote_config b64 loads repo branch_pages) as [d|].
  - apply dict_update_keys.
  - exists []. now rewrite app_nil_r.
Qed.

(** X8. A second call of [get_config] on an unchanged repository changes
    nothing more: [DEFAULT_CONFIG] has the keys and the values the first call
    left. *)
Theorem get_config_twice :
  forall (base64_b64decode : string -> list byte) (json_loads : string -> option dict)
         (repo : Repo) (branch_pages : string) (st : pystate),
    let once := snd (get_config base64_b64decode json_loads repo branch_pages st) in
    let twice := snd (get_config base64_b64decode json_loads repo branch_pages once) in
    map fst (DEFAULT_CONFIG twice) = map fst (DEFAULT_CONFIG once)
    /\ forall k, od_get String.eqb k (DEFAULT_CONFIG twice)
                 = od_get String.eqb k (DEFAULT_CONFIG once).
Proof.
  intros b64 loads repo branch_pages st once twice. subst once twice.
  rewrite !get_config_effect.
  destruct (remote_config b64 loads repo branch_pages) as [d|]; [|now split].
  split.
  - apply dict_update_same_keys. intros k. apply dict_update_covers.
  - intros k. rewrite !dict_update_get.
    now destruct (od_get String.eqb k (rev d)).
Qed.


(** X9. What [get_config] does depends on the listing of "gh-pages".  With
    no [config.json] listed it makes that one call and leaves
    [DEFAULT_CONFIG] as it is.  With a [config.json] listed it fetches the
    file on the pages branch: if the text parses, each key of the remote
    object gets the remote value, whole, and the other keys keep theirs; if
    it does not parse, a warning is printed and [DEFAULT_CONFIG] stays as it
    is; and if the fetch fails, [get_config] fails with that exception. *)
Theorem get_config_by_listing :
  forall (base64_b64decode : string -> list byte) (json_loads : string -> option dict)
         (repo : Repo) (branch_pages : string) (st : pystate)
         (entries : list ContentFile),
    repo_get_contents repo "/" "gh-pages" = Ok (Dir entries) ->
    let result := get_config base64_b64decode json_loads repo branch_pages st in
    (str_in_list "config.json" (map cf_path entries) = false ->
     result = (Ok DEFAULT_CONFIG_object,
               mkState (DEFAULT_CONFIG st) (log st ++ [GetContents "/" "gh-pages"])))
    /\ (forall f text d,
          str_in_list "config.json" (map cf_path entries) = true ->
          repo_get_contents repo "config.json" branch_pages = Ok (File f) ->
          decode_utf8 (base64_b64decode (cf_content f)) = Ok text ->
          json_loads text = Some d ->
          fst result = Ok DEFAULT_CONFIG_object
          /\ log (snd result)
             = log st ++ [GetContents "/" "gh-pages"]
                 ++ [GetContents "config.json" branch_pages]
          /\ forall k, od_get String.eqb k (DEFAULT_CONFIG (snd result))
                       = match od_get String.eqb k (rev d) with
                         | Some v => Some v
                         | None => od_get String.eqb k (DEFAULT_CONFIG st)
                         end)
    /\ (forall f,
          str_in_list "config.json" (map cf_path entries) = true ->
          repo_get_contents repo "config.json" branch_pages = Ok (File f) ->
          (forall text, decode_utf8 (base64_b64decode (cf_content f)) = Ok text ->
                        json_loads text = None) ->
          result = (Ok DEFAULT_CONFIG_object,
                    mkState (DEFAULT_CONFIG st)
                      (log st ++ [GetContents "/" "gh-pages"]
                         ++ [GetContents "config.json" branch_pages]
                         ++ [Echo "WARNING: Unable to parse config file. Using defaults."])))
    /\ (forall e,
          str_in_list "config.json" (map cf_path entries) = true ->
          repo_get_contents repo "config.json" branch_pages = Raise e ->
          result = (Raise e,
                    mkState (DEFAULT_CONFIG st)
                      (log st ++ [GetContents "/" "gh-pages"]
                         ++ [GetContents "config.json" branch_pages]))).
Proof.
  intros b64 loads repo branch_pages st entries Hdir result. subst result.
  split; [|split; [|split]].
  - intros Hin. exact (get_config_absent b64 loads repo branch_pages st entries Hdir Hin).
  - intros f text d Hin Hfile Htext Hd.
    rewrite (get_config_merged b64 loads repo branch_pages st entries f text d
               Hdir Hin Hfile Htext Hd).
    cbn [fst snd log DEFAULT_CONFIG]. repeat split. intros k. apply dict_update_get.
  - intros f Hin Hfile Hbad.
    exact (get_config_unparsable b64 loads repo branch_pages st entries f
             Hdir Hin Hfile Hbad).
  - intros e Hin Hfile.
    unfold get_config, get_files, get_contents.
    unfold bindM, emit, lift, ret. cbn [fst snd DEFAULT_CONFIG log].
    rewrite Hdir, Hin. cbn [fst snd DEFAULT_CONFIG log]. rewrite Hfile.
    now rewrite <- app_assoc.
Qed.

Lemma get_config_by_listing_witness :
  let result := get_config b64decode_example json_loads_example
                  repo_configured_example "gh-pages" initial_state in
  fst result = Ok DEFAULT_CONFIG_object
  /\ log (snd result)
     = [GetContents "/" "gh-pages"; GetContents "config.json" "gh-pages"]
  /\ forall k, od_get String.eqb k (DEFAULT_CONFIG (snd result))
               = match od_get String.eqb k (rev remote_config_example) with
                 | Some v => Some v
                 | None => od_get String.eqb k DEFAULT_CONFIG_initial
                 end.
Proof.
  exact (proj1 (proj2 (get_config_by_listing b64decode_example json_loads_example
                         repo_configured_example "gh-pages" initial_state
                         [template_file_example; config_file_example] eq_refl))
           config_file_example "custom config" remote_config_example
           eq_refl eq_refl eq_refl eq_refl).
Defined.


(** ** What [run_update] writes *)

Section EmitRules.
Context {A B : Type}.

Lemma emits_weaken (m : M A) (R R' : outcome A -> list event -> Prop) :
  (forall o evs, R o evs -> R' o evs) -> emits m R -> emits m R'.
Proof.
  intros HR Hm st. destruct (Hm st) as (evs & Hlog & H). exists evs. auto.
Qed.

Lemma emits_ret (a : A) (R : outcome A -> list event -> Prop) :
  R (Ok a) [] -> emits (ret a) R.
Proof. intros H st. exists []. simpl. now rewrite app_nil_r. Qed.

Lemma emits_lift (o : outcome A) (R : outcome A -> list event -> Prop) :
  R o [] -> emits (lift o) R.
Proof. intros H st. exists []. simpl. now rewrite app_nil_r. Qed.

Lemma emits_bind (m : M A) (k : A -> M B)
    (R1 : outcome A -> list event -> Prop) (R2 : A -> outcome B -> list event -> Prop)
    (R : outcome B -> list event -> Prop) :
  emits m R1 ->
  (forall a, emits (k a) (R2 a)) ->
  (forall e evs, R1 (Raise e) evs -> R (Raise e) evs) ->
  (forall a evs1 o evs2, R1 (Ok a) evs1 -> R2 a o evs2 -> R o (evs1 ++ evs2)) ->
  emits (bindM m k) R.
Proof.
  intros Hm Hk Hraise Hok st. unfold bindM.
  destruct (Hm st) as (evs1 & Hlog1 & H1).
  destruct (m st) as [[a|e] st1]; cbn [fst snd] in *.
  - destruct (Hk a st1) as (evs2 & Hlog2 & H2).
    exists (evs1 ++ evs2). split; [|now apply (Hok a)].
    now rewrite Hlog2, Hlog1, app_assoc.
  - exists evs1. split; [exact Hlog1 | now apply Hraise].
Qed.

Lemma emits_try_except (m : M A) (handles : exn -> bool) (handler : M A)
    (R1 R2 R : outcome A -> list event -> Prop) :
  emits m R1 ->
  emits handler R2 ->
  (forall a evs, R1 (Ok a) evs -> R (Ok a) evs) ->
  (forall e evs, handles e = false -> R1 (Raise e) evs -> R (Raise e) evs) ->
  (forall e evs1 o evs2, handles e = true -> R1 (Raise e) evs1 -> R2 o evs2 ->
                         R o (evs1 ++ evs2)) ->
  emits (try_except m handles handler) R.
Proof.
  intros Hm Hh Hok Hpass Hcaught st. unfold try_except.
  destruct (Hm st) as (evs1 & Hlog1 & H1).
  destruct (m st) as [[a|e] st1]; cbn [fst snd] in *.
  - exists evs1. split; [exact Hlog1 | now apply Hok].
  - destruct (handles e) eqn:E.
    + destruct (Hh st1) as (evs2 & Hlog2 & H2).
      exists (evs1 ++ evs2). split; [|now apply (Hcaught e)].
      now rewrite Hlog2, Hlog1, app_assoc.
    + exists evs1. split; [exact Hlog1 | now apply Hpass].
Qed.
End EmitRules.

Lemma emits_emit (ev : event) (R : outcome unit -> list event -> Prop) :
  R (Ok tt) [ev] -> emits (emit ev) R.
Proof. intros H st. exists [ev]. auto. Qed.

Lemma no_write_app (evs1 evs2 : list event) :
  no_write evs1 -> no_write evs2 -> no_write (evs1 ++ evs2).
Proof. unfold no_write. intros H1 H2. now rewrite forallb_app, H1, H2. Qed.

Lemma quiet_bind {A B : Type} (m : M A) (k : A -> M B) :
  quiet m -> (forall a, quiet (k a)) -> quiet (bindM m k).
Proof.
  intros Hm Hk. unfold quiet in *.
  eapply emits_bind; [exact Hm | exact Hk | auto |].
  intros a evs1 o evs2. apply no_write_app.
Qed.

Lemma quiet_lift {A : Type} (o : outcome A) : quiet (lift o).
Proof. now apply emits_lift. Qed.

Lemma quiet_ret {A : Type} (a : A) : quiet (ret a).
Proof. now apply emits_ret. Qed.

Lemma quiet_emit (ev : event) : is_write ev = false -> quiet (emit ev).
Proof. intros H. apply emits_emit. unfold no_write. simpl. now rewrite H. Qed.

Lemma quiet_try_except {A : Type} (m : M A) (handles : exn -> bool) (handler : M A) :
  quiet m -> quiet handler -> quiet (try_except m handles handler).
Proof.
  intros Hm Hh. unfold quiet in *.
  eapply emits_try_except; [exact Hm | exact Hh | auto | auto |].
  intros e evs1 o evs2 _. apply no_write_app.
Qed.

Lemma quiet_state {A : Type} (m : M A) :
  (forall st, log (snd (m st)) = log st) -> quiet m.
Proof. intros H st. exists []. rewrite H, app_nil_r. now split. Qed.

Lemma quiet_get_contents (repo : Repo) (path ref : string) :
  quiet (get_contents repo path ref).
Proof.
  unfold get_contents. apply quiet_bind; [now apply quiet_emit|].
  intros _. apply quiet_lift.
Qed.

Lemma quiet_get_git_ref (repo : Repo) (ref : string) : quiet (get_git_ref repo ref).
Proof.
  unfold get_git_ref. apply quiet_bind; [now apply quiet_emit|].
  intros _. apply quiet_lift.
Qed.

Lemma quiet_get_repo (gh : Github) (name : string) (org : option string) :
  quiet (get_repo gh name org).
Proof.
  unfold get_repo. destruct org as [o|]; [destruct (truthy (Some o))|]; apply quiet_lift.
Qed.

(** A quiet computation in front changes nothing to a shape of the writes
    that any quiet start may precede. *)
Lemma emits_after_quiet {A B : Type} (m : M A) (k : A -> M B)
    (R : outcome B -> list event -> Prop) :
  quiet m ->
  (forall a, emits (k a) R) ->
  (forall e evs, no_write evs -> R (Raise e) evs) ->
  (forall o evs1 evs2, no_write evs1 -> R o evs2 -> R o (evs1 ++ evs2)) ->
  emits (bindM m k) R.
Proof.
  intros Hm Hk Hraise Hpre.
  eapply emits_bind; [exact Hm | exact Hk | exact Hraise |].
  intros a evs1 o evs2. apply Hpre.
Qed.

Section UpdateShape.
Variable PY3 : bool.
Variable hashlib_sha1_hexdigest : list byte -> string.
Variable base64_b64decode : string -> list byte.
Variable json_loads : string -> option dict.
Variable markdown2_markdown : string -> string.
Variable Template_render : string -> Systems -> list Incident -> Panels -> dict -> string.

Lemma quiet_get_config (repo : Repo) (branch_pages : string) :
  quiet (get_config base64_b64decode json_loads repo branch_pages).
Proof.
  unfold get_config, get_files, echo.
  apply quiet_bind.
  - apply quiet_bind; [apply quiet_get_contents|].
    intros c. destruct c; [now apply quiet_lift | apply quiet_ret].
  - intros files. apply quiet_bind; [|intros _; apply quiet_ret].
    destruct (str_in_list "config.json" files); [|apply quiet_ret].
    apply quiet_bind; [apply quiet_get_contents|]. intros config_file.
    apply quiet_try_except; [|now apply quiet_emit].
    repeat (apply quiet_bind; [apply quiet_lift|]; intros ?).
    apply quiet_bind; [|intros ?]; apply quiet_state; reflexivity.
Qed.

Lemma update_shape_after (o : outcome (option bool)) (evs1 evs2 : list event) :
  no_write evs1 -> update_shape o evs2 -> update_shape o (evs1 ++ evs2).
Proof.
  intros H1 (reads & writes & -> & Hr & Hw & Hfalse & Hnone).
  exists (evs1 ++ reads), writes. rewrite app_assoc.
  repeat split; auto. now apply no_write_app.
Qed.

Lemma update_shape_intro (o : outcome (option bool)) (reads writes : list event) :
  no_write reads -> update_writes writes ->
  (o = Ok (Some false) -> writes = []) -> (o = Ok None -> writes <> []) ->
  update_shape o (reads ++ writes).
Proof. intros. exists reads, writes. auto. Qed.

Lemma update_shape_raise (e : exn) (evs : list event) :
  no_write evs -> update_shape (Raise e) evs.
Proof.
  intros H. rewrite <- (app_nil_r evs).
  apply update_shape_intro; [exact H | now left | discriminate | discriminate].
Qed.

Lemma update_writes_update (sha content : string) :
  update_writes [UpdateFile "index.html" sha "update index" content "gh-pages"].
Proof. right. exists sha, content. auto. Qed.

Lemma update_writes_create (content : string) :
  update_writes [CreateFile "index.html" "initial" content "gh-pages"].
Proof. right. exists "", content. auto. Qed.

Lemma update_writes_both (sha content : string) :
  update_writes [UpdateFile "index.html" sha "update index" content "gh-pages";
                 CreateFile "index.html" "initial" content "gh-pages"].
Proof. right. exists sha, content. auto. Qed.

(** The last part of [run_update]: the [try] statement. *)
Lemma emits_publish (repo : Repo) (sha content : string) :
  emits
    (try_except
       (index <- get_contents repo "/index.html" sha ;;
        idx <- lift (as_file index) ;;
        same <- lift (is_same_content PY3 hashlib_sha1_hexdigest (Str content)
                        (Bytes (base64_b64decode (cf_content idx)))) ;;
        if same then
          (echo "Local status matches remote status, no need to commit." ;;;
           ret (Some false))
        else
          (update_file repo "index.html" (cf_sha idx) "update index" content "gh-pages" ;;;
           ret None))
       is_UnknownObjectException
       (create_file repo "index.html" "initial" content "gh-pages" ;;; ret None))%io
    update_shape.
Proof.
  intros st. unfold try_except, get_contents, update_file, create_file, echo.
  unfold bindM, emit, lift, ret. cbn [fst snd DEFAULT_CONFIG log].
  set (read := GetContents "/index.html" sha).
  set (create := CreateFile "index.html" "initial" content "gh-pages").
  set (matches := Echo "Local status matches remote status, no need to commit.").
  destruct (repo_get_contents repo "/index.html" sha) as [[idx|entries]|e];
    cbn [fst snd DEFAULT_CONFIG log as_file is_UnknownObjectException].
  - destruct (is_same_content PY3 hashlib_sha1_hexdigest (Str content)
                (Bytes (base64_b64decode (cf_content idx)))) as [[|]|e];
      cbn [fst snd DEFAULT_CONFIG log is_UnknownObjectException].
    + exists ([read; matches] ++ []). split; [now rewrite <- app_assoc|].
      apply update_shape_intro; [reflexivity | now left | reflexivity | discriminate].
    + set (update := UpdateFile "index.html" (cf_sha idx) "update index" content "gh-pages").
      destruct (repo_update_file repo "index.html" (cf_sha idx) "update index" content
                  "gh-pages") as [[]|e];
        cbn [fst snd DEFAULT_CONFIG log].
      * exists ([read] ++ [update]). split; [now rewrite <- app_assoc|].
        apply update_shape_intro;
          [reflexivity | apply update_writes_update | discriminate | discriminate].
      * destruct (is_UnknownObjectException e) eqn:E; cbn [fst snd log].
        -- destruct (repo_create_file repo "index.html" "initial" content "gh-pages");
             cbn [fst snd log];
             (exists ([read] ++ [update; create]); split; [now rewrite <- !app_assoc|];
              apply update_shape_intro;
              [reflexivity | apply update_writes_both | discriminate | discriminate]).
        -- exists ([read] ++ [update]). split; [now rewrite <- app_assoc|].
           apply update_shape_intro;
             [reflexivity | apply update_writes_update | discriminate | discriminate].
    + destruct (is_UnknownObjectException e) eqn:E; cbn [fst snd log].
      * destruct (repo_create_file repo "index.html" "initial" content "gh-pages");
          cbn [fst snd log];
          (exists ([read] ++ [create]); split; [now rewrite <- app_assoc|];
           apply update_shape_intro;
           [reflexivity | apply update_writes_create | discriminate | discriminate]).
      * exists [read]. split; [reflexivity | now apply update_shape_raise].
  - exists [read]. split; [reflexivity | now apply update_shape_raise].
  - destruct (is_UnknownObjectException e) eqn:E; cbn [fst snd log].
    + destruct (repo_create_file repo "index.html" "initial" content "gh-pages");
        cbn [fst snd log];
        (exists ([read] ++ [create]); split; [now rewrite <- app_assoc|];
         apply update_shape_intro;
         [reflexivity | apply update_writes_create | discriminate | discriminate]).
    + exists [read]. split; [reflexivity | now apply update_shape_raise].
Qed.

Lemma emits_run_update (gh : Github) (name : string) (org : option string)
    (branch_pages : string) :
  emits
    (run_update PY3 hashlib_sha1_hexdigest base64_b64decode json_loads markdown2_markdown
       Template_render gh name org branch_pages)
    update_shape.
Proof.
  unfold run_update, echo.
  apply emits_after_quiet;
    [now apply quiet_emit | intros _ | apply update_shape_raise | apply update_shape_after].
  apply emits_after_quiet;
    [apply quiet_get_repo | intros repo | apply update_shape_raise | apply update_shape_after].
  apply emits_after_quiet;
    [apply quiet_get_git_ref | intros sha | apply update_shape_raise
     | apply update_shape_after].
  apply emits_after_quiet;
    [apply quiet_get_contents | intros template_file | apply update_shape_raise
     | apply update_shape_after].
  apply emits_after_quiet;
    [apply quiet_get_config | intros config | apply update_shape_raise
     | apply update_shape_after].
  apply emits_after_quiet;
    [apply quiet_state; reflexivity | intros cfg | apply update_shape_raise
     | apply update_shape_after].
  repeat (apply emits_after_quiet;
          [apply quiet_lift | intros ? | apply update_shape_raise
           | apply update_shape_after]).
  apply emits_publish.
Qed.
End UpdateShape.

(** X10. [run_update] first reads and then writes, and it writes little: to
    the events that write no file it adds nothing, or the update of
    [index.html], or its creation, or the update and then the creation (when
    the update raised [UnknownObjectException]), with one content, on
    "gh-pages".  When it returns [False] it has written nothing; when it
    returns [None] it has written. *)
Theorem run_update_reads_then_writes :
  forall (PY3 : bool) (hashlib_sha1_hexdigest : list byte -> string)
         (base64_b64decode : string -> list byte)
         (json_loads : string -> option dict)
         (markdown2_markdown : string -> string)
         (Template_render : string -> Systems -> list Incident -> Panels -> dict -> string)
         (gh : Github) (name : string) (org : option string) (branch_pages : string)
         (st : pystate),
    let result := run_update PY3 hashlib_sha1_hexdigest base64_b64decode json_loads
                    markdown2_markdown Template_render gh name org branch_pages st in
    exists reads writes,
      log (snd result) = log st ++ reads ++ writes
      /\ no_write reads
      /\ update_writes writes
      /\ (fst result = Ok (Some false) -> writes = [])
      /\ (fst result = Ok None -> writes <> []).
Proof.
  intros PY3 sha b64 loads markdown render gh name org branch_pages st result.
  destruct (emits_run_update PY3 sha b64 loads markdown render gh name org branch_pages st)
    as (evs & Hlog & reads & writes & -> & H).
  exists reads, writes. split; [exact Hlog | exact H].
Qed.


(** ** [run_upgrade] *)

Lemma logs_for_each {A : Type} (P : event -> Prop) (l : list A) (body : A -> M unit) :
  (forall x, In x l -> logs_only P (body x) (fun _ => True)) ->
  logs_only P (for_each l body) (fun _ => True).
Proof.
  induction l as [|x r IH]; intros H; cbn [for_each].
  - now apply logs_ret.
  - apply (logs_bind _ _ _ (fun _ => True)); [apply H; now left|].
    intros _ _. apply IH. intros y Hy. apply H. now right.
Qed.

Lemma logs_get_contents_value (P : event -> Prop) (repo : Repo) (path ref : string) :
  P (GetContents path ref) ->
  logs_only P (get_contents repo path ref)
    (fun c => repo_get_contents repo path ref = Ok c).
Proof.
  intros H. unfold get_contents.
  apply (logs_bind _ _ _ (fun _ => True)); [now apply logs_emit|].
  intros _ _. apply logs_lift.
Qed.

Section UpgradeEvents.
Variable PY3 : bool.
Variable hashlib_sha1_hexdigest : list byte -> string.
Variable base64_b64decode : string -> list byte.
Variable local_file : string -> option string.
Variable ROOT : string.

Let event_ok := upgrade_event_ok PY3 hashlib_sha1_hexdigest base64_b64decode local_file ROOT.

Lemma logs_upgrade_template (repo : Repo) (branch_pages head : string)
    (entries : list ContentFile) (template : json) :
  repo_get_contents repo "/" "gh-pages" = Ok (Dir entries) ->
  repo_git_ref repo ("heads/" ++ branch_pages)%string = Ok head ->
  logs_only (event_ok repo branch_pages)
    (upgrade_template PY3 hashlib_sha1_hexdigest base64_b64decode local_file ROOT
       repo (map cf_path entries) head branch_pages template)
    (fun _ => True).
Proof.
  intros Hdir Hhead. unfold upgrade_template.
  eapply logs_bind; [apply logs_lift|]. intros t _.
  eapply logs_bind; [apply logs_lift|]. intros content Hcontent.
  assert (Hlocal : local_file (path_join (path_join ROOT "template") t) = Some content).
  { unfold open_template, open_read in Hcontent.
    destruct PY3; [|discriminate].
    destruct (local_file (path_join (path_join ROOT "template") t));
      [congruence | discriminate]. }
  destruct (str_in_list t (map cf_path entries)) eqn:Hlisted.
  - eapply logs_bind.
    { apply logs_get_contents_value. right. exists t, entries. auto. }
    intros c Hc.
    eapply logs_bind; [apply logs_lift|]. intros f Hf.
    destruct c as [f'|]; [|discriminate]. injection Hf as ->.
    eapply logs_bind; [apply logs_lift|]. intros same Hsame.
    destruct same; cbn [negb]; [now apply logs_ret|].
    apply logs_update_file. cbn. repeat split; auto.
    exists head, f. auto.
  - apply logs_create_file. cbn. repeat split; auto.
    exists entries. auto.
Qed.

Lemma logs_run_upgrade (gh : Github) (name : string) (org : option string)
    (branch_pages : string) (repo : Repo) :
  (forall st, get_repo gh name org st = (Ok repo, st)) ->
  logs_only (event_ok repo branch_pages)
    (run_upgrade PY3 hashlib_sha1_hexdigest base64_b64decode local_file ROOT
       gh name org branch_pages)
    (fun _ => True).
Proof.
  intros Hrepo. unfold run_upgrade, echo, get_files.
  apply (logs_bind _ _ _ (fun _ => True)); [now apply logs_emit|]. intros _ _.
  apply (logs_bind _ _ _ (fun r => r = repo)).
  { intros st Hst. rewrite Hrepo. now split. }
  intros ? ->.
  apply (logs_bind _ _ _
           (fun files => exists entries,
                repo_get_contents repo "/" "gh-pages" = Ok (Dir entries)
                /\ files = map cf_path entries)).
  { eapply logs_bind; [apply logs_get_contents_value; left; auto|].
    intros c Hc. destruct c as [f|entries]; [apply logs_raise|].
    apply logs_ret. exists entries. auto. }
  intros files (entries & Hdir & ->).
  eapply logs_bind; [now apply logs_get_git_ref|]. intros head Hhead.
  apply (logs_bind _ _ _ (fun _ => True)); [apply logs_read_DEFAULT_CONFIG|].
  intros defaults _.
  apply (logs_bind _ _ _ (fun _ => True)); [apply logs_lift_any|]. intros templates _.
  apply (logs_bind _ _ _ (fun _ => True)); [apply logs_lift_any|]. intros items _.
  apply logs_for_each. intros template _.
  now apply logs_upgrade_template.
Qed.
End UpgradeEvents.

(** X11. [run_upgrade] asks for the head of the pages branch it is given and
    lists the files of "gh-pages".  It reads a template at that head only if
    the listing shows it, creates a template only if the listing does not
    show it, and updates one, with the sha of the remote file, only if
    [is_same_content] says the remote content differs.  What it writes is the
    text of the local file of that name, with the message "upgrade", on the
    pages branch it is given. *)
Theorem run_upgrade_events :
  forall (PY3 : bool) (hashlib_sha1_hexdigest : list byte -> string)
         (base64_b64decode : string -> list byte)
         (local_file : string -> option string) (ROOT : string)
         (gh : Github) (name : string) (org : option string) (branch_pages : string)
         (repo : Repo) (defaults : dict),
    fst (get_repo gh name org (mkState defaults [])) = Ok repo ->
    Forall (upgrade_event_ok PY3 hashlib_sha1_hexdigest base64_b64decode local_file ROOT
              repo branch_pages)
      (log (snd (run_upgrade PY3 hashlib_sha1_hexdigest base64_b64decode local_file ROOT
                   gh name org branch_pages (mkState defaults [])))).
Proof.
  intros PY3 sha b64 local_file ROOT gh name org branch_pages repo defaults Hrepo.
  destruct (get_repo_pure gh name org) as [o Ho].
  rewrite Ho in Hrepo. simpl in Hrepo. subst o.
  apply (logs_run_upgrade PY3 sha b64 local_file ROOT gh name org branch_pages repo Ho).
  constructor.
Qed.

Lemma run_upgrade_events_witness :
  Forall (upgrade_event_ok true hexdigest_example b64decode_example package_files_example
            "/pkg" repo_outdated_example "pages")
    [Echo "Upgrading..."; GetContents "/" "gh-pages"; GetGitRef "heads/pages";
     GetContents "/template.html" "sha-pages";
     UpdateFile "template.html" "sha-old" "upgrade" "new page" "pages";
     CreateFile "custom.html" "upgrade" "custom template" "pages"].
Proof.
  exact (run_upgrade_events true hexdigest_example b64decode_example package_files_example
           "/pkg" (github_example repo_outdated_example) "status" None "pages"
           repo_outdated_example (DEFAULT_CONFIG two_templates_state) eq_refl).
Defined.


(** ** [run_add_system] and [run_remove_system] *)

Section CommandFacts.
Variable PY3 : bool.
Variable hashlib_sha1_hexdigest : list byte -> string.
Variable base64_b64decode : string -> list byte.
Variable json_loads : string -> option dict.
Variable markdown2_markdown : string -> string.
Variable Template_render : string -> Systems -> list Incident -> Panels -> dict -> string.
Variable str_strip : string -> string.
Variable click_confirm : string -> bool.
Variable create_label : Repo -> string -> json -> outcome Github.
Variable get_label : Repo -> string -> outcome Label.
Variable delete_label : Repo -> Label -> outcome Github.

Let add_system :=
  run_add_system PY3 hashlib_sha1_hexdigest base64_b64decode json_loads markdown2_markdown
    Template_render str_strip click_confirm create_label.
Let remove_system :=
  run_remove_system PY3 hashlib_sha1_hexdigest base64_b64decode json_loads
    markdown2_markdown Template_render str_strip click_confirm get_label delete_label.
Let update :=
  run_update PY3 hashlib_sha1_hexdigest base64_b64decode json_loads markdown2_markdown
    Template_render.




Lemma run_remove_system_never_unknown (gh : Github) (name : string)
    (org : option string) (system : string) (prompt : bool) (branch_pages : string)
    (st : pystate) (repo : Repo) :
  get_repo gh name org st = (Ok repo, st) ->
  fst (remove_system gh name org system prompt branch_pages st)
  <> Raise UnknownObjectException.
Proof.
  intros Hrepo. unfold remove_system, run_remove_system.
  unfold bindM at 1. rewrite Hrepo. unfold try_except.
  match goal with |- context [match ?body st with _ => _ end] =>
    destruct (body st) as [[[]|e] st'] end.
  - discriminate.
  - destruct e; cbn [is_UnknownObjectException fst]; discriminate.
Qed.

Lemma run_add_system_never_422 (gh : Github) (name : string) (org : option string)
    (system : string) (prompt : bool) (branch_pages : string) (st st1 : pystate)
    (repo : Repo) (config : config_obj) :
  get_repo gh name org st = (Ok repo, st) ->
  get_config base64_b64decode json_loads repo branch_pages st = (Ok config, st1) ->
  fst (add_system gh name org system prompt branch_pages st)
  <> Raise (GithubException 422).
Proof.
  intros Hrepo Hconfig. unfold add_system, run_add_system.
  unfold bindM at 1. rewrite Hrepo. unfold bindM at 1. rewrite Hconfig.
  unfold try_except.
  match goal with |- context [match ?body st1 with _ => _ end] =>
    destruct (body st1) as [[[]|e] st'] end.
  - discriminate.
  - destruct (is_GithubException_422 e) eqn:E; cbn [fst]; [discriminate|].
    intros [= ->]. discriminate.
Qed.


Lemma quiet_add_system (gh : Github) (name : string) (org : option string)
    (system : string) (prompt : bool) (branch_pages : string) :
  prompt && click_confirm "Run update to re-generate the page?" = false ->
  quiet (add_system gh name org system prompt branch_pages).
Proof.
  intros Hno. unfold add_system, run_add_system. rewrite Hno.
  apply quiet_bind; [apply quiet_get_repo | intros repo].
  apply quiet_bind; [apply quiet_get_config | intros config].
  apply quiet_try_except; [|now apply quiet_emit].
  apply quiet_bind; [now apply quiet_state | intros cfg].
  apply quiet_bind; [apply quiet_lift | intros color].
  apply quiet_bind; [apply quiet_lift | intros gh'].
  apply quiet_bind; [now apply quiet_emit | intros _]. apply quiet_ret.
Qed.

Lemma quiet_remove_system (gh : Github) (name : string) (org : option string)
    (system : string) (prompt : bool) (branch_pages : string) :
  prompt && click_confirm "Run update to re-generate the page?" = false ->
  quiet (remove_system gh name org system prompt branch_pages).
Proof.
  intros Hno. unfold remove_system, run_remove_system. rewrite Hno.
  apply quiet_bind; [apply quiet_get_repo | intros repo].
  apply quiet_try_except; [|now apply quiet_emit].
  apply quiet_bind; [apply quiet_lift | intros label].
  apply quiet_bind; [apply quiet_lift | intros gh'].
  apply quiet_bind; [now apply quiet_emit | intros _]. apply quiet_ret.
Qed.
End CommandFacts.





(** X14. Once the repository and the configuration are there,
    [run_add_system] never raises a [GithubException] of status 422,
    whether [create_label] or the [run_update] after it raised one. *)
Theorem run_add_system_never_raises_422 :
  forall (PY3 : bool) (hashlib_sha1_hexdigest : list byte -> string)
         (base64_b64decode : string -> list byte)
         (json_loads : string -> option dict)
         (markdown2_markdown : string -> string)
         (Template_render : string -> Systems -> list Incident -> Panels -> dict -> string)
         (str_strip : string -> string) (click_confirm : string -> bool)
         (create_label : Repo -> string -> json -> outcome Github)
         (gh : Github) (name : string) (org : option string) (system : string)
         (prompt : bool) (branch_pages : string) (st st1 : pystate) (repo : Repo)
         (config : config_obj),
    get_repo gh name org st = (Ok repo, st) ->
    get_config base64_b64decode json_loads repo branch_pages st = (Ok config, st1) ->
    fst (run_add_system PY3 hashlib_sha1_hexdigest base64_b64decode json_loads
           markdown2_markdown Template_render str_strip click_confirm create_label
           gh name org system prompt branch_pages st)
    <> Raise (GithubException 422).
Proof.
  intros PY3 sha b64 loads markdown render strip confirm create gh name org system
    prompt branch_pages st st1 repo config.
  apply run_add_system_never_422.
Qed.

Lemma run_add_system_never_raises_422_witness :
  fst (run_add_system true hexdigest_example b64decode_example json_loads_example
         markdown_example render_example strip_example confirm_example
         create_label_example (github_example repo_plain_example) "status" None "DB"
         true "gh-pages" initial_state)
  <> Raise (GithubException 422).
Proof.
  exact (run_add_system_never_raises_422 true hexdigest_example b64decode_example
           json_loads_example markdown_example render_example strip_example
           confirm_example create_label_example (github_example repo_plain_example)
           "status" None "DB" true "gh-pages" initial_state
           (mkState DEFAULT_CONFIG_initial [GetContents "/" "gh-pages"])
           repo_plain_example DEFAULT_CONFIG_object eq_refl eq_refl).
Defined.





(** X17. Once the repository is there, [run_remove_system] never raises an
    [UnknownObjectException], whichever call in its [try] raised one. *)
Theorem run_remove_system_never_raises_unknown :
  forall (PY3 : bool) (hashlib_sha1_hexdigest : list byte -> string)
         (base64_b64decode : string -> list byte)
         (json_loads : string -> option dict)
         (markdown2_markdown : string -> string)
         (Template_render : string -> Systems -> list Incident -> Panels -> dict -> string)
         (str_strip : string -> string) (click_confirm : string -> bool)
         (get_label : Repo -> string -> outcome Label)
         (delete_label : Repo -> Label -> outcome Github)
         (gh : Github) (name : string) (org : option string) (system : string)
         (prompt : bool) (branch_pages : string) (st : pystate) (repo : Repo),
    get_repo gh name org st = (Ok repo, st) ->
    fst (run_remove_system PY3 hashlib_sha1_hexdigest base64_b64decode json_loads
           markdown2_markdown Template_render str_strip click_confirm get_label
           delete_label gh name org system prompt branch_pages st)
    <> Raise UnknownObjectException.
Proof.
  intros PY3 sha b64 loads markdown render strip confirm get_label delete_label gh name
    org system prompt branch_pages st repo.
  apply run_remove_system_never_unknown.
Qed.

Lemma run_remove_system_never_raises_unknown_witness :
  fst (run_remove_system true hexdigest_example b64decode_example json_loads_example
         markdown_example render_example strip_example confirm_example
         get_label_example delete_label_example (github_example repo_plain_example)
         "status" None "API" true "gh-pages" initial_state)
  <> Raise UnknownObjectException.
Proof.
  exact (run_remove_system_never_raises_unknown true hexdigest_example b64decode_example
           json_loads_example markdown_example render_example strip_example
           confirm_example get_label_example delete_label_example
           (github_example repo_plain_example) "status" None "API" true "gh-pages"
           initial_state repo_plain_example eq_refl).
Defined.

(** X18. Without the option to prompt, or when the user declines,
    [run_add_system] and [run_remove_system] write no file: no event they
    add to the log is an [update_file] or a [create_file]. *)
Theorem commands_write_only_when_confirmed :
  forall (PY3 : bool) (hashlib_sha1_hexdigest : list byte -> string)
         (base64_b64decode : string -> list byte)
         (json_loads : string -> option dict)
         (markdown2_markdown : string -> string)
         (Template_render : string -> Systems -> list Incident -> Panels -> dict -> string)
         (str_strip : string -> string) (click_confirm : string -> bool)
         (create_label : Repo -> string -> json -> outcome Github)
         (get_label : Repo -> string -> outcome Label)
         (delete_label : Repo -> Label -> outcome Github)
         (gh : Github) (name : string) (org : option string) (system : string)
         (prompt : bool) (branch_pages : string),
    prompt && click_confirm "Run update to re-generate the page?" = false ->
    quiet (run_add_system PY3 hashlib_sha1_hexdigest base64_b64decode json_loads
             markdown2_markdown Template_render str_strip click_confirm create_label
             gh name org system prompt branch_pages)
    /\ quiet (run_remove_system PY3 hashlib_sha1_hexdigest base64_b64decode json_loads
                markdown2_markdown Template_render str_strip click_confirm get_label
                delete_label gh name org system prompt branch_pages).
Proof.
  intros PY3 sha b64 loads markdown render strip confirm create get_label delete_label
    gh name org system prompt branch_pages Hno. split.
  - now apply quiet_add_system.
  - now apply quiet_remove_system.
Qed.

Lemma commands_write_only_when_confirmed_witness :
  quiet (run_add_system true hexdigest_example b64decode_example json_loads_example
           markdown_example render_example strip_example confirm_example
           create_label_example (github_example repo_plain_example) "status" None
           "DB" false "gh-pages")
  /\ quiet (run_remove_system true hexdigest_example b64decode_example json_loads_example
              markdown_example render_example strip_example confirm_example
              get_label_example delete_label_example
              (github_example repo_plain_example) "status" None "DB" false
              "gh-pages").
Proof.
  exact (commands_write_only_when_confirmed true hexdigest_example b64decode_example
           json_loads_example markdown_example render_example strip_example
           confirm_example create_label_example get_label_example
           delete_label_example (github_example repo_plain_example) "status" None
           "DB" false "gh-pages" eq_refl).
Defined.
